(** * jimirOS scheduling core: kernel thread scheduler, HTAS, benchmark simulator

    Shallow embedding of
      - kernel/sched/sched.c          (module [KSched])
      - kernel/sched/htas.c           (module [Htas])
      - kernel/sched/htas_benchmark.c (module [Sim])
    C integers are modelled as [Z]; the wrap-around of the unsigned types is
    written out with [u8], [u16], [u32] and [u64].  Arrays are lists read with
    [!!] and written with [alter]. *)

From Stdlib Require Import ZArith Lia Bool List String.
From Equations Require Import Equations.
From stdpp Require Import base tactics option list numbers.

Local Open Scope Z_scope.

(** ** Machine integers *)

Definition u8  (x : Z) : Z := x mod 2 ^ 8.
Definition u16 (x : Z) : Z := x mod 2 ^ 16.
Definition u32 (x : Z) : Z := x mod 2 ^ 32.
Definition u64 (x : Z) : Z := x mod 2 ^ 64.

(** ** Counted loops

    [for (i = lo; i < lo + n; i++) body(i)] threads a state through the
    indices in ascending order. *)

Definition for_range {S : Type} (lo n : nat) (body : nat -> S -> S) (s : S) : S :=
  foldl (fun acc i => body i acc) s (seq lo n).

(** * kernel/sched/sched.c *)

Module KSched.

Definition MAX_THREADS : Z := 16.
Definition AGING_THRESHOLD : Z := 32.

Definition SCHED_PRIORITY_REALTIME : Z := 0.
Definition SCHED_PRIORITY_INTERACTIVE : Z := 1.
Definition SCHED_PRIORITY_BACKGROUND : Z := 2.
Definition SCHED_PRIORITY_BATCH : Z := 3.
Definition SCHED_PRIORITY_LEVELS : Z := 4.

(** [priority_quantum[SCHED_PRIORITY_LEVELS] = {4, 6, 10, 18}]; an index
    outside the table (undefined in C) reads 0 here. *)
Definition priority_quantum (p : Z) : Z :=
  if p <? 0 then 0 else nth (Z.to_nat p) [4; 6; 10; 18] 0.

Definition DEFAULT_PRIORITY : Z := SCHED_PRIORITY_INTERACTIVE.

Inductive tstate_t := T_UNUSED | T_READY | T_RUNNING | T_BLOCKED.

#[global] Instance tstate_eq_dec : EqDecision tstate_t.
Proof. solve_decision. Defined.

Record kthread := mk_kthread {
  esp : Z;            (* uint32_t *)
  state : tstate_t;
  name : string;      (* char[16] *)
  priority : Z;       (* uint8_t *)
  slice_left : Z;     (* uint8_t *)
  wait_ticks : Z      (* uint16_t *)
}.

Definition set_esp (v : Z) (t : kthread) : kthread :=
  mk_kthread v (state t) (name t) (priority t) (slice_left t) (wait_ticks t).
Definition set_state (v : tstate_t) (t : kthread) : kthread :=
  mk_kthread (esp t) v (name t) (priority t) (slice_left t) (wait_ticks t).
Definition set_name (v : string) (t : kthread) : kthread :=
  mk_kthread (esp t) (state t) v (priority t) (slice_left t) (wait_ticks t).
Definition set_priority (v : Z) (t : kthread) : kthread :=
  mk_kthread (esp t) (state t) (name t) v (slice_left t) (wait_ticks t).
Definition set_slice_left (v : Z) (t : kthread) : kthread :=
  mk_kthread (esp t) (state t) (name t) (priority t) v (wait_ticks t).
Definition set_wait_ticks (v : Z) (t : kthread) : kthread :=
  mk_kthread (esp t) (state t) (name t) (priority t) (slice_left t) v.

(** The zero-filled descriptor left by [memset(th, 0, sizeof(th))]. *)
Definition kthread_zero : kthread := mk_kthread 0 T_UNUSED "" 0 0 0.

#[global] Instance kthread_inhabited : Inhabited kthread := populate kthread_zero.

(** The scheduler's globals: [th[MAX_THREADS]] and [current]. *)
Record sched_state := mk_sched {
  th : list kthread;
  current : Z
}.

(** [th[i]] for an [int] index. *)
Definition th_at (l : list kthread) (i : Z) : kthread :=
  if i <? 0 then kthread_zero else default kthread_zero (l !! Z.to_nat i).

Definition is_ready (t : kthread) : bool := bool_decide (state t = T_READY).

(** [refill_slice] *)
Definition refill_thread (t : kthread) : kthread :=
  set_slice_left (u8 (priority_quantum (priority t))) t.

Definition refill_slice (tid : Z) (l : list kthread) : list kthread :=
  if (tid <? 0) || (MAX_THREADS <=? tid) then l
  else alter refill_thread (Z.to_nat tid) l.

(** [apply_aging]: the body of the loop at index [i]. *)
Definition aging_due (t : kthread) : bool :=
  is_ready t && (AGING_THRESHOLD <=? wait_ticks t)
             && (SCHED_PRIORITY_REALTIME <? priority t).

Definition age_slot (i : nat) (l : list kthread) : list kthread :=
  if aging_due (th_at l (Z.of_nat i)) then
    let l1 := alter (fun t => set_priority (u8 (priority t - 1)) t) i l in
    let l2 := alter (set_wait_ticks 0) i l1 in
    refill_slice (Z.of_nat i) l2
  else l.

Definition apply_aging (l : list kthread) : list kthread :=
  for_range 1 15 age_slot l.

(** [select_next]: loop state is [(best, best_prio, best_wait)]. *)
Definition select_step (l : list kthread) (i : nat) (b : Z * Z * Z) : Z * Z * Z :=
  let '(best, best_prio, best_wait) := b in
  let t := th_at l (Z.of_nat i) in
  if is_ready t then
    let prio := priority t in
    let wait := wait_ticks t in
    if (best <? 0) || (prio <? best_prio)
       || ((prio =? best_prio) && (best_wait <? wait))
    then (Z.of_nat i, prio, wait)
    else b
  else b.

Definition select_next (l : list kthread) : Z :=
  fst (fst (for_range 1 15 (select_step l) (-1, SCHED_PRIORITY_LEVELS, -1))).

(** [sched_init] *)
Definition sched_init : sched_state :=
  let l0 := replicate 16 kthread_zero in
  let l1 := alter (set_state T_RUNNING) 0%nat l0 in
  let l2 := alter (set_name "idle") 0%nat l1 in
  let l3 := alter (set_priority SCHED_PRIORITY_BATCH) 0%nat l2 in
  let l4 := alter (set_wait_ticks 0) 0%nat l3 in
  mk_sched (refill_slice 0 l4) 0.

(** [kthread_create]: [new_esp] is what [new_stack_with_trampoline] returns
    (0 when [kmalloc] fails); [nm] is the name already cut to 15 characters.
    The search for a free slot runs over slots 1..15. *)
Fixpoint find_unused (i : nat) (ts : list kthread) : option nat :=
  match ts with
  | [] => None
  | t :: ts' => if bool_decide (state t = T_UNUSED) then Some i
                else find_unused (S i) ts'
  end.

Definition kthread_create (new_esp : Z) (nm : string) (s : sched_state)
  : sched_state * Z :=
  match find_unused 1 (take 15 (drop 1 (th s))) with
  | Some i =>
      if new_esp =? 0 then (s, -1)
      else
        let l1 := alter (set_esp new_esp) i (th s) in
        let l2 := alter (set_state T_READY) i l1 in
        let l3 := alter (set_name nm) i l2 in
        let l4 := alter (set_priority DEFAULT_PRIORITY) i l3 in
        let l5 := alter (set_wait_ticks 0) i l4 in
        (mk_sched (refill_slice (Z.of_nat i) l5) (current s), Z.of_nat i)
  | None => (s, -1)
  end.

(** [sched_set_priority] *)
Definition sched_set_priority (pid prio : Z) (s : sched_state) : sched_state * Z :=
  if (pid <? 0) || (MAX_THREADS <=? pid) then (s, -1)
  else if (prio <? SCHED_PRIORITY_REALTIME) || (SCHED_PRIORITY_LEVELS <=? prio)
  then (s, -1)
  else if bool_decide (state (th_at (th s) pid) = T_UNUSED) then (s, -1)
  else
    let l1 := alter (set_priority (u8 prio)) (Z.to_nat pid) (th s) in
    let l2 := alter (set_wait_ticks 0) (Z.to_nat pid) l1 in
    (mk_sched (refill_slice pid l2) (current s), 0).

(** [sched_yield]: [sp] is the stack pointer that [ctx_switch] stores into
    [th[prev].esp]; the switch itself is outside the model. *)
Definition sched_yield (sp : Z) (s : sched_state) : sched_state :=
  let l0 := apply_aging (th s) in
  let next := select_next l0 in
  if (next <? 0) || (next =? current s) then mk_sched l0 (current s)
  else
    let prev := current s in
    let l1 := alter (set_state T_READY) (Z.to_nat prev) l0 in
    let l2 := alter (set_wait_ticks 0) (Z.to_nat prev) l1 in
    let l3 := refill_slice prev l2 in
    let l4 := alter (set_state T_RUNNING) (Z.to_nat next) l3 in
    let l5 := alter (set_wait_ticks 0) (Z.to_nat next) l4 in
    let l6 := refill_slice next l5 in
    let l7 := alter (set_esp (u32 sp)) (Z.to_nat prev) l6 in
    mk_sched l7 next.

(** [sched_tick] *)
Definition bump_slot (cur : Z) (i : nat) (l : list kthread) : list kthread :=
  if negb (Z.of_nat i =? cur) && is_ready (th_at l (Z.of_nat i))
  then alter (fun t => set_wait_ticks (u16 (wait_ticks t + 1)) t) i l
  else l.

Definition sched_tick (sp : Z) (s : sched_state) : sched_state :=
  if current s <? 0 then s
  else
    let cur := current s in
    let l1 := for_range 1 15 (bump_slot cur) (th s) in
    let l2 := if 0 <? slice_left (th_at l1 cur)
              then alter (fun t => set_slice_left (u8 (slice_left t - 1)) t)
                         (Z.to_nat cur) l1
              else l1 in
    let l3 := apply_aging l2 in
    let next := select_next l3 in
    if (0 <=? next)
       && ((priority (th_at l3 next) <? priority (th_at l3 cur))
           || (slice_left (th_at l3 cur) =? 0))
    then
      let l4 := alter (fun t => set_slice_left (u8 (priority_quantum (priority t))) t)
                      (Z.to_nat cur) l3 in
      sched_yield sp (mk_sched l4 cur)
    else if slice_left (th_at l3 cur) =? 0
    then mk_sched (refill_slice cur l3) cur
    else mk_sched l3 cur.

End KSched.

(** * kernel/include/kernel/htas.h *)

Module HtasH.

Definition NUM_CPUS : Z := 4.
Definition NUM_NUMA_NODES : Z := 2.

Inductive cpu_type_t := CPU_TYPE_PCORE | CPU_TYPE_ECORE.

#[global] Instance cpu_type_eq_dec : EqDecision cpu_type_t.
Proof. solve_decision. Defined.

Record cpu_info_t := mk_cpu_info {
  cpu_id : Z;           (* uint8_t *)
  type : cpu_type_t;
  numa_node : Z;        (* uint8_t *)
  online : bool
}.

Record numa_region_t := mk_numa_region {
  base : Z;             (* uint32_t *)
  size : Z              (* uint32_t *)
}.

Inductive task_intent_t :=
  | PROFILE_PERFORMANCE
  | PROFILE_EFFICIENCY
  | PROFILE_LOW_LATENCY
  | PROFILE_DEFAULT.

#[global] Instance task_intent_eq_dec : EqDecision task_intent_t.
Proof. solve_decision. Defined.

(** The enumerator's value, used to index [intent_stats]. *)
Definition intent_index (i : task_intent_t) : nat :=
  match i with
  | PROFILE_PERFORMANCE => 0
  | PROFILE_EFFICIENCY => 1
  | PROFILE_LOW_LATENCY => 2
  | PROFILE_DEFAULT => 3
  end.

(** [primary_data_region] is a 32-bit pointer; [NULL] is 0. *)
Record task_profile_t := mk_task_profile {
  intent : task_intent_t;
  primary_data_region : Z;
  data_size : Z
}.

Inductive scheduler_type_t := SCHED_BASELINE | SCHED_HTAS | SCHED_DYNAMIC.

#[global] Instance scheduler_type_eq_dec : EqDecision scheduler_type_t.
Proof. solve_decision. Defined.

Definition ECORE_SLOWDOWN_FACTOR : Z := 2.
Definition NUMA_PENALTY_CYCLES : Z := 100.
Definition LOW_LATENCY_PRIORITY_BOOST : Z := 10.
Definition AGING_THRESHOLD : Z := 100.
Definition AGING_PRIORITY_BOOST : Z := 5.

(** [g_cpu_topology] and [g_numa_regions] (defined in htas.c, never written). *)
Definition g_cpu_topology : list cpu_info_t :=
  [ mk_cpu_info 0 CPU_TYPE_PCORE 0 true;
    mk_cpu_info 1 CPU_TYPE_PCORE 0 true;
    mk_cpu_info 2 CPU_TYPE_ECORE 1 true;
    mk_cpu_info 3 CPU_TYPE_ECORE 1 true ].

Definition g_numa_regions : list numa_region_t :=
  [ mk_numa_region 0 134217728;            (* 0x00000000, 0x08000000 *)
    mk_numa_region 134217728 134217728 ].  (* 0x08000000, 0x08000000 *)

(** [g_cpu_topology[i]]; an index outside the array is undefined in C and
    reads a zero-filled entry here. *)
Definition cpu_at (i : Z) : cpu_info_t :=
  if i <? 0 then mk_cpu_info 0 CPU_TYPE_PCORE 0 false
  else default (mk_cpu_info 0 CPU_TYPE_PCORE 0 false)
               (g_cpu_topology !! Z.to_nat i).

End HtasH.

(** ** [scheduler_stats_t] *)

Module Stats.

(** One element of [intent_stats[4]]. *)
Record intent_stat_t := mk_intent_stat {
  runtime_us : Z;       (* uint64_t *)
  switches : Z;         (* uint64_t *)
  avg_latency_us : Z;   (* uint64_t *)
  max_jitter_us : Z     (* uint64_t *)
}.

Definition set_runtime_us (v : Z) (s : intent_stat_t) : intent_stat_t :=
  mk_intent_stat v (switches s) (avg_latency_us s) (max_jitter_us s).
Definition set_switches (v : Z) (s : intent_stat_t) : intent_stat_t :=
  mk_intent_stat (runtime_us s) v (avg_latency_us s) (max_jitter_us s).
Definition set_avg_latency_us (v : Z) (s : intent_stat_t) : intent_stat_t :=
  mk_intent_stat (runtime_us s) (switches s) v (max_jitter_us s).
Definition set_max_jitter_us (v : Z) (s : intent_stat_t) : intent_stat_t :=
  mk_intent_stat (runtime_us s) (switches s) (avg_latency_us s) v.

Record scheduler_stats_t := mk_stats {
  total_ticks : Z;              (* uint64_t, as all fields *)
  context_switches : Z;
  numa_penalties : Z;
  ecore_time_us : Z;
  pcore_time_us : Z;
  intent_stats : list intent_stat_t;
  total_power_consumption : Z
}.

Definition set_total_ticks (v : Z) (s : scheduler_stats_t) : scheduler_stats_t :=
  mk_stats v (context_switches s) (numa_penalties s) (ecore_time_us s)
           (pcore_time_us s) (intent_stats s) (total_power_consumption s).
Definition set_context_switches (v : Z) (s : scheduler_stats_t) : scheduler_stats_t :=
  mk_stats (total_ticks s) v (numa_penalties s) (ecore_time_us s)
           (pcore_time_us s) (intent_stats s) (total_power_consumption s).
Definition set_numa_penalties (v : Z) (s : scheduler_stats_t) : scheduler_stats_t :=
  mk_stats (total_ticks s) (context_switches s) v (ecore_time_us s)
           (pcore_time_us s) (intent_stats s) (total_power_consumption s).
Definition set_ecore_time_us (v : Z) (s : scheduler_stats_t) : scheduler_stats_t :=
  mk_stats (total_ticks s) (context_switches s) (numa_penalties s) v
           (pcore_time_us s) (intent_stats s) (total_power_consumption s).
Definition set_pcore_time_us (v : Z) (s : scheduler_stats_t) : scheduler_stats_t :=
  mk_stats (total_ticks s) (context_switches s) (numa_penalties s)
           (ecore_time_us s) v (intent_stats s) (total_power_consumption s).
Definition set_intent_stats (v : list intent_stat_t) (s : scheduler_stats_t)
  : scheduler_stats_t :=
  mk_stats (total_ticks s) (context_switches s) (numa_penalties s)
           (ecore_time_us s) (pcore_time_us s) v (total_power_consumption s).
Definition set_total_power_consumption (v : Z) (s : scheduler_stats_t)
  : scheduler_stats_t :=
  mk_stats (total_ticks s) (context_switches s) (numa_penalties s)
           (ecore_time_us s) (pcore_time_us s) (intent_stats s) v.

(** [memset(stats, 0, sizeof(scheduler_stats_t))] *)
Definition stats_zero : scheduler_stats_t :=
  mk_stats 0 0 0 0 0 (replicate 4 (mk_intent_stat 0 0 0 0)) 0.

End Stats.

(** * kernel/sched/htas.c *)

Module Htas.
Import HtasH.

Record htas_task_info_t := mk_htas_task_info {
  profile : task_profile_t;
  cpu_affinity_mask : Z;       (* uint32_t *)
  priority_boost : Z;          (* int *)
  preferred_numa_node : Z;     (* uint8_t *)
  wait_time : Z;               (* uint32_t *)
  priority_boost_aging : Z;    (* int *)
  total_runtime_us : Z;        (* uint64_t *)
  total_switches : Z;          (* uint64_t *)
  numa_penalties : Z           (* uint64_t *)
}.

(** [memset(proc->htas_info, 0, sizeof(htas_task_info_t))] *)
Definition htas_task_info_zero : htas_task_info_t :=
  mk_htas_task_info (mk_task_profile PROFILE_PERFORMANCE 0 0) 0 0 0 0 0 0 0 0.

(** Modelled from the spec: the process table of kernel/process.h, which is
    not among the sources.  htas.c reads a process's [state] and its
    [htas_info] pointer and names the states [PROC_UNUSED], [PROC_READY] and
    [PROC_RUNNING]; [PROC_OTHER] stands for every further state.  A
    [process_t*] is modelled as an index into the list of process records,
    whose first [MAX_PROCESSES] entries are the table that
    [process_get_list] returns. *)
Inductive proc_state_t := PROC_UNUSED | PROC_READY | PROC_RUNNING | PROC_OTHER (tag : nat).

#[global] Instance proc_state_eq_dec : EqDecision proc_state_t.
Proof. solve_decision. Defined.

Record process_t := mk_process {
  pid : Z;
  state : proc_state_t;
  htas_info : option htas_task_info_t
}.

Definition process_zero : process_t := mk_process 0 PROC_UNUSED None.

Definition proc_at (procs : list process_t) (i : nat) : process_t :=
  default process_zero (procs !! i).

(** [htas_get_cpu_type], [htas_get_numa_node_for_cpu] *)
Definition htas_get_cpu_type (cpu : Z) : cpu_type_t :=
  if NUM_CPUS <=? cpu then CPU_TYPE_PCORE else type (cpu_at cpu).

Definition htas_get_numa_node_for_cpu (cpu : Z) : Z :=
  if NUM_CPUS <=? cpu then 0 else numa_node (cpu_at cpu).

(** [htas_get_numa_node_for_address]: the first region that holds the
    address, else 0. *)
Fixpoint numa_scan (address : Z) (i : Z) (regions : list numa_region_t) : Z :=
  match regions with
  | [] => 0
  | r :: rest =>
      let b := base r in
      let e := u32 (b + size r) in
      if (b <=? address) && (address <? e) then i
      else numa_scan address (i + 1) rest
  end.

Definition htas_get_numa_node_for_address (addr : Z) : Z :=
  numa_scan (u32 addr) 0 g_numa_regions.

(** The [switch] of [htas_calculate_affinity]. *)
Definition type_mask (k : cpu_type_t) : Z :=
  for_range 0 4
    (fun i mask => if decide (type (cpu_at (Z.of_nat i)) = k)
                   then Z.lor mask (Z.shiftl 1 (Z.of_nat i)) else mask) 0.

Definition intent_mask (i : task_intent_t) : Z :=
  match i with
  | PROFILE_PERFORMANCE | PROFILE_LOW_LATENCY => type_mask CPU_TYPE_PCORE
  | PROFILE_EFFICIENCY => type_mask CPU_TYPE_ECORE
  | PROFILE_DEFAULT => Z.shiftl 1 NUM_CPUS - 1
  end.

Definition numa_cpu_mask (node : Z) : Z :=
  for_range 0 4
    (fun i mask => if numa_node (cpu_at (Z.of_nat i)) =? node
                   then Z.lor mask (Z.shiftl 1 (Z.of_nat i)) else mask) 0.

(** [htas_calculate_affinity] calls itself once more, with the data region
    cleared, when the NUMA restriction leaves no CPU. *)
Definition region_given (p : task_profile_t) : nat :=
  if primary_data_region p =? 0 then 0%nat else 1%nat.

Equations? htas_calculate_affinity (p : task_profile_t) : Z
  by wf (region_given p) lt :=
  htas_calculate_affinity p with Z.eq_dec (primary_data_region p) 0 => {
    | left _ := intent_mask (intent p);
    | right Hset :=
        let mask := intent_mask (intent p) in
        let node := htas_get_numa_node_for_address (primary_data_region p) in
        let mask' := Z.land mask (numa_cpu_mask node) in
        if Z.eq_dec mask' 0
        then htas_calculate_affinity (mk_task_profile (intent p) 0 0)
        else mask' }.
Proof.
  unfold region_given; simpl.
  destruct (Z.eqb_spec (primary_data_region p) 0); [contradiction | lia].
Qed.

(** [htas_can_run_on_cpu] *)
Definition htas_can_run_on_cpu (proc : process_t) (cpu : Z) : bool :=
  if NUM_CPUS <=? cpu then false
  else match htas_info proc with
       | None => true
       | Some info =>
           negb (Z.land (cpu_affinity_mask info) (Z.shiftl 1 cpu) =? 0)
       end.

(** [sys_sched_set_profile].  [process_find] is declared in
    kernel/process.h and taken as a parameter: it yields the found process
    or nothing.  [kmalloc_ok] says whether the allocation of the
    [htas_task_info_t] succeeds. *)
Definition sys_sched_set_profile
    (process_find : list process_t -> Z -> option nat) (kmalloc_ok : bool)
    (procs : list process_t) (pid : Z) (prof : task_profile_t)
  : list process_t * Z :=
  match process_find procs pid with
  | None => (procs, -1)
  | Some i =>
      let proc := proc_at procs i in
      let fresh :=
        match htas_info proc with
        | Some info => Some info
        | None => if kmalloc_ok then Some htas_task_info_zero else None
        end in
      match fresh with
      | None => (procs, -1)
      | Some info =>
          let info1 :=
            mk_htas_task_info prof (htas_calculate_affinity prof)
              (if decide (intent prof = PROFILE_LOW_LATENCY)
               then LOW_LATENCY_PRIORITY_BOOST else 0)
              (if primary_data_region prof =? 0 then 0
               else htas_get_numa_node_for_address (primary_data_region prof))
              (wait_time info) (priority_boost_aging info)
              (total_runtime_us info) (total_switches info)
              (numa_penalties info) in
          (alter (fun p => mk_process (Htas.pid p) (state p) (Some info1)) i procs, 0)
      end
  end.

(** [baseline_select_next].  [MAX_PROCESSES] comes from kernel/process.h
    and is a parameter; [current] is what [process_current] returns and
    [rr_cursor] the function's static cursor, returned updated. *)
Section Baseline.
Variable MAX_PROCESSES : nat.
Variable procs : list process_t.
Variable current : option nat.

Definition runnable (p : process_t) : bool :=
  bool_decide (state p = PROC_READY) || bool_decide (state p = PROC_RUNNING).

(** The first loop: the table index of [current], or -1. *)
Fixpoint find_current (i n : nat) : Z :=
  match n with
  | O => -1
  | S n' => if decide (Some i = current) then Z.of_nat i
            else find_current (S i) n'
  end.

Definition current_candidate : option nat :=
  match current with
  | Some c => if runnable (proc_at procs c) then Some c else None
  | None => None
  end.

(** The scan loop, from [scanned] on, for [n] more iterations. *)
Fixpoint scan (start : Z) (scanned n : nat) : option nat :=
  match n with
  | O => None
  | S n' =>
      let idx := Z.to_nat (Z.rem (start + Z.of_nat scanned) (Z.of_nat MAX_PROCESSES)) in
      let proc := proc_at procs idx in
      if bool_decide (state proc = PROC_UNUSED) then scan start (S scanned) n'
      else if decide (Some idx = current_candidate) then scan start (S scanned) n'
      else if negb (bool_decide (state proc = PROC_READY))
              && negb (bool_decide (state proc = PROC_RUNNING))
      then scan start (S scanned) n'
      else Some idx
  end.

Definition baseline_select_next (rr_cursor : Z) : option nat * Z :=
  let current_idx := find_current 0 MAX_PROCESSES in
  let rr1 := if 0 <=? current_idx then current_idx else rr_cursor in
  let start := if 0 <=? rr1 then Z.rem (rr1 + 1) (Z.of_nat MAX_PROCESSES) else 0 in
  match scan start 0 MAX_PROCESSES with
  | Some idx => (Some idx, Z.of_nat idx)
  | None =>
      match current_candidate with
      | Some c => (Some c, if 0 <=? current_idx then current_idx else rr1)
      | None => (None, -1)
      end
  end.

End Baseline.

End Htas.

(** * kernel/sched/htas_benchmark.c *)

Module Sim.
Import HtasH.

Definition SIM_TICK_US : Z := 1000.
Definition SIM_TASK_COUNT : Z := 8.
Definition DYNAMIC_INFERENCE_WINDOW : Z := 50.
Definition DYNAMIC_LOAD_THRESHOLD : Z := 25.

Record sim_task_t := mk_sim_task {
  name : string;  (* const char* *)
  intent : task_intent_t;
  preferred_type : cpu_type_t;
  preferred_numa : Z;  (* uint8_t *)
  base_priority : Z;  (* int *)
  duty_cycle : Z;  (* uint32_t *)
  active_ticks : Z;  (* uint32_t *)
  duty_phase : Z;  (* uint32_t *)
  period_ms : Z;  (* uint32_t *)
  work_ms : Z;  (* uint32_t *)
  work_remaining : Z;  (* uint32_t *)
  time_since_release : Z;  (* uint32_t *)
  waiting_since_ready : Z;  (* uint32_t *)
  ready : bool;
  selected_this_tick : bool;
  scheduled_this_tick : bool;
  last_scheduled_tick : Z;  (* uint32_t *)
  runtime_us : Z;  (* uint64_t *)
  switches : Z;  (* uint64_t *)
  numa_penalties : Z;  (* uint64_t *)
  wait_time : Z;  (* uint32_t *)
  priority_boost_aging : Z;  (* int *)
  recent_cpu_ticks : Z;  (* uint32_t *)
  inferred_numa_node : Z;  (* uint8_t *)
  inferred_numa_locked : bool
}.

Definition set_duty_phase (v : Z) (t : sim_task_t) : sim_task_t :=
  mk_sim_task
    (name t) (intent t) (preferred_type t) (preferred_numa t)
    (base_priority t) (duty_cycle t) (active_ticks t) v (period_ms t)
    (work_ms t) (work_remaining t) (time_since_release t)
    (waiting_since_ready t) (ready t) (selected_this_tick t)
    (scheduled_this_tick t) (last_scheduled_tick t) (runtime_us t)
    (switches t) (numa_penalties t) (wait_time t) (priority_boost_aging t)
    (recent_cpu_ticks t) (inferred_numa_node t) (inferred_numa_locked t).
Definition set_work_remaining (v : Z) (t : sim_task_t) : sim_task_t :=
  mk_sim_task
    (name t) (intent t) (preferred_type t) (preferred_numa t)
    (base_priority t) (duty_cycle t) (active_ticks t) (duty_phase t)
    (period_ms t) (work_ms t) v (time_since_release t)
    (waiting_since_ready t) (ready t) (selected_this_tick t)
    (scheduled_this_tick t) (last_scheduled_tick t) (runtime_us t)
    (switches t) (numa_penalties t) (wait_time t) (priority_boost_aging t)
    (recent_cpu_ticks t) (inferred_numa_node t) (inferred_numa_locked t).
Definition set_time_since_release (v : Z) (t : sim_task_t) : sim_task_t :=
  mk_sim_task
    (name t) (intent t) (preferred_type t) (preferred_numa t)
    (base_priority t) (duty_cycle t) (active_ticks t) (duty_phase t)
    (period_ms t) (work_ms t) (work_remaining t) v (waiting_since_ready t)
    (ready t) (selected_this_tick t) (scheduled_this_tick t)
    (last_scheduled_tick t) (runtime_us t) (switches t) (numa_penalties t)
    (wait_time t) (priority_boost_aging t) (recent_cpu_ticks t)
    (inferred_numa_node t) (inferred_numa_locked t).
Definition set_waiting_since_ready (v : Z) (t : sim_task_t) : sim_task_t :=
  mk_sim_task
    (name t) (intent t) (preferred_type t) (preferred_numa t)
    (base_priority t) (duty_cycle t) (active_ticks t) (duty_phase t)
    (period_ms t) (work_ms t) (work_remaining t) (time_since_release t) v
    (ready t) (selected_this_tick t) (scheduled_this_tick t)
    (last_scheduled_tick t) (runtime_us t) (switches t) (numa_penalties t)
    (wait_time t) (priority_boost_aging t) (recent_cpu_ticks t)
    (inferred_numa_node t) (inferred_numa_locked t).
Definition set_ready (v : bool) (t : sim_task_t) : sim_task_t :=
  mk_sim_task
    (name t) (intent t) (preferred_type t) (preferred_numa t)
    (base_priority t) (duty_cycle t) (active_ticks t) (duty_phase t)
    (period_ms t) (work_ms t) (work_remaining t) (time_since_release t)
    (waiting_since_ready t) v (selected_this_tick t) (scheduled_this_tick t)
    (last_scheduled_tick t) (runtime_us t) (switches t) (numa_penalties t)
    (wait_time t) (priority_boost_aging t) (recent_cpu_ticks t)
    (inferred_numa_node t) (inferred_numa_locked t).
Definition set_selected_this_tick (v : bool) (t : sim_task_t) : sim_task_t :=
  mk_sim_task
    (name t) (intent t) (preferred_type t) (preferred_numa t)
    (base_priority t) (duty_cycle t) (active_ticks t) (duty_phase t)
    (period_ms t) (work_ms t) (work_remaining t) (time_since_release t)
    (waiting_since_ready t) (ready t) v (scheduled_this_tick t)
    (last_scheduled_tick t) (runtime_us t) (switches t) (numa_penalties t)
    (wait_time t) (priority_boost_aging t) (recent_cpu_ticks t)
    (inferred_numa_node t) (inferred_numa_locked t).
Definition set_scheduled_this_tick (v : bool) (t : sim_task_t) : sim_task_t :=
  mk_sim_task
    (name t) (intent t) (preferred_type t) (preferred_numa t)
    (base_priority t) (duty_cycle t) (active_ticks t) (duty_phase t)
    (period_ms t) (work_ms t) (work_remaining t) (time_since_release t)
    (waiting_since_ready t) (ready t) (selected_this_tick t) v
    (last_scheduled_tick t) (runtime_us t) (switches t) (numa_penalties t)
    (wait_time t) (priority_boost_aging t) (recent_cpu_ticks t)
    (inferred_numa_node t) (inferred_numa_locked t).
Definition set_last_scheduled_tick (v : Z) (t : sim_task_t) : sim_task_t :=
  mk_sim_task
    (name t) (intent t) (preferred_type t) (preferred_numa t)
    (base_priority t) (duty_cycle t) (active_ticks t) (duty_phase t)
    (period_ms t) (work_ms t) (work_remaining t) (time_since_release t)
    (waiting_since_ready t) (ready t) (selected_this_tick t)
    (scheduled_this_tick t) v (runtime_us t) (switches t) (numa_penalties t)
    (wait_time t) (priority_boost_aging t) (recent_cpu_ticks t)
    (inferred_numa_node t) (inferred_numa_locked t).
Definition set_runtime_us (v : Z) (t : sim_task_t) : sim_task_t :=
  mk_sim_task
    (name t) (intent t) (preferred_type t) (preferred_numa t)
    (base_priority t) (duty_cycle t) (active_ticks t) (duty_phase t)
    (period_ms t) (work_ms t) (work_remaining t) (time_since_release t)
    (waiting_since_ready t) (ready t) (selected_this_tick t)
    (scheduled_this_tick t) (last_scheduled_tick t) v (switches t)
    (numa_penalties t) (wait_time t) (priority_boost_aging t)
    (recent_cpu_ticks t) (inferred_numa_node t) (inferred_numa_locked t).
Definition set_switches (v : Z) (t : sim_task_t) : sim_task_t :=
  mk_sim_task
    (name t) (intent t) (preferred_type t) (preferred_numa t)
    (base_priority t) (duty_cycle t) (active_ticks t) (duty_phase t)
    (period_ms t) (work_ms t) (work_remaining t) (time_since_release t)
    (waiting_since_ready t) (ready t) (selected_this_tick t)
    (scheduled_this_tick t) (last_scheduled_tick t) (runtime_us t) v
    (numa_penalties t) (wait_time t) (priority_boost_aging t)
    (recent_cpu_ticks t) (inferred_numa_node t) (inferred_numa_locked t).
Definition set_numa_penalties (v : Z) (t : sim_task_t) : sim_task_t :=
  mk_sim_task
    (name t) (intent t) (preferred_type t) (preferred_numa t)
    (base_priority t) (duty_cycle t) (active_ticks t) (duty_phase t)
    (period_ms t) (work_ms t) (work_remaining t) (time_since_release t)
    (waiting_since_ready t) (ready t) (selected_this_tick t)
    (scheduled_this_tick t) (last_scheduled_tick t) (runtime_us t)
    (switches t) v (wait_time t) (priority_boost_aging t)
    (recent_cpu_ticks t) (inferred_numa_node t) (inferred_numa_locked t).
Definition set_wait_time (v : Z) (t : sim_task_t) : sim_task_t :=
  mk_sim_task
    (name t) (intent t) (preferred_type t) (preferred_numa t)
    (base_priority t) (duty_cycle t) (active_ticks t) (duty_phase t)
    (period_ms t) (work_ms t) (work_remaining t) (time_since_release t)
    (waiting_since_ready t) (ready t) (selected_this_tick t)
    (scheduled_this_tick t) (last_scheduled_tick t) (runtime_us t)
    (switches t) (numa_penalties t) v (priority_boost_aging t)
    (recent_cpu_ticks t) (inferred_numa_node t) (inferred_numa_locked t).
Definition set_priority_boost_aging (v : Z) (t : sim_task_t) : sim_task_t :=
  mk_sim_task
    (name t) (intent t) (preferred_type t) (preferred_numa t)
    (base_priority t) (duty_cycle t) (active_ticks t) (duty_phase t)
    (period_ms t) (work_ms t) (work_remaining t) (time_since_release t)
    (waiting_since_ready t) (ready t) (selected_this_tick t)
    (scheduled_this_tick t) (last_scheduled_tick t) (runtime_us t)
    (switches t) (numa_penalties t) (wait_time t) v (recent_cpu_ticks t)
    (inferred_numa_node t) (inferred_numa_locked t).
Definition set_recent_cpu_ticks (v : Z) (t : sim_task_t) : sim_task_t :=
  mk_sim_task
    (name t) (intent t) (preferred_type t) (preferred_numa t)
    (base_priority t) (duty_cycle t) (active_ticks t) (duty_phase t)
    (period_ms t) (work_ms t) (work_remaining t) (time_since_release t)
    (waiting_since_ready t) (ready t) (selected_this_tick t)
    (scheduled_this_tick t) (last_scheduled_tick t) (runtime_us t)
    (switches t) (numa_penalties t) (wait_time t) (priority_boost_aging t) v
    (inferred_numa_node t) (inferred_numa_locked t).
Definition set_inferred_numa_node (v : Z) (t : sim_task_t) : sim_task_t :=
  mk_sim_task
    (name t) (intent t) (preferred_type t) (preferred_numa t)
    (base_priority t) (duty_cycle t) (active_ticks t) (duty_phase t)
    (period_ms t) (work_ms t) (work_remaining t) (time_since_release t)
    (waiting_since_ready t) (ready t) (selected_this_tick t)
    (scheduled_this_tick t) (last_scheduled_tick t) (runtime_us t)
    (switches t) (numa_penalties t) (wait_time t) (priority_boost_aging t)
    (recent_cpu_ticks t) v (inferred_numa_locked t).
Definition set_inferred_numa_locked (v : bool) (t : sim_task_t) : sim_task_t :=
  mk_sim_task
    (name t) (intent t) (preferred_type t) (preferred_numa t)
    (base_priority t) (duty_cycle t) (active_ticks t) (duty_phase t)
    (period_ms t) (work_ms t) (work_remaining t) (time_since_release t)
    (waiting_since_ready t) (ready t) (selected_this_tick t)
    (scheduled_this_tick t) (last_scheduled_tick t) (runtime_us t)
    (switches t) (numa_penalties t) (wait_time t) (priority_boost_aging t)
    (recent_cpu_ticks t) (inferred_numa_node t) v.

Record sim_context_t := mk_sim_context {
  tasks : list sim_task_t;
  last_task_on_cpu : list Z;  (* int[NUM_CPUS] *)
  latency_total_us : Z;  (* uint64_t *)
  latency_samples : Z;  (* uint32_t *)
  latency_max_us : Z;  (* uint32_t *)
  tick : Z;  (* uint32_t *)
  rr_index : Z;  (* int *)
  dynamic_stats : Stats.scheduler_stats_t
}.

Definition set_tasks (v : list sim_task_t) (c : sim_context_t) : sim_context_t :=
  mk_sim_context
    v (last_task_on_cpu c) (latency_total_us c) (latency_samples c)
    (latency_max_us c) (tick c) (rr_index c) (dynamic_stats c).
Definition set_last_task_on_cpu (v : list Z) (c : sim_context_t) : sim_context_t :=
  mk_sim_context
    (tasks c) v (latency_total_us c) (latency_samples c) (latency_max_us c)
    (tick c) (rr_index c) (dynamic_stats c).
Definition set_latency_total_us (v : Z) (c : sim_context_t) : sim_context_t :=
  mk_sim_context
    (tasks c) (last_task_on_cpu c) v (latency_samples c) (latency_max_us c)
    (tick c) (rr_index c) (dynamic_stats c).
Definition set_latency_samples (v : Z) (c : sim_context_t) : sim_context_t :=
  mk_sim_context
    (tasks c) (last_task_on_cpu c) (latency_total_us c) v (latency_max_us c)
    (tick c) (rr_index c) (dynamic_stats c).
Definition set_latency_max_us (v : Z) (c : sim_context_t) : sim_context_t :=
  mk_sim_context
    (tasks c) (last_task_on_cpu c) (latency_total_us c) (latency_samples c) v
    (tick c) (rr_index c) (dynamic_stats c).
Definition set_tick (v : Z) (c : sim_context_t) : sim_context_t :=
  mk_sim_context
    (tasks c) (last_task_on_cpu c) (latency_total_us c) (latency_samples c)
    (latency_max_us c) v (rr_index c) (dynamic_stats c).
Definition set_rr_index (v : Z) (c : sim_context_t) : sim_context_t :=
  mk_sim_context
    (tasks c) (last_task_on_cpu c) (latency_total_us c) (latency_samples c)
    (latency_max_us c) (tick c) v (dynamic_stats c).

Definition sim_task_zero : sim_task_t :=
  mk_sim_task "" PROFILE_PERFORMANCE CPU_TYPE_PCORE 0 0 0 0 0 0 0 0 0 0
              false false false 0 0 0 0 0 0 0 0 false.

(** A compound literal [(sim_task_t){ .name = .., .. }]: the fields it does
    not name are zero. *)
Definition task_literal (nm : string) (it : task_intent_t) (pt : cpu_type_t)
    (pn bp dc act pm wm tsr : Z) : sim_task_t :=
  mk_sim_task nm it pt pn bp dc act 0 pm wm 0 tsr 0
              false false false 0 0 0 0 0 0 0 0 false.

(** [memset(ctx, 0, sizeof(sim_context_t))] *)
Definition sim_context_zero : sim_context_t :=
  mk_sim_context (replicate 8 sim_task_zero) (replicate 4 0) 0 0 0 0 0
                 Stats.stats_zero.

Definition task_at (ctx : sim_context_t) (i : nat) : sim_task_t :=
  default sim_task_zero (tasks ctx !! i).

(** [ctx->tasks[idx]] for an [int] index. *)
Definition task_atZ (ctx : sim_context_t) (idx : Z) : sim_task_t :=
  if idx <? 0 then sim_task_zero else task_at ctx (Z.to_nat idx).

Definition last_at (ctx : sim_context_t) (cpu : Z) : Z :=
  if cpu <? 0 then 0 else default 0 (last_task_on_cpu ctx !! Z.to_nat cpu).

Definition eff_names (i : nat) : string :=
  nth i ["EFFI0"; "EFFI1"; "EFFI2"; "EFFI3"]%string ""%string.

(** [sim_init_tasks]: whatever [ctx] held before is overwritten. *)
Definition sim_init_tasks (ctx : sim_context_t) : sim_context_t :=
  let ctx := sim_context_zero in
  let ctx := set_last_task_on_cpu
               (for_range 0 4 (fun cpu l => <[cpu := -1]> l) (last_task_on_cpu ctx))
               ctx in
  let ts := tasks ctx in
  let ts := <[0%nat := task_literal "PERF0" PROFILE_PERFORMANCE CPU_TYPE_PCORE
                                    0 12 0 0 0 0 0]> ts in
  let ts := <[1%nat := task_literal "PERF1" PROFILE_PERFORMANCE CPU_TYPE_PCORE
                                    1 11 0 0 0 0 0]> ts in
  let ts := for_range 0 4
              (fun i l => <[(2 + i)%nat :=
                 task_literal (eff_names i) PROFILE_EFFICIENCY CPU_TYPE_ECORE
                              1 10 5 1 0 0 0]> l) ts in
  let ts := <[6%nat := task_literal "LOW_LAT" PROFILE_LOW_LATENCY CPU_TYPE_PCORE
                                    0 10 0 0 16 2 16]> ts in
  let ts := <[7%nat := task_literal "NUMA" PROFILE_PERFORMANCE CPU_TYPE_ECORE
                                    1 10 0 0 0 0 0]> ts in
  set_tasks ts ctx.

(** [sim_prepare_tick]: the loop body on [ctx->tasks[i]]. *)
Definition prepare_task (task : sim_task_t) : sim_task_t :=
  let task := set_selected_this_tick false task in
  let task := set_scheduled_this_tick false task in
  if decide (intent task = PROFILE_LOW_LATENCY) then
    if work_remaining task =? 0 then
      if time_since_release task <? period_ms task then
        let task := set_time_since_release (u32 (time_since_release task + 1)) task in
        set_ready false task
      else
        let task :=
          if (work_remaining task =? 0) && negb (ready task) then
            let task := set_work_remaining (work_ms task) task in
            set_waiting_since_ready 0 task
          else task in
        set_ready (0 <? work_remaining task) task
    else set_ready true task
  else if 0 <? duty_cycle task then
    let task := set_ready (duty_phase task <? active_ticks task) task in
    set_duty_phase (u32 (duty_phase task + 1) mod duty_cycle task) task
  else set_ready true task.

Definition sim_prepare_tick (ctx : sim_context_t) : sim_context_t :=
  set_tasks (for_range 0 8 (fun i l => alter prepare_task i l) (tasks ctx)) ctx.

(** [sim_select_task_round_robin]: the loop from [attempts] on, for [n] more
    iterations. *)
Fixpoint rr_scan (ctx : sim_context_t) (attempts n : nat) : sim_context_t * Z :=
  match n with
  | O => (ctx, -1)
  | S n' =>
      let idx := Z.rem (rr_index ctx + Z.of_nat attempts) SIM_TASK_COUNT in
      let task := task_atZ ctx idx in
      if ready task && negb (selected_this_tick task) then
        let ctx := set_rr_index (Z.rem (idx + 1) SIM_TASK_COUNT) ctx in
        (set_tasks (alter (set_selected_this_tick true) (Z.to_nat idx) (tasks ctx)) ctx,
         idx)
      else rr_scan ctx (S attempts) n'
  end.

Definition sim_select_task_round_robin (ctx : sim_context_t) : sim_context_t * Z :=
  rr_scan ctx 0 8.

(** [sim_select_task_htas]: the score of one candidate, as the loop body
    computes it. *)
Definition htas_score (ctx : sim_context_t) (cpu_id : Z) (task : sim_task_t) : Z :=
  let cpu_type := type (cpu_at cpu_id) in
  let cpu_numa := numa_node (cpu_at cpu_id) in
  let score := base_priority task in
  let score :=
    match preferred_type task with
    | CPU_TYPE_PCORE =>
        score + (if decide (cpu_type = CPU_TYPE_PCORE) then 12 else -8)
    | CPU_TYPE_ECORE =>
        score + (if decide (cpu_type = CPU_TYPE_ECORE) then 12 else -6)
    end in
  let score :=
    if preferred_numa task <? NUM_NUMA_NODES
    then score + (if cpu_numa =? preferred_numa task then 8 else -6)
    else score in
  let score :=
    if decide (intent task = PROFILE_LOW_LATENCY) then
      let score := score + 15 in
      if 0 <? waiting_since_ready task then score + 15 else score
    else score in
  let age := u32 (tick ctx - last_scheduled_tick task) in
  let score := score + age / 4 in
  score + priority_boost_aging task.

(** One iteration of the selection loop; the loop state is
    [(best_idx, best_score)]. *)
Definition best_step (score_of : sim_task_t -> Z) (ctx : sim_context_t)
    (i : nat) (b : Z * Z) : Z * Z :=
  let task := task_at ctx i in
  if negb (ready task) || selected_this_tick task then b
  else
    let score := score_of task in
    if snd b <? score then (Z.of_nat i, score) else b.

Definition mark_selected (ctx : sim_context_t) (best_idx : Z) : sim_context_t * Z :=
  if 0 <=? best_idx
  then (set_tasks (alter (set_selected_this_tick true) (Z.to_nat best_idx) (tasks ctx)) ctx,
        best_idx)
  else (ctx, best_idx).

Definition sim_select_task_htas (ctx : sim_context_t) (cpu_id : Z)
  : sim_context_t * Z :=
  let b := for_range 0 8 (best_step (htas_score ctx cpu_id) ctx) (-1, -1000) in
  mark_selected ctx (fst b).

(** [sim_select_task_dynamic] *)
Definition dynamic_score (ctx : sim_context_t) (cpu_id : Z) (task : sim_task_t) : Z :=
  let cpu_type := type (cpu_at cpu_id) in
  let cpu_numa := numa_node (cpu_at cpu_id) in
  let score := base_priority task in
  let score :=
    if DYNAMIC_LOAD_THRESHOLD <? recent_cpu_ticks task
    then score + (if decide (cpu_type = CPU_TYPE_PCORE) then 12 else -8)
    else score + (if decide (cpu_type = CPU_TYPE_ECORE) then 12 else -6) in
  let score := score + (if cpu_numa =? inferred_numa_node task then 8 else -6) in
  let score := if 0 <? waiting_since_ready task then score + 5 else score in
  let age := u32 (tick ctx - last_scheduled_tick task) in
  let score := score + age / 4 in
  score + priority_boost_aging task.

Definition sim_select_task_dynamic (ctx : sim_context_t) (cpu_id : Z)
  : sim_context_t * Z :=
  let b := for_range 0 8 (best_step (dynamic_score ctx cpu_id) ctx) (-1, -1000) in
  mark_selected ctx (fst b).

(** [sim_update_task_stats] *)
Definition sim_update_task_stats (ctx : sim_context_t)
    (stats : Stats.scheduler_stats_t) (cpu_id task_index : Z)
  : sim_context_t * Stats.scheduler_stats_t :=
  let cpu_type := type (cpu_at cpu_id) in
  let cpu_numa := numa_node (cpu_at cpu_id) in
  let on_pcore := bool_decide (cpu_type = CPU_TYPE_PCORE) in
  if task_index <? 0 then
    (ctx,
     Stats.set_total_power_consumption
       (u64 (Stats.total_power_consumption stats + (if on_pcore then 30 else 20)))
       stats)
  else
    let ti := Z.to_nat task_index in
    let task := task_at ctx ti in
    let task := set_wait_time 0 task in
    let task := set_priority_boost_aging 0 task in
    let task := set_scheduled_this_tick true task in
    let task := set_recent_cpu_ticks (u32 (recent_cpu_ticks task + 1)) task in
    let task :=
      if negb (inferred_numa_locked task) && (cpu_numa =? preferred_numa task)
      then set_inferred_numa_locked true
             (set_inferred_numa_node (preferred_numa task) task)
      else task in
    let switched := negb (last_at ctx cpu_id =? task_index) in
    let stats :=
      if switched then
        let stats :=
          Stats.set_context_switches (u64 (Stats.context_switches stats + 1)) stats in
        Stats.set_intent_stats
          (alter (fun s => Stats.set_switches (u64 (Stats.switches s + 1)) s)
                 (intent_index (intent task)) (Stats.intent_stats stats))
          stats
      else stats in
    let task := if switched then set_switches (u64 (switches task + 1)) task else task in
    let last :=
      if switched then <[Z.to_nat cpu_id := task_index]> (last_task_on_cpu ctx)
      else last_task_on_cpu ctx in
    let stats :=
      Stats.set_total_power_consumption
        (u64 (Stats.total_power_consumption stats + (if on_pcore then 120 else 70)))
        stats in
    let stats :=
      if on_pcore
      then Stats.set_pcore_time_us (u64 (Stats.pcore_time_us stats + SIM_TICK_US)) stats
      else Stats.set_ecore_time_us (u64 (Stats.ecore_time_us stats + SIM_TICK_US)) stats in
    let task := set_runtime_us (u64 (runtime_us task + SIM_TICK_US)) task in
    let stats :=
      Stats.set_intent_stats
        (alter (fun s => Stats.set_runtime_us (u64 (Stats.runtime_us s + SIM_TICK_US)) s)
               (intent_index (intent task)) (Stats.intent_stats stats))
        stats in
    let penalised :=
      (preferred_numa task <? NUM_NUMA_NODES)
      && negb (preferred_numa task =? cpu_numa) in
    let stats :=
      if penalised
      then Stats.set_numa_penalties (u64 (Stats.numa_penalties stats + 1)) stats
      else stats in
    let task :=
      if penalised then set_numa_penalties (u64 (numa_penalties task + 1)) task
      else task in
    let sampled :=
      bool_decide (intent task = PROFILE_LOW_LATENCY)
      && (work_remaining task =? work_ms task) in
    let jitter_us := u32 (waiting_since_ready task * SIM_TICK_US) in
    let lat_total :=
      if sampled then u64 (latency_total_us ctx + jitter_us)
      else latency_total_us ctx in
    let lat_samples :=
      if sampled then u32 (latency_samples ctx + 1) else latency_samples ctx in
    let lat_max :=
      if sampled && (latency_max_us ctx <? jitter_us) then jitter_us
      else latency_max_us ctx in
    let task :=
      if 0 <? work_remaining task then
        let task := set_work_remaining (u32 (work_remaining task - 1)) task in
        if work_remaining task =? 0
        then set_ready false (set_time_since_release 0 task)
        else task
      else task in
    let task := set_last_scheduled_tick (tick ctx) task in
    (mk_sim_context (<[ti := task]> (tasks ctx)) last lat_total lat_samples
                    lat_max (tick ctx) (rr_index ctx) (dynamic_stats ctx),
     stats).

(** [sim_finalize_tick]: the loop body on [ctx->tasks[i]]. *)
Definition finalize_task (task : sim_task_t) : sim_task_t :=
  let task :=
    if decide (intent task = PROFILE_LOW_LATENCY) then
      if (0 <? work_remaining task) && negb (scheduled_this_tick task)
      then set_waiting_since_ready (u32 (waiting_since_ready task + 1)) task
      else if work_remaining task =? 0 then set_waiting_since_ready 0 task
      else task
    else task in
  let task :=
    if ready task && negb (scheduled_this_tick task) then
      let task := set_wait_time (u32 (wait_time task + 1)) task in
      if AGING_THRESHOLD <? wait_time task
      then set_priority_boost_aging AGING_PRIORITY_BOOST task
      else task
    else task in
  let task :=
    if 0 <? recent_cpu_ticks task
    then set_recent_cpu_ticks (u32 (recent_cpu_ticks task - 1)) task
    else task in
  let task := set_selected_this_tick false task in
  set_scheduled_this_tick false task.

Definition sim_finalize_tick (ctx : sim_context_t) : sim_context_t :=
  set_tasks (for_range 0 8 (fun i l => alter finalize_task i l) (tasks ctx)) ctx.

(** [simulate_workload]: the policy call for one CPU. *)
Definition select_task (ty : scheduler_type_t) (cpu : nat) (ctx : sim_context_t)
  : sim_context_t * Z :=
  match ty with
  | SCHED_HTAS => sim_select_task_htas ctx (Z.of_nat cpu)
  | SCHED_BASELINE => sim_select_task_round_robin ctx
  | SCHED_DYNAMIC => sim_select_task_dynamic ctx (Z.of_nat cpu)
  end.

(** The first inner loop fills [assigned[NUM_CPUS]]; every slot is written
    before it is read. *)
Definition assign_cpus (ty : scheduler_type_t) (ctx : sim_context_t)
  : sim_context_t * list Z :=
  for_range 0 4
    (fun cpu (s : sim_context_t * list Z) =>
       let '(c, task_index) := select_task ty cpu (fst s) in
       (c, <[cpu := task_index]> (snd s)))
    (ctx, replicate 4 0).

(** The second inner loop. *)
Definition update_cpus (assigned : list Z)
    (s : sim_context_t * Stats.scheduler_stats_t)
  : sim_context_t * Stats.scheduler_stats_t :=
  for_range 0 4
    (fun cpu s => sim_update_task_stats (fst s) (snd s) (Z.of_nat cpu)
                                        (default 0 (assigned !! cpu)))
    s.

(** One iteration of the tick loop, without the [++ctx.tick]. *)
Definition sim_tick_body (ty : scheduler_type_t)
    (s : sim_context_t * Stats.scheduler_stats_t)
  : sim_context_t * Stats.scheduler_stats_t :=
  let stats := Stats.set_total_ticks (u64 (Stats.total_ticks (snd s) + 1)) (snd s) in
  let ctx := sim_prepare_tick (fst s) in
  let '(ctx, assigned) := assign_cpus ty ctx in
  let '(ctx, stats) := update_cpus assigned (ctx, stats) in
  (sim_finalize_tick ctx, stats).

Definition next_tick (s : sim_context_t * Stats.scheduler_stats_t)
  : sim_context_t * Stats.scheduler_stats_t :=
  (set_tick (u32 (tick (fst s) + 1)) (fst s), snd s).

(** [for (ctx.tick = 0; ctx.tick < duration_ms; ++ctx.tick)]: [fuel] bounds
    the number of iterations. *)
Fixpoint sim_loop (ty : scheduler_type_t) (duration_ms : Z) (fuel : nat)
    (s : sim_context_t * Stats.scheduler_stats_t)
  : option (sim_context_t * Stats.scheduler_stats_t) :=
  if tick (fst s) <? duration_ms then
    match fuel with
    | O => None
    | S fuel' => sim_loop ty duration_ms fuel' (next_tick (sim_tick_body ty s))
    end
  else Some s.

(** What follows the loop. *)
Definition write_latency (s : sim_context_t * Stats.scheduler_stats_t)
  : Stats.scheduler_stats_t :=
  let '(ctx, stats) := s in
  let avg :=
    if 0 <? latency_samples ctx
    then latency_total_us ctx / latency_samples ctx
    else 0 in
  let ll := intent_index PROFILE_LOW_LATENCY in
  let stats :=
    Stats.set_intent_stats
      (alter (Stats.set_avg_latency_us avg) ll (Stats.intent_stats stats)) stats in
  Stats.set_intent_stats
    (alter (Stats.set_max_jitter_us (latency_max_us ctx)) ll (Stats.intent_stats stats))
    stats.

(** [simulate_workload].  [ctx0] is what the stack slot of [ctx] holds on
    entry and [stats0] what [*stats] holds; [sim_init_tasks] and the
    [memset] overwrite both. *)
Definition simulate_workload (duration_ms : Z) (ty : scheduler_type_t)
    (ctx0 : sim_context_t) (stats0 : Stats.scheduler_stats_t) (fuel : nat)
  : option Stats.scheduler_stats_t :=
  let ctx := sim_init_tasks ctx0 in
  let stats := Stats.stats_zero in
  let ctx := set_tick 0 ctx in
  write_latency <$> sim_loop ty (u32 duration_ms) fuel (ctx, stats).

(** The state at the head of the loop after [n] iterations, and the
    [assigned] arrays of those iterations (oldest first). *)
Definition sim_start : sim_context_t * Stats.scheduler_stats_t :=
  (set_tick 0 (sim_init_tasks sim_context_zero), Stats.stats_zero).

Fixpoint sim_run (ty : scheduler_type_t) (n : nat)
  : sim_context_t * Stats.scheduler_stats_t :=
  match n with
  | O => sim_start
  | S n' => next_tick (sim_tick_body ty (sim_run ty n'))
  end.

Definition assigned_at (ty : scheduler_type_t) (n : nat) : list Z :=
  snd (assign_cpus ty (sim_prepare_tick (fst (sim_run ty n)))).

Definition sim_trace (ty : scheduler_type_t) (n : nat) : list (list Z) :=
  map (assigned_at ty) (seq 0 n).

End Sim.

(** * kernel/sched/htas.c: the scheduler's entry points *)

Module HtasRun.
Import HtasH Stats Htas.

Definition set_wait_time (v : Z) (i : htas_task_info_t) : htas_task_info_t :=
  mk_htas_task_info (profile i) (cpu_affinity_mask i) (priority_boost i)
    (preferred_numa_node i) v (priority_boost_aging i) (total_runtime_us i)
    (total_switches i) (Htas.numa_penalties i).
Definition set_priority_boost_aging (v : Z) (i : htas_task_info_t)
  : htas_task_info_t :=
  mk_htas_task_info (profile i) (cpu_affinity_mask i) (priority_boost i)
    (preferred_numa_node i) (wait_time i) v (total_runtime_us i)
    (total_switches i) (Htas.numa_penalties i).
Definition set_total_switches (v : Z) (i : htas_task_info_t) : htas_task_info_t :=
  mk_htas_task_info (profile i) (cpu_affinity_mask i) (priority_boost i)
    (preferred_numa_node i) (wait_time i) (priority_boost_aging i)
    (total_runtime_us i) v (Htas.numa_penalties i).
Definition set_info_numa_penalties (v : Z) (i : htas_task_info_t)
  : htas_task_info_t :=
  mk_htas_task_info (profile i) (cpu_affinity_mask i) (priority_boost i)
    (preferred_numa_node i) (wait_time i) (priority_boost_aging i)
    (total_runtime_us i) (total_switches i) v.

(** A store through [proc->htas_info]. *)
Definition set_htas_info (v : htas_task_info_t) (p : process_t) : process_t :=
  mk_process (pid p) (state p) (Some v).

(** The file's globals, the process table and the static cursor of
    [baseline_select_next]. *)
Record htas_state := mk_htas_state {
  g_current_scheduler : scheduler_type_t;
  g_current_cpu : Z;                       (* uint8_t *)
  g_tick_counter : Z;                      (* uint64_t *)
  g_baseline_stats : scheduler_stats_t;
  g_htas_stats : scheduler_stats_t;
  procs : list process_t;
  rr_cursor : Z
}.

Definition set_g_current_scheduler (v : scheduler_type_t) (s : htas_state) :=
  mk_htas_state v (g_current_cpu s) (g_tick_counter s) (g_baseline_stats s)
    (g_htas_stats s) (procs s) (rr_cursor s).
Definition set_g_current_cpu (v : Z) (s : htas_state) :=
  mk_htas_state (g_current_scheduler s) v (g_tick_counter s) (g_baseline_stats s)
    (g_htas_stats s) (procs s) (rr_cursor s).
Definition set_g_tick_counter (v : Z) (s : htas_state) :=
  mk_htas_state (g_current_scheduler s) (g_current_cpu s) v (g_baseline_stats s)
    (g_htas_stats s) (procs s) (rr_cursor s).
Definition set_g_baseline_stats (v : scheduler_stats_t) (s : htas_state) :=
  mk_htas_state (g_current_scheduler s) (g_current_cpu s) (g_tick_counter s) v
    (g_htas_stats s) (procs s) (rr_cursor s).
Definition set_g_htas_stats (v : scheduler_stats_t) (s : htas_state) :=
  mk_htas_state (g_current_scheduler s) (g_current_cpu s) (g_tick_counter s)
    (g_baseline_stats s) v (procs s) (rr_cursor s).
Definition set_procs (v : list process_t) (s : htas_state) :=
  mk_htas_state (g_current_scheduler s) (g_current_cpu s) (g_tick_counter s)
    (g_baseline_stats s) (g_htas_stats s) v (rr_cursor s).
Definition set_rr_cursor (v : Z) (s : htas_state) :=
  mk_htas_state (g_current_scheduler s) (g_current_cpu s) (g_tick_counter s)
    (g_baseline_stats s) (g_htas_stats s) (procs s) v.

(** The globals as the loader leaves them, over a process table. *)
Definition htas_boot (table : list process_t) : htas_state :=
  mk_htas_state SCHED_BASELINE 0 0 stats_zero stats_zero table (-1).

(** [active_stats] returns a pointer; the pair below reads and writes
    through it. *)
Definition active_stats (s : htas_state) : scheduler_stats_t :=
  if decide (g_current_scheduler s = SCHED_BASELINE)
  then g_baseline_stats s else g_htas_stats s.

Definition set_active_stats (v : scheduler_stats_t) (s : htas_state) : htas_state :=
  if decide (g_current_scheduler s = SCHED_BASELINE)
  then set_g_baseline_stats v s else set_g_htas_stats v s.

(** [htas_init], [htas_set_scheduler], [htas_get_scheduler],
    [htas_get_stats], [htas_reset_stats] (their output is left out). *)
Definition htas_init (s : htas_state) : htas_state :=
  set_g_current_scheduler SCHED_BASELINE
    (set_g_htas_stats stats_zero (set_g_baseline_stats stats_zero s)).

Definition htas_set_scheduler (ty : scheduler_type_t) (s : htas_state) : htas_state :=
  set_g_current_scheduler ty s.

Definition htas_get_scheduler (s : htas_state) : scheduler_type_t :=
  g_current_scheduler s.

Definition htas_get_stats (s : htas_state) : scheduler_stats_t :=
  if decide (g_current_scheduler s = SCHED_BASELINE)
  then g_baseline_stats s else g_htas_stats s.

Definition htas_reset_stats (s : htas_state) : htas_state :=
  set_g_htas_stats stats_zero (set_g_baseline_stats stats_zero s).

(** [htas_simulate_memory_access]; [proc] is the process pointer, [None]
    for [NULL]. *)
Definition htas_simulate_memory_access (proc : option nat) (addr : Z)
    (s : htas_state) : htas_state :=
  match proc with
  | None => s
  | Some i =>
      match htas_info (proc_at (procs s) i) with
      | None => s
      | Some info =>
          let memory_numa := htas_get_numa_node_for_address addr in
          let cpu_numa := htas_get_numa_node_for_cpu (g_current_cpu s) in
          if negb (memory_numa =? cpu_numa) then
            let info1 :=
              set_info_numa_penalties (u64 (Htas.numa_penalties info + 1)) info in
            let s1 := set_procs (alter (set_htas_info info1) i (procs s)) s in
            let stats := if decide (g_current_scheduler s1 = SCHED_BASELINE)
                         then g_baseline_stats s1 else g_htas_stats s1 in
            let stats1 :=
              set_numa_penalties (u64 (Stats.numa_penalties stats + 1)) stats in
            if decide (g_current_scheduler s1 = SCHED_BASELINE)
            then set_g_baseline_stats stats1 s1 else set_g_htas_stats stats1 s1
          else s
      end
  end.

Section Pick.
(** [MAX_PROCESSES] and what [process_current] returns come from
    kernel/process.h and are parameters. *)
Variable MAX_PROCESSES : nat.
Variable process_current : option nat.

(** [htas_select_next]: the [int priority] a process gets on [cpu_id]. *)
Definition select_priority (proc : process_t) (cpu_id : Z) : Z :=
  match htas_info proc with
  | None => 0
  | Some info =>
      let p1 := 0 + priority_boost info in
      let p2 := p1 + priority_boost_aging info in
      if preferred_numa_node info =? htas_get_numa_node_for_cpu cpu_id
      then p2 + 5 else p2
  end.

(** The loop body; the state is [(best, best_priority)]. *)
Definition select_body (table : list process_t) (cpu_id : Z) (i : nat)
    (b : option nat * Z) : option nat * Z :=
  let proc := proc_at table i in
  if negb (bool_decide (state proc = PROC_READY))
     && negb (bool_decide (state proc = PROC_RUNNING))
  then b
  else if negb (htas_can_run_on_cpu proc cpu_id) then b
  else
    let priority := select_priority proc cpu_id in
    if (snd b <? priority) || bool_decide (fst b = None)
    then (Some i, priority) else b.

Definition htas_select_next (table : list process_t) (cpu_id : Z) : option nat :=
  fst (for_range 0 MAX_PROCESSES (select_body table cpu_id) (None, -1000)).

(** The aging loop of [htas_pick_next_process] at slot [i]. *)
Definition age_proc (next : nat) (i : nat) (table : list process_t)
  : list process_t :=
  let proc := proc_at table i in
  if bool_decide (state proc = PROC_READY) && negb (Nat.eqb i next) then
    match htas_info proc with
    | Some info =>
        let info1 := set_wait_time (u32 (wait_time info + 1)) info in
        let info2 := if AGING_THRESHOLD <? wait_time info1
                     then set_priority_boost_aging AGING_PRIORITY_BOOST info1
                     else info1 in
        alter (set_htas_info info2) i table
    | None => table
    end
  else table.

(** [htas_pick_next_process]: the new globals and the process returned. *)
Definition htas_pick_next_process (current : option nat) (s : htas_state)
  : htas_state * option nat :=
  let s1 := set_g_tick_counter (u64 (g_tick_counter s + 1)) s in
  let stats := active_stats s1 in
  let s2 := set_active_stats (set_total_ticks (u64 (total_ticks stats + 1)) stats) s1 in
  let '(next, s3) :=
    if decide (g_current_scheduler s2 = SCHED_BASELINE)
    then
      let '(n, rr) := baseline_select_next MAX_PROCESSES (procs s2)
                        process_current (rr_cursor s2) in
      (n, set_rr_cursor rr s2)
    else (htas_select_next (procs s2) (g_current_cpu s2), s2) in
  match next with
  | None => (s3, current)
  | Some n =>
      if decide (g_current_scheduler s3 = SCHED_HTAS)
      then (set_procs (for_range 0 MAX_PROCESSES (age_proc n) (procs s3)) s3, Some n)
      else (s3, Some n)
  end.

End Pick.

(** [htas_record_switch] *)
Definition htas_record_switch (current next : option nat) (s : htas_state)
  : htas_state :=
  match next with
  | None => s
  | Some n =>
      if decide (next = current) then s
      else
        let stats0 := active_stats s in
        let stats1 :=
          set_context_switches (u64 (context_switches stats0 + 1)) stats0 in
        let '(table, stats2) :=
          match htas_info (proc_at (procs s) n) with
          | Some info =>
              let info1 := set_wait_time 0 info in
              let info2 := set_priority_boost_aging 0 info1 in
              let info3 :=
                set_total_switches (u64 (total_switches info2 + 1)) info2 in
              let k := intent_index (intent (profile info3)) in
              (alter (set_htas_info info3) n (procs s),
               set_intent_stats
                 (alter (fun e => set_switches (u64 (switches e + 1)) e) k
                        (intent_stats stats1))
                 stats1)
          | None => (procs s, stats1)
          end in
        let stats3 :=
          if decide (htas_get_cpu_type (g_current_cpu s) = CPU_TYPE_PCORE)
          then
            let a := set_total_power_consumption
                       (u64 (total_power_consumption stats2 + 100)) stats2 in
            set_pcore_time_us (u64 (pcore_time_us a + 10)) a
          else
            let a := set_total_power_consumption
                       (u64 (total_power_consumption stats2 + 40)) stats2 in
            set_ecore_time_us (u64 (ecore_time_us a + 10)) a in
        set_g_current_cpu (u8 (Z.rem (g_current_cpu s + 1) NUM_CPUS))
          (set_active_stats stats3 (set_procs table s))
  end.

End HtasRun.
(** * Proofs *)

(** ** Machine integers and loops *)

Lemma u16_range x : 0 <= u16 x < 65536.
Proof. unfold u16. change (2 ^ 16) with 65536. apply Z.mod_pos_bound. lia. Qed.

Lemma u16_small x : 0 <= x < 65536 -> u16 x = x.
Proof. intros H. unfold u16. change (2 ^ 16) with 65536. apply Z.mod_small. lia. Qed.

Lemma u8_small x : 0 <= x < 256 -> u8 x = x.
Proof. intros H. unfold u8. change (2 ^ 8) with 256. apply Z.mod_small. lia. Qed.

Lemma u32_small x : 0 <= x < 4294967296 -> u32 x = x.
Proof. intros H. unfold u32. change (2 ^ 32) with 4294967296. apply Z.mod_small. lia. Qed.

Lemma u32_range x : 0 <= u32 x < 4294967296.
Proof. unfold u32. change (2 ^ 32) with 4294967296. apply Z.mod_pos_bound. lia. Qed.

Lemma u64_small x : 0 <= x < 18446744073709551616 -> u64 x = x.
Proof.
  intros H. unfold u64. change (2 ^ 64) with 18446744073709551616.
  apply Z.mod_small. lia.
Qed.

Lemma for_range_0 {S : Type} lo (body : nat -> S -> S) s :
  for_range lo 0 body s = s.
Proof. reflexivity. Qed.

Lemma for_range_S_l {S : Type} lo n (body : nat -> S -> S) s :
  for_range lo (Datatypes.S n) body s = for_range (Datatypes.S lo) n body (body lo s).
Proof. reflexivity. Qed.

Lemma for_range_S_r {S : Type} lo n (body : nat -> S -> S) s :
  for_range lo (Datatypes.S n) body s = body (lo + n)%nat (for_range lo n body s).
Proof.
  unfold for_range. rewrite seq_S, foldl_app. reflexivity.
Qed.

(** A loop whose [i]-th iteration only rewrites slot [i] of an array, as a
    function of that slot, acts slot-wise. *)
Lemma for_range_alter_lookup {A : Type} (f : nat -> A -> A) lo n (l : list A) j :
  for_range lo n (fun i acc => alter (f i) i acc) l !! j =
  if decide (lo <= j < lo + n)%nat then f j <$> l !! j else l !! j.
Proof.
  revert lo l. induction n as [|n IH]; intros lo l.
  - rewrite for_range_0. case_decide; [lia | done].
  - rewrite for_range_S_l, IH.
    destruct (decide (j = lo)) as [->|Hne].
    + rewrite list_lookup_alter_eq.
      repeat case_decide; try lia; done.
    + rewrite list_lookup_alter_ne by done.
      repeat case_decide; try lia; done.
Qed.

Lemma for_range_alter_length {A : Type} (f : nat -> A -> A) lo n (l : list A) :
  length (for_range lo n (fun i acc => alter (f i) i acc) l) = length l.
Proof.
  revert lo l. induction n as [|n IH]; intros lo l; [done|].
  rewrite for_range_S_l, IH. apply length_alter.
Qed.


Lemma for_range_ext {S : Type} lo n (f g : nat -> S -> S) s :
  (forall i x, (lo <= i < lo + n)%nat -> f i x = g i x) ->
  for_range lo n f s = for_range lo n g s.
Proof.
  revert lo s. induction n as [|n IH]; intros lo s Hfg; [done|].
  rewrite !for_range_S_l, Hfg by lia. apply IH. intros; apply Hfg; lia.
Qed.

(** An invariant carried through a counted loop. *)
Lemma for_range_ind {S : Type} (P : nat -> S -> Prop) lo n (body : nat -> S -> S) s :
  P lo s ->
  (forall i x, (lo <= i < lo + n)%nat -> P i x -> P (Datatypes.S i) (body i x)) ->
  P (lo + n)%nat (for_range lo n body s).
Proof.
  revert lo s. induction n as [|n IH]; intros lo s H0 Hstep.
  - rewrite Nat.add_0_r. exact H0.
  - rewrite for_range_S_l. replace (lo + Datatypes.S n)%nat with (Datatypes.S lo + n)%nat by lia.
    apply IH.
    + apply Hstep; [lia | exact H0].
    + intros i x Hi. apply Hstep. lia.
Qed.

(** * Kernel thread scheduler: [select_next] and [sched_set_priority] *)

Module KSchedSpec.
Import KSched.

Lemma th_at_lookup l (i : nat) t :
  l !! i = Some t -> th_at l (Z.of_nat i) = t.
Proof.
  intros H. unfold th_at. destruct (Z.ltb_spec (Z.of_nat i) 0); [lia|].
  rewrite Nat2Z.id, H. reflexivity.
Qed.

Lemma th_at_Z_lookup l (i : Z) t :
  0 <= i -> l !! Z.to_nat i = Some t -> th_at l i = t.
Proof.
  intros Hi H. rewrite <- (Z2Nat.id i) by lia. by apply th_at_lookup.
Qed.

Lemma th_at_not_unused l (i : Z) :
  state (th_at l i) <> T_UNUSED -> 0 <= i /\ l !! Z.to_nat i = Some (th_at l i).
Proof.
  unfold th_at. destruct (Z.ltb_spec i 0); [done|].
  destruct (l !! Z.to_nat i); [done|]. simpl. done.
Qed.

(** A slot of [th] that [select_next] looks at. *)
Definition ready_slot (l : list kthread) (j : Z) : Prop :=
  1 <= j <= 15 /\ state (th_at l j) = T_READY.

(** [i] is no worse a choice than [j]: lower priority number, then greater
    [wait_ticks], then lower slot index. *)
Definition beats (l : list kthread) (i j : Z) : Prop :=
  priority (th_at l i) < priority (th_at l j)
  \/ (priority (th_at l i) = priority (th_at l j)
      /\ (wait_ticks (th_at l j) < wait_ticks (th_at l i)
          \/ (wait_ticks (th_at l j) = wait_ticks (th_at l i) /\ i <= j))).

(** The loop invariant of [select_next] after the slots below [k]. *)
Definition select_inv (l : list kthread) (k : nat) (b : Z * Z * Z) : Prop :=
  let '(best, best_prio, best_wait) := b in
  (best = -1 /\ forall j, 1 <= j < Z.of_nat k -> state (th_at l j) <> T_READY)
  \/ (1 <= best < Z.of_nat k /\ state (th_at l best) = T_READY
      /\ best_prio = priority (th_at l best)
      /\ best_wait = wait_ticks (th_at l best)
      /\ forall j, 1 <= j < Z.of_nat k -> state (th_at l j) = T_READY ->
                   beats l best j).

Lemma select_step_inv l i b :
  (1 <= i)%nat -> select_inv l i b -> select_inv l (S i) (select_step l i b).
Proof.
  intros Hi. destruct b as [[best bp] bw]. unfold select_inv, select_step.
  unfold is_ready.
  destruct (bool_decide_reflect (state (th_at l (Z.of_nat i)) = T_READY)) as [Hr|Hr].
  - intros [[-> Hnone]|(Hb & Hbr & -> & -> & Hall)].
    + simpl. right. repeat split; try lia; try done.
      intros j Hj Hjr. destruct (decide (j = Z.of_nat i)) as [->|Hne].
      * unfold beats. lia.
      * exfalso. apply (Hnone j); [lia | done].
    + destruct (Z.ltb_spec best 0); [lia|]. simpl.
      destruct (Z.ltb_spec (priority (th_at l (Z.of_nat i))) (priority (th_at l best))).
      { simpl. right. repeat split; try lia; try done.
        intros j Hj Hjr. destruct (decide (j = Z.of_nat i)) as [->|Hne].
        - unfold beats; lia.
        - specialize (Hall j ltac:(lia) Hjr). unfold beats in *. lia. }
      simpl.
      destruct (Z.eqb_spec (priority (th_at l (Z.of_nat i))) (priority (th_at l best)));
        destruct (Z.ltb_spec (wait_ticks (th_at l best)) (wait_ticks (th_at l (Z.of_nat i))));
        simpl.
      { right. repeat split; try lia; try done.
        intros j Hj Hjr. destruct (decide (j = Z.of_nat i)) as [->|Hne].
        - unfold beats; lia.
        - specialize (Hall j ltac:(lia) Hjr). unfold beats in *. lia. }
      all: right; repeat split; try lia; try done;
        intros j Hj Hjr; destruct (decide (j = Z.of_nat i)) as [->|Hne];
        [unfold beats; lia | apply Hall; [lia | done]].
  - intros [[-> Hnone]|(Hb & Hbr & -> & -> & Hall)].
    + left. split; [done|]. intros j Hj.
      destruct (decide (j = Z.of_nat i)) as [->|Hne]; [done | apply Hnone; lia].
    + right. repeat split; try lia; try done.
      intros j Hj Hjr. destruct (decide (j = Z.of_nat i)) as [->|Hne]; [done|].
      apply Hall; [lia | done].
Qed.

Lemma select_next_inv l :
  select_inv l 16 (for_range 1 15 (select_step l) (-1, SCHED_PRIORITY_LEVELS, -1)).
Proof.
  change 16%nat with (1 + 15)%nat.
  apply (for_range_ind (select_inv l)).
  - left. split; [done|]. intros j Hj. lia.
  - intros i x Hi. apply select_step_inv. lia.
Qed.

(** C8.  Among the READY threads of slots 1..15, [select_next] returns the
    one with the lowest priority number, ties broken by greatest
    [wait_ticks] and then by lowest slot index; it returns -1 exactly when
    no thread of slots 1..15 is READY. *)
Theorem select_next_spec (l : list kthread) :
  ((exists j, ready_slot l j) ->
     ready_slot l (select_next l)
     /\ forall j, ready_slot l j -> beats l (select_next l) j)
  /\ (select_next l = -1 <-> ~ exists j, ready_slot l j).
Proof.
  pose proof (select_next_inv l) as H. unfold select_next.
  destruct (for_range 1 15 (select_step l) (-1, SCHED_PRIORITY_LEVELS, -1))
    as [[best bp] bw]. simpl in *.
  destruct H as [[-> Hnone]|(Hb & Hbr & _ & _ & Hall)].
  - split.
    + intros [j [Hj Hr]]. exfalso. apply (Hnone j); [lia | done].
    + split; [|done]. intros _ [j [Hj Hr]]. apply (Hnone j); [lia | done].
  - split.
    + intros _. split; [split; [lia | done]|].
      intros j [Hj Hr]. apply Hall; [lia | done].
    + split; [lia|]. intros Hno. exfalso. apply Hno. exists best.
      split; [lia | done].
Qed.

Definition two_ready : list kthread :=
  [ mk_kthread 0 T_RUNNING "idle" 3 18 0;
    mk_kthread 4096 T_READY "a" 1 6 3;
    mk_kthread 8192 T_READY "b" 1 6 7;
    mk_kthread 12288 T_READY "c" 2 10 9 ] ++ replicate 12 kthread_zero.

Lemma select_next_spec_witness :
  ready_slot two_ready 2 /\ select_next two_ready = 2 /\ beats two_ready 2 1.
Proof.
  assert (Hr : ready_slot two_ready 2) by (split; [lia | reflexivity]).
  split; [exact Hr|]. split; [reflexivity|].
  destruct (select_next_spec two_ready) as [Hsel _].
  destruct (Hsel (ex_intro _ 2 Hr)) as [_ Hall].
  apply (Hall 1). split; [lia | reflexivity].
Defined.

(** C10.  [sched_set_priority] fails with -1 and changes nothing when [pid]
    is outside 0..15, when [priority] is outside 0..3 or when the slot is
    UNUSED; otherwise it stores the priority, clears [wait_ticks], refills
    the slice with that priority's quantum and returns 0. *)
Theorem sched_set_priority_spec (pid prio : Z) (s : sched_state) :
  ((pid < 0 \/ 16 <= pid \/ prio < 0 \/ 4 <= prio
    \/ state (th_at (th s) pid) = T_UNUSED) ->
     sched_set_priority pid prio s = (s, -1))
  /\ (0 <= pid < 16 -> 0 <= prio < 4 -> state (th_at (th s) pid) <> T_UNUSED ->
      exists t, th s !! Z.to_nat pid = Some t
        /\ sched_set_priority pid prio s =
           (mk_sched (<[Z.to_nat pid :=
                          mk_kthread (esp t) (state t) (name t) prio
                                     (priority_quantum prio) 0]> (th s))
                     (current s), 0)).
Proof.
  unfold sched_set_priority, MAX_THREADS, SCHED_PRIORITY_REALTIME,
    SCHED_PRIORITY_LEVELS. split.
  - intros H.
    destruct (Z.ltb_spec pid 0); [done|].
    destruct (Z.leb_spec 16 pid); [done|].
    destruct (Z.ltb_spec prio 0); [done|].
    destruct (Z.leb_spec 4 prio); [done|]. simpl.
    rewrite bool_decide_eq_true_2; [done|].
    destruct H as [?|[?|[?|[?|?]]]]; (lia || done).
  - intros Hpid Hprio Hst.
    destruct (th_at_not_unused _ _ Hst) as [_ Hl].
    exists (th_at (th s) pid). split; [exact Hl|].
    destruct (Z.ltb_spec pid 0); [lia|].
    destruct (Z.leb_spec 16 pid); [lia|].
    destruct (Z.ltb_spec prio 0); [lia|].
    destruct (Z.leb_spec 4 prio); [lia|]. simpl.
    rewrite bool_decide_eq_false_2 by done.
    unfold refill_slice, MAX_THREADS.
    destruct (Z.ltb_spec pid 0); [lia|].
    destruct (Z.leb_spec 16 pid); [lia|]. simpl.
    f_equal. f_equal. apply list_eq. intros j.
    destruct (decide (j = Z.to_nat pid)) as [->|Hne].
    + rewrite !list_lookup_alter_eq, Hl.
      rewrite list_lookup_insert_eq by (by apply lookup_lt_Some in Hl).
      simpl. unfold refill_thread, set_slice_left, set_wait_ticks, set_priority.
      simpl. rewrite (u8_small prio) by lia.
      rewrite u8_small; [done|].
      unfold priority_quantum. destruct (Z.ltb_spec prio 0); [lia|].
      assert (Hc : prio = 0 \/ prio = 1 \/ prio = 2 \/ prio = 3) by lia.
      destruct Hc as [-> | [-> | [-> | ->]]]; simpl; lia.
    + rewrite !list_lookup_alter_ne by done.
      by rewrite list_lookup_insert_ne.
Qed.

Lemma sched_set_priority_spec_witness :
  sched_set_priority 16 1 sched_init = (sched_init, -1)
  /\ sched_set_priority 5 1 sched_init = (sched_init, -1)
  /\ snd (sched_set_priority 0 1 sched_init) = 0.
Proof.
  destruct (sched_set_priority_spec 16 1 sched_init) as [Hbad _].
  destruct (sched_set_priority_spec 5 1 sched_init) as [Hunused _].
  destruct (sched_set_priority_spec 0 1 sched_init) as [_ Hok].
  split; [apply Hbad; lia|].
  split; [apply Hunused; do 4 right; reflexivity|].
  destruct Hok as (t & _ & ->); [lia | lia | discriminate | reflexivity].
Defined.

End KSchedSpec.

(** * HTAS: affinity masks and the round-robin baseline *)

Module HtasSpec.
Import HtasH Htas.

Lemma intent_mask_nonzero i : intent_mask i <> 0.
Proof. destruct i; vm_compute; discriminate. Qed.

Lemma htas_calculate_affinity_null p :
  primary_data_region p = 0 -> htas_calculate_affinity p = intent_mask (intent p).
Proof.
  intros H. rewrite htas_calculate_affinity_equation_1.
  destruct (Z.eq_dec (primary_data_region p) 0); [|contradiction].
  apply htas_calculate_affinity_clause_1_equation_1.
Qed.

Lemma htas_calculate_affinity_region p :
  primary_data_region p <> 0 ->
  htas_calculate_affinity p =
    let m := Z.land (intent_mask (intent p))
               (numa_cpu_mask (htas_get_numa_node_for_address (primary_data_region p))) in
    if Z.eq_dec m 0 then intent_mask (intent p) else m.
Proof.
  intros H. rewrite htas_calculate_affinity_equation_1.
  destruct (Z.eq_dec (primary_data_region p) 0); [contradiction|].
  rewrite htas_calculate_affinity_clause_1_equation_2. cbv zeta.
  destruct (Z.eq_dec _ 0); [|done].
  by rewrite (htas_calculate_affinity_null (mk_task_profile (intent p) 0 0)).
Qed.

(** C2.  [htas_calculate_affinity] never returns an empty mask: without a
    data region it returns the intent's mask, with one it returns the
    intersection with the CPUs of the region's NUMA node and, when that
    intersection is empty, the intent's mask again.  Hence a successful
    [sys_sched_set_profile] leaves a non-zero [cpu_affinity_mask]. *)
Theorem affinity_mask_nonzero :
  (forall p, htas_calculate_affinity p <> 0)
  /\ (forall p, primary_data_region p <> 0 ->
        Z.land (intent_mask (intent p))
          (numa_cpu_mask (htas_get_numa_node_for_address (primary_data_region p))) = 0 ->
        htas_calculate_affinity p = intent_mask (intent p))
  /\ (forall process_find kmalloc_ok procs pid prof procs',
        sys_sched_set_profile process_find kmalloc_ok procs pid prof = (procs', 0) ->
        exists i, process_find procs pid = Some i
          /\ forall proc, procs' !! i = Some proc ->
               exists info, htas_info proc = Some info
                 /\ cpu_affinity_mask info = htas_calculate_affinity prof
                 /\ cpu_affinity_mask info <> 0).
Proof.
  assert (Hnz : forall p, htas_calculate_affinity p <> 0).
  { intros p. destruct (Z.eq_dec (primary_data_region p) 0) as [H0|H0].
    - rewrite htas_calculate_affinity_null by done. apply intent_mask_nonzero.
    - rewrite htas_calculate_affinity_region by done. cbv zeta.
      destruct (Z.eq_dec _ 0); [apply intent_mask_nonzero | done]. }
  split; [exact Hnz|]. split.
  - intros p Hp Hland. rewrite htas_calculate_affinity_region by done.
    cbv zeta. destruct (Z.eq_dec _ 0); [done | contradiction].
  - intros process_find kmalloc_ok procs pid prof procs'.
    unfold sys_sched_set_profile.
    destruct (process_find procs pid) as [i|]; [|intros [= _ ?]; lia].
    set (fresh := match htas_info (proc_at procs i) with
                  | Some info => Some info
                  | None => if kmalloc_ok then Some htas_task_info_zero else None
                  end).
    destruct fresh as [info|]; [|intros [= _ ?]; lia].
    intros [= <-]. exists i. split; [done|].
    intros proc. rewrite list_lookup_alter_eq.
    destruct (procs !! i) as [p0|]; [|discriminate].
    intros [= <-]. simpl. eexists. split; [reflexivity|]. simpl.
    split; [reflexivity | apply Hnz].
Qed.

Definition find_by_pid (procs : list process_t) (p : Z) : option nat :=
  fst <$> list_find (fun q => pid q = p) procs.

Lemma affinity_mask_nonzero_witness :
  htas_calculate_affinity (mk_task_profile PROFILE_EFFICIENCY 4096 64) = 12
  /\ exists procs',
       sys_sched_set_profile find_by_pid true
         [mk_process 7 PROC_READY None] 7
         (mk_task_profile PROFILE_EFFICIENCY 4096 64) = (procs', 0)
       /\ exists proc info, procs' !! 0%nat = Some proc
            /\ htas_info proc = Some info /\ cpu_affinity_mask info <> 0.
Proof.
  destruct affinity_mask_nonzero as (_ & Hfall & Hset).
  split.
  - rewrite (Hfall (mk_task_profile PROFILE_EFFICIENCY 4096 64)).
    + reflexivity.
    + simpl; lia.
    + reflexivity.
  - eexists. split; [reflexivity|].
    edestruct (Hset find_by_pid true [mk_process 7 PROC_READY None] 7
                 (mk_task_profile PROFILE_EFFICIENCY 4096 64))
      as (i & Hi & Hproc); [reflexivity|].
    injection Hi as <-.
    edestruct Hproc as (info & Hinfo & _ & Hnz); [reflexivity|].
    eexists _, info. split; [reflexivity|]. split; [exact Hinfo | exact Hnz].
Defined.

End HtasSpec.

Module BaselineSpec.
Import HtasH Htas.

Section Baseline.
Variable MAX_PROCESSES : nat.
Variable procs : list process_t.
Variable current : option nat.
Hypothesis MAX_pos : (0 < MAX_PROCESSES)%nat.

Definition runnable_at (j : nat) : Prop := runnable (proc_at procs j) = true.

(** A READY or RUNNING process of the table that is not the current one. *)
Definition other (j : nat) : Prop :=
  (j < MAX_PROCESSES)%nat /\ runnable_at j /\ Some j <> current.

Definition current_runnable : Prop :=
  exists c, current = Some c /\ runnable_at c.

(** The [d]-th slot visited by a scan that starts at [start]. *)
Definition slot (start : Z) (d : nat) : nat :=
  Z.to_nat ((start + Z.of_nat d) mod Z.of_nat MAX_PROCESSES).

(** Where the scan starts: one past the cursor, which is the current
    process's slot when it has one and the saved cursor otherwise. *)
Definition scan_start (rr_cursor : Z) : Z :=
  let cursor :=
    match current with
    | Some c => if decide (c < MAX_PROCESSES)%nat then Z.of_nat c else rr_cursor
    | None => rr_cursor
    end in
  if 0 <=? cursor then (cursor + 1) mod Z.of_nat MAX_PROCESSES else 0.

Lemma find_current_spec i n :
  find_current current i n =
  match current with
  | Some c => if decide (i <= c < i + n)%nat then Z.of_nat c else -1
  | None => -1
  end.
Proof.
  revert i. induction n as [|n IH]; intros i; simpl.
  - destruct current; [|done]. case_decide; [lia | done].
  - destruct (decide (Some i = current)) as [<-|Hne].
    + case_decide; [done | lia].
    + rewrite IH. destruct current as [c|]; [|done].
      assert (i <> c) by congruence.
      repeat case_decide; try lia; done.
Qed.

Lemma candidate_spec :
  current_candidate procs current = None <-> ~ current_runnable.
Proof.
  unfold current_candidate, current_runnable, runnable_at.
  destruct current as [c|].
  - destruct (runnable (proc_at procs c)) eqn:E.
    + split; [done|]. intros H. exfalso. apply H. by exists c.
    + split; [|done]. intros _ (c' & [= <-] & Hr). congruence.
  - split; [|done]. intros _ (c' & [=] & _).
Qed.

Lemma candidate_Some c :
  current_candidate procs current = Some c -> current = Some c /\ runnable_at c.
Proof.
  unfold current_candidate, runnable_at. destruct current as [c'|]; [|done].
  destruct (runnable (proc_at procs c')) eqn:E; [|done].
  by intros [= <-].
Qed.

(** The three [continue] tests of the scan loop let exactly the other
    runnable processes through. *)
Lemma scan_test idx :
  (if bool_decide (state (proc_at procs idx) = PROC_UNUSED) then true
   else if decide (Some idx = current_candidate procs current) then true
   else negb (bool_decide (state (proc_at procs idx) = PROC_READY))
        && negb (bool_decide (state (proc_at procs idx) = PROC_RUNNING))) = false
  <-> runnable_at idx /\ Some idx <> current.
Proof.
  unfold runnable_at, runnable.
  destruct (bool_decide_reflect (state (proc_at procs idx) = PROC_UNUSED)) as [Hu|Hu].
  { rewrite Hu. simpl. split; [done | intros [? _]; done]. }
  destruct (decide (Some idx = current_candidate procs current)) as [Hc|Hc].
  { symmetry in Hc. apply candidate_Some in Hc as [-> _].
    split; [done | intros [_ ?]; done]. }
  split.
  - intros H. split.
    + destruct (bool_decide (state (proc_at procs idx) = PROC_READY)),
        (bool_decide (state (proc_at procs idx) = PROC_RUNNING)); done.
    + intros <-. apply Hc. unfold current_candidate, runnable.
      destruct (bool_decide (state (proc_at procs idx) = PROC_READY)),
        (bool_decide (state (proc_at procs idx) = PROC_RUNNING)); done.
  - intros [H _].
    destruct (bool_decide (state (proc_at procs idx) = PROC_READY)),
      (bool_decide (state (proc_at procs idx) = PROC_RUNNING)); done.
Qed.

Lemma scan_idx start d :
  0 <= start ->
  Z.to_nat (Z.rem (start + Z.of_nat d) (Z.of_nat MAX_PROCESSES)) = slot start d.
Proof.
  intros H. unfold slot. rewrite Z.rem_mod_nonneg by lia. reflexivity.
Qed.

Lemma slot_lt start d : (slot start d < MAX_PROCESSES)%nat.
Proof.
  unfold slot.
  pose proof (Z.mod_pos_bound (start + Z.of_nat d) (Z.of_nat MAX_PROCESSES)).
  lia.
Qed.

Lemma scan_spec start s n :
  0 <= start ->
  match scan MAX_PROCESSES procs current start s n with
  | Some k =>
      exists d, (s <= d < s + n)%nat /\ k = slot start d
        /\ (runnable_at k /\ Some k <> current)
        /\ forall d', (s <= d' < d)%nat ->
             ~ (runnable_at (slot start d') /\ Some (slot start d') <> current)
  | None =>
      forall d, (s <= d < s + n)%nat ->
        ~ (runnable_at (slot start d) /\ Some (slot start d) <> current)
  end.
Proof.
  intros Hs. revert s. induction n as [|n IH]; intros s; simpl.
  - intros d Hd. lia.
  - rewrite scan_idx by done.
    pose proof (scan_test (slot start s)) as Ht.
    set (test := if bool_decide (state (proc_at procs (slot start s)) = PROC_UNUSED)
                 then true else _) in Ht.
    assert (Hscan :
      scan MAX_PROCESSES procs current start s (S n) =
      if test then scan MAX_PROCESSES procs current start (S s) n
      else Some (slot start s)).
    { simpl. rewrite scan_idx by done. unfold test.
      destruct (bool_decide _); [done|]. destruct (decide _); [done|].
      destruct (negb _ && negb _); done. }
    simpl in Hscan. rewrite scan_idx in Hscan by done. rewrite Hscan.
    destruct test eqn:Et.
    + specialize (IH (S s)).
      destruct (scan MAX_PROCESSES procs current start (S s) n) as [k|].
      * destruct IH as (d & Hd & -> & Hok & Hfirst).
        exists d. repeat split; try lia; try tauto.
        intros d' Hd'. destruct (decide (d' = s)) as [->|Hne].
        -- intros Hc. apply Ht in Hc. congruence.
        -- apply Hfirst. lia.
      * intros d Hd. destruct (decide (d = s)) as [->|Hne].
        -- intros Hc. apply Ht in Hc. congruence.
        -- apply IH. lia.
    + exists s. repeat split; try lia; try (apply Ht; done).
Qed.

Lemma slot_surjective start j :
  (j < MAX_PROCESSES)%nat ->
  exists d, (d < MAX_PROCESSES)%nat /\ slot start d = j.
Proof.
  intros Hj.
  exists (Z.to_nat ((Z.of_nat j - start) mod Z.of_nat MAX_PROCESSES)).
  pose proof (Z.mod_pos_bound (Z.of_nat j - start) (Z.of_nat MAX_PROCESSES)
                ltac:(lia)) as Hb.
  split; [lia|]. unfold slot. rewrite Z2Nat.id by lia.
  rewrite Zplus_mod_idemp_r.
  replace (start + (Z.of_nat j - start)) with (Z.of_nat j) by lia.
  rewrite Z.mod_small by lia. lia.
Qed.

Lemma start_eq rr_cursor :
  (let current_idx := find_current current 0 MAX_PROCESSES in
   let rr1 := if 0 <=? current_idx then current_idx else rr_cursor in
   if 0 <=? rr1 then Z.rem (rr1 + 1) (Z.of_nat MAX_PROCESSES) else 0)
  = scan_start rr_cursor.
Proof.
  cbv zeta. rewrite find_current_spec. unfold scan_start.
  assert (Hrem : forall x, 0 <= x ->
            Z.rem (x + 1) (Z.of_nat MAX_PROCESSES) = (x + 1) mod Z.of_nat MAX_PROCESSES).
  { intros x Hx. apply Z.rem_mod_nonneg; lia. }
  destruct current as [c|].
  - destruct (decide (0 <= c < 0 + MAX_PROCESSES)%nat),
      (decide (c < MAX_PROCESSES)%nat); try lia.
    + rewrite !(proj2 (Z.leb_le 0 (Z.of_nat c))) by lia.
      by rewrite Hrem by lia.
    + simpl. destruct (Z.leb_spec 0 rr_cursor); [by rewrite Hrem | done].
  - simpl. destruct (Z.leb_spec 0 rr_cursor); [by rewrite Hrem | done].
Qed.

Lemma scan_start_nonneg rr_cursor : 0 <= scan_start rr_cursor.
Proof.
  unfold scan_start. cbv zeta.
  destruct (0 <=? _); [|lia].
  apply Z.mod_pos_bound. lia.
Qed.

(** C9.  [baseline_select_next] returns the first READY or RUNNING process
    other than the current one, scanning the table forward from the slot
    after the cursor; when there is none and the current process is READY
    or RUNNING it returns the current process; it returns NULL exactly
    when no process at all is READY or RUNNING. *)
Theorem baseline_select_next_spec (rr_cursor : Z) :
  let r := fst (baseline_select_next MAX_PROCESSES procs current rr_cursor) in
  let start := scan_start rr_cursor in
  ((exists j, other j) ->
     exists d, (d < MAX_PROCESSES)%nat /\ r = Some (slot start d)
       /\ other (slot start d)
       /\ forall d', (d' < d)%nat -> ~ other (slot start d'))
  /\ (~ (exists j, other j) -> current_runnable -> r = current)
  /\ (r = None <->
      (forall j, (j < MAX_PROCESSES)%nat -> ~ runnable_at j) /\ ~ current_runnable).
Proof.
  cbv zeta. unfold baseline_select_next.
  pose proof (start_eq rr_cursor) as Hst. cbv zeta in Hst. rewrite Hst. clear Hst.
  pose proof (scan_spec (scan_start rr_cursor) 0 MAX_PROCESSES
                (scan_start_nonneg rr_cursor)) as Hscan.
  destruct (scan MAX_PROCESSES procs current (scan_start rr_cursor) 0 MAX_PROCESSES)
    as [k|].
  - destruct Hscan as (d & Hd & -> & [Hr Hne] & Hfirst). simpl.
    assert (Hother : other (slot (scan_start rr_cursor) d)).
    { split; [apply slot_lt | done]. }
    split; [|split].
    + intros _. exists d. repeat split; try lia; try done; try apply slot_lt.
      intros d' Hd' (_ & ? & ?). apply (Hfirst d'); [lia | done].
    + intros Hno. exfalso. apply Hno. eauto.
    + split; [done|]. intros [Hnone _]. exfalso.
      apply (Hnone (slot (scan_start rr_cursor) d)); [apply slot_lt | done].
  - assert (Hno : forall j, ~ other j).
    { intros j (Hj & Hr & Hne).
      destruct (slot_surjective (scan_start rr_cursor) j Hj) as (d & Hd & <-).
      apply (Hscan d); [lia | done]. }
    destruct (current_candidate procs current) as [c|] eqn:Ec.
    + apply candidate_Some in Ec as [Hc Hr]. simpl.
      split; [|split].
      * intros [j Hj]. exfalso. by apply (Hno j).
      * intros _ _. by rewrite Hc.
      * split; [done|]. intros [_ Hncr]. exfalso. apply Hncr. by exists c.
    + apply candidate_spec in Ec. simpl.
      split; [|split].
      * intros [j Hj]. exfalso. by apply (Hno j).
      * intros _ Hcr. contradiction.
      * split; [|done]. intros _. split; [|done].
        intros j Hj Hr. destruct (decide (Some j = current)) as [Heq|Hne].
        -- apply Ec. exists j. by split.
        -- apply (Hno j). by split.
Qed.

End Baseline.

Definition three_procs : list process_t :=
  [ mk_process 1 PROC_RUNNING None;
    mk_process 2 (PROC_OTHER 0) None;
    mk_process 3 PROC_READY None;
    mk_process 4 PROC_UNUSED None ].

Lemma baseline_select_next_spec_witness :
  fst (baseline_select_next 4 three_procs (Some 0%nat) (-1)) = Some 2%nat
  /\ fst (baseline_select_next 4 (take 1 three_procs) (Some 0%nat) (-1)) = Some 0%nat.
Proof.
  pose proof (baseline_select_next_spec 4 three_procs (Some 0%nat)
                ltac:(lia) (-1)) as (Hfirst & _ & _).
  pose proof (baseline_select_next_spec 4 (take 1 three_procs) (Some 0%nat)
                ltac:(lia) (-1)) as (_ & Hself & _).
  split.
  - destruct Hfirst as (d & _ & _ & _ & _).
    + exists 2%nat. split; [lia|]. split; [reflexivity | discriminate].
    + reflexivity.
  - apply Hself.
    + intros (j & Hj & Hr & Hne). unfold runnable_at in Hr.
      destruct j as [|[|[|[|j]]]]; simpl in *; try discriminate; try lia.
      by apply Hne.
    + exists 0%nat. split; reflexivity.
Defined.

End BaselineSpec.

(** * The benchmark simulator *)

Module SimSpec.
Import HtasH Sim.

(** ** What each step leaves alone *)

Lemma rr_scan_frame ctx a n :
  let c' := fst (rr_scan ctx a n) in
  tick c' = tick ctx /\ last_task_on_cpu c' = last_task_on_cpu ctx
  /\ latency_total_us c' = latency_total_us ctx
  /\ latency_samples c' = latency_samples ctx
  /\ latency_max_us c' = latency_max_us ctx.
Proof.
  revert a. induction n as [|n IH]; intros a; simpl; [done|].
  destruct (ready _ && negb _); [done | apply IH].
Qed.

Lemma mark_selected_frame ctx b :
  let c' := fst (mark_selected ctx b) in
  tick c' = tick ctx /\ last_task_on_cpu c' = last_task_on_cpu ctx
  /\ rr_index c' = rr_index ctx.
Proof. unfold mark_selected. destruct (0 <=? b); done. Qed.

Lemma select_task_frame ty cpu ctx :
  let c' := fst (select_task ty cpu ctx) in
  tick c' = tick ctx /\ last_task_on_cpu c' = last_task_on_cpu ctx.
Proof.
  destruct ty; simpl.
  - pose proof (rr_scan_frame ctx 0 8). simpl in *. tauto.
  - pose proof (mark_selected_frame ctx
      (fst (for_range 0 8 (best_step (htas_score ctx (Z.of_nat cpu)) ctx) (-1, -1000)))).
    simpl in *. tauto.
  - pose proof (mark_selected_frame ctx
      (fst (for_range 0 8 (best_step (dynamic_score ctx (Z.of_nat cpu)) ctx) (-1, -1000)))).
    simpl in *. tauto.
Qed.

Lemma assign_cpus_frame ty ctx :
  let c' := fst (assign_cpus ty ctx) in
  tick c' = tick ctx /\ last_task_on_cpu c' = last_task_on_cpu ctx.
Proof.
  unfold assign_cpus.
  apply (for_range_ind
    (fun _ (s : sim_context_t * list Z) =>
       tick (fst s) = tick ctx /\ last_task_on_cpu (fst s) = last_task_on_cpu ctx)
    0 4); [done|].
  intros i [c a] _ [Ht Hl]. simpl in *.
  pose proof (select_task_frame ty i c) as Hf. simpl in Hf.
  destruct (select_task ty i c) as [c' idx]. simpl in *.
  destruct Hf as [Hf1 Hf2]. split; congruence.
Qed.

Lemma update_tick ctx st cpu idx :
  tick (fst (sim_update_task_stats ctx st cpu idx)) = tick ctx.
Proof. unfold sim_update_task_stats. destruct (idx <? 0); reflexivity. Qed.

Lemma update_cpus_tick assigned s :
  tick (fst (update_cpus assigned s)) = tick (fst s).
Proof.
  unfold update_cpus.
  apply (for_range_ind
    (fun _ (x : sim_context_t * Stats.scheduler_stats_t) => tick (fst x) = tick (fst s))
    0 4); [done|].
  intros i x _ Hx. by rewrite update_tick.
Qed.

Lemma sim_tick_body_tick ty s :
  tick (fst (sim_tick_body ty s)) = tick (fst s).
Proof.
  unfold sim_tick_body.
  pose proof (assign_cpus_frame ty (sim_prepare_tick (fst s))) as [Ha _].
  destruct (assign_cpus ty (sim_prepare_tick (fst s))) as [c1 assigned].
  pose proof (update_cpus_tick assigned
    (c1, Stats.set_total_ticks (u64 (Stats.total_ticks (snd s) + 1)) (snd s))) as Hu.
  destruct (update_cpus assigned _) as [c2 st2]. simpl in *. congruence.
Qed.

(** ** The tick loop runs [duration_ms] times *)

Definition tick_step (ty : scheduler_type_t)
    (s : sim_context_t * Stats.scheduler_stats_t) :=
  next_tick (sim_tick_body ty s).

Lemma sim_run_iter ty n : sim_run ty n = Nat.iter n (tick_step ty) sim_start.
Proof. induction n as [|n IH]; simpl; [done | by rewrite IH]. Qed.

Lemma sim_loop_runs ty d m fuel s :
  0 <= d < 4294967296 ->
  tick (fst s) = d - Z.of_nat m -> 0 <= tick (fst s) ->
  (m <= fuel)%nat ->
  sim_loop ty d fuel s = Some (Nat.iter m (tick_step ty) s).
Proof.
  intros Hd. revert fuel s. induction m as [|m IH]; intros fuel s Ht H0 Hf.
  - destruct fuel; simpl; destruct (Z.ltb_spec (tick (fst s)) d); try lia; done.
  - destruct fuel as [|fuel]; [lia|]. simpl.
    destruct (Z.ltb_spec (tick (fst s)) d); [|lia].
    rewrite IH.
    + f_equal. change (Nat.iter m (tick_step ty) (tick_step ty s)
                       = Nat.iter (S m) (tick_step ty) s).
      by rewrite Nat.iter_succ_r.
    + unfold next_tick. simpl. rewrite sim_tick_body_tick, u32_small by lia. lia.
    + unfold next_tick. simpl. rewrite sim_tick_body_tick, u32_small by lia. lia.
    + lia.
Qed.

(** With fuel for [duration_ms] iterations [simulate_workload] returns, and
    what it returns is read off the state after that many ticks. *)
Lemma simulate_workload_run d ty ctx0 stats0 fuel :
  (Z.to_nat (u32 d) <= fuel)%nat ->
  simulate_workload d ty ctx0 stats0 fuel =
  Some (write_latency (sim_run ty (Z.to_nat (u32 d)))).
Proof.
  intros Hf. unfold simulate_workload.
  pose proof (u32_range d) as Hd.
  rewrite (sim_loop_runs ty (u32 d) (Z.to_nat (u32 d))); simpl; try lia.
  by rewrite sim_run_iter.
Qed.

(** C6.  Two runs of [simulate_workload] with the same duration and policy
    return the same statistics record, whatever the memory of [ctx] and
    [*stats] held before each run. *)
Theorem simulate_workload_deterministic (d : Z) (ty : scheduler_type_t)
    (ctx1 ctx2 : sim_context_t) (stats1 stats2 : Stats.scheduler_stats_t)
    (fuel1 fuel2 : nat) :
  (Z.to_nat (u32 d) <= fuel1)%nat -> (Z.to_nat (u32 d) <= fuel2)%nat ->
  exists out,
    simulate_workload d ty ctx1 stats1 fuel1 = Some out
    /\ simulate_workload d ty ctx2 stats2 fuel2 = Some out.
Proof.
  intros H1 H2. exists (write_latency (sim_run ty (Z.to_nat (u32 d)))).
  split; by apply simulate_workload_run.
Qed.

Definition dirty_stats : Stats.scheduler_stats_t :=
  Stats.mk_stats 7 7 7 7 7 [Stats.mk_intent_stat 1 2 3 4] 7.

Definition dirty_ctx : sim_context_t :=
  mk_sim_context [set_ready true sim_task_zero] [5; 5] 9 9 9 9 3 dirty_stats.

Lemma simulate_workload_deterministic_witness :
  exists out,
    simulate_workload 20 SCHED_HTAS sim_context_zero Stats.stats_zero 20 = Some out
    /\ simulate_workload 20 SCHED_HTAS dirty_ctx dirty_stats 25 = Some out.
Proof.
  apply (simulate_workload_deterministic 20 SCHED_HTAS); vm_compute; lia.
Defined.

(** ** Runtime accounting *)

Definition intent_runtime (st : Stats.scheduler_stats_t) (i : task_intent_t) : Z :=
  Stats.runtime_us (default (Stats.mk_intent_stat 0 0 0 0)
                            (Stats.intent_stats st !! intent_index i)).

(** The sum over the four intents of [intent_stats[i].runtime_us]. *)
Definition total_intent_runtime (st : Stats.scheduler_stats_t) : Z :=
  intent_runtime st PROFILE_PERFORMANCE + intent_runtime st PROFILE_EFFICIENCY
  + intent_runtime st PROFILE_LOW_LATENCY + intent_runtime st PROFILE_DEFAULT.

(** The accounting invariant, with the bound [B] that keeps the 64-bit
    counters from wrapping. *)
Definition balanced (B : Z) (st : Stats.scheduler_stats_t) : Prop :=
  length (Stats.intent_stats st) = 4%nat
  /\ total_intent_runtime st = Stats.pcore_time_us st + Stats.ecore_time_us st
  /\ 0 <= Stats.pcore_time_us st /\ 0 <= Stats.ecore_time_us st
  /\ (forall i, 0 <= intent_runtime st i)
  /\ Stats.pcore_time_us st + Stats.ecore_time_us st <= B.

Lemma balanced_mono B B' st : B <= B' -> balanced B st -> balanced B' st.
Proof. unfold balanced. intros ? (?&?&?&?&?&?). repeat split; try done. lia. Qed.

Lemma update_balanced B ctx st cpu idx :
  B + 1000 < 18446744073709551616 ->
  balanced B st ->
  balanced (B + 1000) (snd (sim_update_task_stats ctx st cpu idx)).
Proof.
  intros HB Hbal. unfold sim_update_task_stats.
  destruct (idx <? 0).
  { simpl. apply (balanced_mono B); [lia|]. exact Hbal. }
  cbv zeta.
  set (task := if negb (inferred_numa_locked _) && _ then _ else _).
  destruct Hbal as (Hlen & Hsum & Hp & He & Hnn & Hle).
  destruct st as [tt cs np ec pc ists pw]. simpl in *.
  destruct ists as [|a [|b [|c [|d [|x ists]]]]]; try discriminate.
  unfold total_intent_runtime, intent_runtime in *. simpl in *.
  pose proof (Hnn PROFILE_PERFORMANCE) as H0.
  pose proof (Hnn PROFILE_EFFICIENCY) as H1.
  pose proof (Hnn PROFILE_LOW_LATENCY) as H2.
  pose proof (Hnn PROFILE_DEFAULT) as H3. simpl in *.
  unfold SIM_TICK_US.
  destruct (negb (last_at ctx cpu =? idx));
    destruct (bool_decide (type (cpu_at cpu) = CPU_TYPE_PCORE));
    destruct ((preferred_numa _ <? NUM_NUMA_NODES) && negb _);
    destruct (intent _); unfold balanced, total_intent_runtime, intent_runtime;
    simpl; rewrite ?u64_small by lia;
    (repeat split; [lia | lia | lia | intros []; simpl; lia | lia]).
Qed.

Lemma simulate_workload_Some d ty ctx0 stats0 fuel out :
  simulate_workload d ty ctx0 stats0 fuel = Some out ->
  out = write_latency (sim_run ty (Z.to_nat (u32 d))).
Proof.
  intros Hrun. destruct (le_lt_dec (Z.to_nat (u32 d)) fuel) as [Hf|Hf].
  - rewrite simulate_workload_run in Hrun by done. by injection Hrun.
  - exfalso. revert Hrun. unfold simulate_workload.
    assert (Hnone : forall m s, tick (fst s) = u32 d - Z.of_nat m ->
              0 <= tick (fst s) ->
              (fuel < m)%nat -> sim_loop ty (u32 d) fuel s = None).
    { clear. induction fuel as [|fuel IH]; intros m s Ht H0 Hm; simpl.
      - destruct (Z.ltb_spec (tick (fst s)) (u32 d)); [done | lia].
      - destruct (Z.ltb_spec (tick (fst s)) (u32 d)); [|lia].
        pose proof (u32_range d).
        apply (IH (pred m)); [| |lia]; unfold next_tick; simpl;
          rewrite sim_tick_body_tick, u32_small by lia; lia. }
    rewrite (Hnone (Z.to_nat (u32 d))); [done | | | done].
    + simpl. pose proof (u32_range d). lia.
    + simpl. lia.
Qed.


Lemma sim_tick_body_unfold ty s :
  sim_tick_body ty s =
  let a := assign_cpus ty (sim_prepare_tick (fst s)) in
  let u := update_cpus (snd a)
             (fst a, Stats.set_total_ticks (u64 (Stats.total_ticks (snd s) + 1)) (snd s)) in
  (sim_finalize_tick (fst u), snd u).
Proof.
  unfold sim_tick_body. destruct (assign_cpus _ _) as [c a]. cbn [fst snd].
  cbv zeta. cbn [fst snd]. destruct (update_cpus _ _) as [c' st']. reflexivity.
Qed.

Lemma update_cpus_balanced B assigned s :
  B + 4000 < 18446744073709551616 ->
  balanced B (snd s) -> balanced (B + 4000) (snd (update_cpus assigned s)).
Proof.
  intros HB Hbal. unfold update_cpus.
  change 4000 with (1000 * Z.of_nat (0 + 4)).
  apply (for_range_ind
    (fun i (x : sim_context_t * Stats.scheduler_stats_t) =>
       balanced (B + 1000 * Z.of_nat i) (snd x)) 0 4).
  - simpl. by rewrite Z.add_0_r.
  - intros i x Hi Hx.
    replace (B + 1000 * Z.of_nat (S i)) with (B + 1000 * Z.of_nat i + 1000) by lia.
    apply update_balanced; [lia | done].
Qed.

Lemma sim_run_S ty n :
  sim_run ty (S n) = next_tick (sim_tick_body ty (sim_run ty n)).
Proof. reflexivity. Qed.

Lemma snd_next_tick s : snd (next_tick s) = snd s.
Proof. reflexivity. Qed.

Lemma snd_sim_tick_body ty s :
  snd (sim_tick_body ty s) =
  snd (update_cpus (snd (assign_cpus ty (sim_prepare_tick (fst s))))
         (fst (assign_cpus ty (sim_prepare_tick (fst s))),
          Stats.set_total_ticks (u64 (Stats.total_ticks (snd s) + 1)) (snd s))).
Proof.
  unfold sim_tick_body. destruct (assign_cpus _ _) as [c a]. cbn [fst snd].
  destruct (update_cpus _ _) as [c' st']. reflexivity.
Qed.

Lemma balanced_set_total_ticks B v st :
  balanced B st -> balanced B (Stats.set_total_ticks v st).
Proof. destruct st. exact id. Qed.

Lemma sim_start_balanced : balanced 0 (snd sim_start).
Proof.
  unfold sim_start, balanced, total_intent_runtime, intent_runtime. simpl.
  repeat split; try done. intros []; done.
Qed.

Lemma sim_run_balanced ty n :
  Z.of_nat n < 4294967296 ->
  balanced (4000 * Z.of_nat n) (snd (sim_run ty n)).
Proof.
  induction n as [|n IH]; intros Hn.
  - exact sim_start_balanced.
  - rewrite sim_run_S, snd_next_tick, snd_sim_tick_body.
    replace (4000 * Z.of_nat (S n)) with (4000 * Z.of_nat n + 4000) by lia.
    apply update_cpus_balanced; [lia|].
    apply balanced_set_total_ticks, IH. lia.
Qed.

Lemma write_latency_runtime s :
  length (Stats.intent_stats (snd s)) = 4%nat ->
  total_intent_runtime (write_latency s) = total_intent_runtime (snd s)
  /\ Stats.pcore_time_us (write_latency s) = Stats.pcore_time_us (snd s)
  /\ Stats.ecore_time_us (write_latency s) = Stats.ecore_time_us (snd s).
Proof.
  destruct s as [c st]. simpl. intros Hlen.
  destruct st as [tt cs np ec pc ists pw]. simpl in *.
  destruct ists as [|a [|b [|x [|d [|y ists]]]]]; try discriminate.
  done.
Qed.

(** C5.  After any number of ticks under any policy, and in the record that
    [simulate_workload] returns, the per-intent runtimes add up to
    [pcore_time_us + ecore_time_us]. *)
Theorem runtime_accounting (ty : scheduler_type_t) :
  (forall n : nat, Z.of_nat n < 4294967296 ->
     let st := snd (sim_run ty n) in
     total_intent_runtime st = Stats.pcore_time_us st + Stats.ecore_time_us st)
  /\ (forall d ctx0 stats0 fuel out,
        simulate_workload d ty ctx0 stats0 fuel = Some out ->
        total_intent_runtime out = Stats.pcore_time_us out + Stats.ecore_time_us out).
Proof.
  split.
  - intros n Hn. destruct (sim_run_balanced ty n Hn) as (_ & H & _). exact H.
  - intros d ctx0 stats0 fuel out Hrun.
    apply simulate_workload_Some in Hrun as ->.
    pose proof (u32_range d) as Hd.
    destruct (sim_run_balanced ty (Z.to_nat (u32 d)) ltac:(lia)) as (Hlen & H & _).
    destruct (write_latency_runtime _ Hlen) as (-> & -> & ->). exact H.
Qed.

Lemma runtime_accounting_witness :
  total_intent_runtime (snd (sim_run SCHED_DYNAMIC 50)) = 166000
  /\ exists out, simulate_workload 50 SCHED_DYNAMIC sim_context_zero
                   Stats.stats_zero 50 = Some out
       /\ total_intent_runtime out
          = Stats.pcore_time_us out + Stats.ecore_time_us out.
Proof.
  destruct (runtime_accounting SCHED_DYNAMIC) as [Hrun Hout].
  split.
  - cbv zeta in Hrun. rewrite (Hrun 50%nat) by lia. vm_compute. reflexivity.
  - eexists. split; [vm_compute; reflexivity|].
    apply (Hout 50 sim_context_zero Stats.stats_zero 50%nat). vm_compute. reflexivity.
Defined.

(** ** Context switches *)

(** The number of entries of [l] that differ from their predecessor, the
    predecessor of the first entry being [prev]. *)
Fixpoint changes (prev : Z) (l : list Z) : Z :=
  match l with
  | [] => 0
  | x :: r => (if x =? prev then 0 else 1) + changes x r
  end.

(** The assignments of one CPU over the ticks of a trace. *)
Definition column (cpu : nat) (tr : list (list Z)) : list Z :=
  map (fun a => default 0 (a !! cpu)) tr.

Definition sum_cpus (f : nat -> Z) : Z := f 0%nat + f 1%nat + f 2%nat + f 3%nat.

(** The count as the claim words it: every (cpu, tick) cell whose assignment
    differs from the previous tick's on that CPU, idle (-1) being an
    assignment like any other; [first_prev] is what the first tick is
    compared with. *)
Definition cells_changed (first_prev : Z) (tr : list (list Z)) : Z :=
  sum_cpus (fun cpu => changes first_prev (column cpu tr)).

(** The same count with the first tick left out. *)
Definition cells_changed_after_first (tr : list (list Z)) : Z :=
  sum_cpus (fun cpu => match column cpu tr with
                       | [] => 0
                       | x :: r => changes x r
                       end).

(** The count over the busy cells only: an idle tick neither counts nor
    changes what the next task is compared with. *)
Definition busy_cells_changed (tr : list (list Z)) : Z :=
  sum_cpus (fun cpu => changes (-1) (filter (fun x => 0 <= x) (column cpu tr))).

Lemma last_cons_default (l : list Z) y prev :
  List.last (y :: l) prev = List.last l y.
Proof.
  revert y prev. induction l as [|z l IH]; intros y prev; [done|].
  change (List.last (y :: z :: l) prev) with (List.last (z :: l) prev).
  by rewrite !IH.
Qed.

Lemma changes_snoc prev l x :
  changes prev (l ++ [x]) =
  changes prev l + (if x =? List.last l prev then 0 else 1).
Proof.
  revert prev. induction l as [|y l IH]; intros prev.
  - simpl. lia.
  - change ((y :: l) ++ [x]) with (y :: (l ++ [x])).
    cbn [changes]. rewrite IH, last_cons_default. lia.
Qed.

Lemma changes_bounds prev l : 0 <= changes prev l <= Z.of_nat (length l).
Proof.
  revert prev. induction l as [|x l IH]; intros prev; simpl; [lia|].
  specialize (IH x). destruct (x =? prev); lia.
Qed.

Lemma column_snoc cpu tr a :
  column cpu (tr ++ [a]) = column cpu tr ++ [default 0 (a !! cpu)].
Proof. unfold column. by rewrite map_app. Qed.

Lemma sim_trace_S ty n :
  sim_trace ty (S n) = sim_trace ty n ++ [assigned_at ty n].
Proof. unfold sim_trace. by rewrite seq_S, map_app. Qed.

Lemma sim_trace_length ty n : length (sim_trace ty n) = n.
Proof. unfold sim_trace. by rewrite length_map, length_seq. Qed.

(** What one call of [sim_update_task_stats] does to the switch counter and
    to [last_task_on_cpu]. *)
Definition switch_here (ctx : sim_context_t) (cpu idx : Z) : bool :=
  (0 <=? idx) && negb (last_at ctx cpu =? idx).

Lemma update_switches ctx st cpu idx :
  Stats.context_switches (snd (sim_update_task_stats ctx st cpu idx)) =
    (if switch_here ctx cpu idx then u64 (Stats.context_switches st + 1)
     else Stats.context_switches st)
  /\ last_task_on_cpu (fst (sim_update_task_stats ctx st cpu idx)) =
    (if switch_here ctx cpu idx
     then <[Z.to_nat cpu := idx]> (last_task_on_cpu ctx)
     else last_task_on_cpu ctx).
Proof.
  unfold sim_update_task_stats, switch_here.
  destruct (Z.ltb_spec idx 0) as [Hneg|Hpos].
  { destruct (Z.leb_spec 0 idx); [lia|]. destruct st; done. }
  destruct (Z.leb_spec 0 idx); [|lia]. cbv zeta. cbn [fst snd andb].
  destruct st as [tt cs np ec pc ists pw].
  destruct (negb (last_at ctx cpu =? idx));
    destruct (bool_decide (type (cpu_at cpu) = CPU_TYPE_PCORE));
    destruct ((preferred_numa _ <? NUM_NUMA_NODES) && negb _);
    done.
Qed.

Lemma last_at_lookup ctx (cpu : nat) x :
  last_task_on_cpu ctx !! cpu = Some x -> last_at ctx (Z.of_nat cpu) = x.
Proof.
  intros H. unfold last_at. destruct (Z.ltb_spec (Z.of_nat cpu) 0); [lia|].
  by rewrite Nat2Z.id, H.
Qed.

(** The second inner loop, CPU by CPU: [old] is [last_task_on_cpu] before
    the loop. *)
Definition switch_at (old assigned : list Z) (cpu : nat) : Z :=
  let a := default 0 (assigned !! cpu) in
  if (0 <=? a) && negb (default 0 (old !! cpu) =? a) then 1 else 0.

Definition last_after (old assigned : list Z) (cpu : nat) : Z :=
  let a := default 0 (assigned !! cpu) in
  if 0 <=? a then a else default 0 (old !! cpu).

Fixpoint sum_below (f : nat -> Z) (k : nat) : Z :=
  match k with
  | O => 0
  | S k' => sum_below f k' + f k'
  end.

Lemma update_cpus_switches assigned s :
  length (last_task_on_cpu (fst s)) = 4%nat ->
  Stats.context_switches (snd s) + 4 < 18446744073709551616 ->
  0 <= Stats.context_switches (snd s) ->
  let old := last_task_on_cpu (fst s) in
  let s' := update_cpus assigned s in
  length (last_task_on_cpu (fst s')) = 4%nat
  /\ (forall cpu, (cpu < 4)%nat ->
        last_task_on_cpu (fst s') !! cpu = Some (last_after old assigned cpu))
  /\ Stats.context_switches (snd s') =
     Stats.context_switches (snd s) + sum_cpus (switch_at old assigned).
Proof.
  intros Hlen Hcs H0. cbv zeta. unfold update_cpus.
  set (old := last_task_on_cpu (fst s)).
  assert (Hinv :
    (fun k (x : sim_context_t * Stats.scheduler_stats_t) =>
       length (last_task_on_cpu (fst x)) = 4%nat
       /\ (forall cpu, (cpu < k)%nat ->
             last_task_on_cpu (fst x) !! cpu = Some (last_after old assigned cpu))
       /\ (forall cpu, (k <= cpu)%nat ->
             last_task_on_cpu (fst x) !! cpu = old !! cpu)
       /\ Stats.context_switches (snd x) =
          Stats.context_switches (snd s) + sum_below (switch_at old assigned) k
       /\ 0 <= sum_below (switch_at old assigned) k <= Z.of_nat k)
    (0 + 4)%nat
    (for_range 0 4
       (fun cpu s0 => sim_update_task_stats (fst s0) (snd s0) (Z.of_nat cpu)
                        (default 0 (assigned !! cpu))) s)).
  { apply for_range_ind.
    - repeat split; try done; try (simpl; lia).
    - intros k [c st] Hk (Hl & Hlt & Hge & Hsum & Hb). cbn [fst snd] in *.
      destruct (update_switches c st (Z.of_nat k) (default 0 (assigned !! k)))
        as [Hcs' Hlast'].
      assert (Hold : exists o, old !! k = Some o).
      { apply lookup_lt_is_Some. unfold old. lia. }
      destruct Hold as [o Ho].
      assert (Hck : last_at c (Z.of_nat k) = o).
      { apply last_at_lookup. rewrite Hge by lia. exact Ho. }
      unfold switch_here in *. rewrite Hck in *.
      assert (Hsw : switch_at old assigned k =
                    if (0 <=? default 0 (assigned !! k))
                       && negb (o =? default 0 (assigned !! k)) then 1 else 0).
      { unfold switch_at. by rewrite Ho. }
      assert (Hla : last_after old assigned k =
                    if 0 <=? default 0 (assigned !! k)
                    then default 0 (assigned !! k) else o).
      { unfold last_after. by rewrite Ho. }
      rewrite Hcs', Hlast'. rewrite Nat2Z.id. cbn [sum_below].
      set (a := default 0 (assigned !! k)) in *.
      destruct (Z.leb_spec 0 a) as [Ha|Ha]; cbn [andb] in *.
      + destruct (Z.eqb_spec o a) as [Heq|Hneq]; cbn [negb] in *.
        * repeat split; try lia; try done.
          intros cpu Hc. destruct (decide (cpu = k)) as [->|Hne].
          -- rewrite Hge by lia. rewrite Hla, Ho. by rewrite Heq.
          -- apply Hlt. lia.
          -- intros cpu Hc. apply Hge. lia.
        * rewrite length_insert. repeat split; try lia; try done.
          -- intros cpu Hc. destruct (decide (cpu = k)) as [->|Hne].
             ++ rewrite list_lookup_insert_eq by lia. by rewrite Hla.
             ++ rewrite list_lookup_insert_ne by done. apply Hlt. lia.
          -- intros cpu Hc. rewrite list_lookup_insert_ne by lia. apply Hge. lia.
          -- rewrite u64_small by lia. lia.
      + repeat split; try lia; try done.
        * intros cpu Hc. destruct (decide (cpu = k)) as [->|Hne].
          -- rewrite Hge by lia. by rewrite Hla, Ho.
          -- apply Hlt. lia.
        * intros cpu Hc. apply Hge. lia. }
  cbv beta in Hinv. destruct Hinv as (Hl & Hlt & _ & Hsum & _).
  split; [exact Hl|]. split; [intros cpu Hc; apply Hlt; simpl; lia|].
  rewrite Hsum. unfold sum_cpus. simpl. lia.
Qed.

Lemma fst_sim_tick_body ty s :
  fst (sim_tick_body ty s) =
  sim_finalize_tick
    (fst (update_cpus (snd (assign_cpus ty (sim_prepare_tick (fst s))))
            (fst (assign_cpus ty (sim_prepare_tick (fst s))),
             Stats.set_total_ticks (u64 (Stats.total_ticks (snd s) + 1)) (snd s)))).
Proof.
  unfold sim_tick_body. destruct (assign_cpus _ _) as [c a]. cbn [fst snd].
  destruct (update_cpus _ _) as [c' st']. reflexivity.
Qed.

(** The invariant that ties the counter to the trace. *)
Definition switches_inv (ty : scheduler_type_t) (n : nat) : Prop :=
  let s := sim_run ty n in
  let tr := sim_trace ty n in
  length (last_task_on_cpu (fst s)) = 4%nat
  /\ (forall cpu, (cpu < 4)%nat ->
        last_task_on_cpu (fst s) !! cpu =
        Some (List.last (filter (fun x => 0 <= x) (column cpu tr)) (-1)))
  /\ Stats.context_switches (snd s) = busy_cells_changed tr
  /\ 0 <= Stats.context_switches (snd s) <= 4 * Z.of_nat n.

Lemma busy_snoc (l : list Z) a :
  filter (fun x => 0 <= x) (l ++ [a]) =
  filter (fun x => 0 <= x) l ++ (if 0 <=? a then [a] else []).
Proof.
  rewrite list.filter_app. f_equal.
  destruct (Z.leb_spec 0 a).
  - by rewrite filter_cons_True.
  - rewrite filter_cons_False by lia. done.
Qed.

Lemma switch_at_changes old assigned cpu (col : list Z) :
  old !! cpu = Some (List.last (filter (fun x => 0 <= x) col) (-1)) ->
  let a := default 0 (assigned !! cpu) in
  changes (-1) (filter (fun x => 0 <= x) (col ++ [a])) =
    changes (-1) (filter (fun x => 0 <= x) col) + switch_at old assigned cpu
  /\ List.last (filter (fun x => 0 <= x) (col ++ [a])) (-1) =
     last_after old assigned cpu.
Proof.
  intros Ho. cbv zeta. unfold switch_at, last_after. rewrite Ho. cbn [default].
  rewrite busy_snoc.
  destruct (Z.leb_spec 0 (default 0 (assigned !! cpu))) as [Ha|Ha]; cbn [andb].
  - rewrite changes_snoc, last_last. unfold id.
    rewrite (Z.eqb_sym (List.last _ _)).
    split; [|done]. by destruct (_ =? _).
  - rewrite app_nil_r. split; [lia | done].
Qed.

Lemma finalize_last ctx :
  last_task_on_cpu (sim_finalize_tick ctx) = last_task_on_cpu ctx.
Proof. reflexivity. Qed.

Lemma switches_inv_run ty n :
  Z.of_nat n < 4294967296 -> switches_inv ty n.
Proof.
  induction n as [|n IH]; intros Hn.
  - unfold switches_inv. cbv zeta. split; [done|]. split; [|done].
    intros cpu Hc. destruct cpu as [|[|[|[|cpu]]]]; try lia; reflexivity.
  - specialize (IH ltac:(lia)). unfold switches_inv in *. cbv zeta in *.
    destruct IH as (Hlen & Hlast & Hcs & Hb).
    rewrite sim_run_S, snd_next_tick, snd_sim_tick_body.
    change (fst (next_tick (sim_tick_body ty (sim_run ty n))))
      with (set_tick (u32 (tick (fst (sim_tick_body ty (sim_run ty n))) + 1))
                     (fst (sim_tick_body ty (sim_run ty n)))).
    change (last_task_on_cpu (set_tick ?v ?c)) with (last_task_on_cpu c).
    rewrite fst_sim_tick_body, finalize_last.
    change (snd (assign_cpus ty (sim_prepare_tick (fst (sim_run ty n)))))
      with (assigned_at ty n).
    pose proof (assign_cpus_frame ty (sim_prepare_tick (fst (sim_run ty n))))
      as [_ Hfr]. change (last_task_on_cpu (sim_prepare_tick ?c))
      with (last_task_on_cpu c) in Hfr.
    set (s1 := (fst (assign_cpus ty (sim_prepare_tick (fst (sim_run ty n)))),
                Stats.set_total_ticks
                  (u64 (Stats.total_ticks (snd (sim_run ty n)) + 1))
                  (snd (sim_run ty n)))).
    assert (Hcs1 : Stats.context_switches (snd s1)
                   = Stats.context_switches (snd (sim_run ty n))).
    { unfold s1. cbn [snd]. by destruct (snd (sim_run ty n)). }
    assert (Hl1 : last_task_on_cpu (fst s1) = last_task_on_cpu (fst (sim_run ty n))).
    { unfold s1. cbn [fst]. exact Hfr. }
    destruct (update_cpus_switches (assigned_at ty n) s1) as (Hlen' & Hlast' & Hcs').
    { by rewrite Hl1. }
    { rewrite Hcs1. lia. }
    { rewrite Hcs1. lia. }
    rewrite Hl1 in *. rewrite Hcs1 in Hcs'.
    set (old := last_task_on_cpu (fst (sim_run ty n))) in *.
    assert (Hcol : forall cpu, (cpu < 4)%nat ->
      changes (-1) (filter (fun x => 0 <= x) (column cpu (sim_trace ty (S n)))) =
        changes (-1) (filter (fun x => 0 <= x) (column cpu (sim_trace ty n)))
        + switch_at old (assigned_at ty n) cpu
      /\ List.last (filter (fun x => 0 <= x) (column cpu (sim_trace ty (S n)))) (-1)
         = last_after old (assigned_at ty n) cpu).
    { intros cpu Hc. rewrite sim_trace_S, column_snoc.
      apply switch_at_changes. by apply Hlast. }
    split; [exact Hlen'|]. split; [|split].
    + intros cpu Hc. rewrite Hlast' by done.
      by destruct (Hcol cpu Hc) as [_ ->].
    + rewrite Hcs', Hcs. unfold busy_cells_changed, sum_cpus.
      destruct (Hcol 0%nat ltac:(lia)) as [-> _].
      destruct (Hcol 1%nat ltac:(lia)) as [-> _].
      destruct (Hcol 2%nat ltac:(lia)) as [-> _].
      destruct (Hcol 3%nat ltac:(lia)) as [-> _]. lia.
    + rewrite Hcs'.
      assert (Hsw : forall cpu, 0 <= switch_at old (assigned_at ty n) cpu <= 1).
      { intros cpu. unfold switch_at. cbv zeta. destruct (_ && _); lia. }
      unfold sum_cpus.
      pose proof (Hsw 0%nat). pose proof (Hsw 1%nat).
      pose proof (Hsw 2%nat). pose proof (Hsw 3%nat). lia.
Qed.

Lemma write_latency_switches s :
  Stats.context_switches (write_latency s) = Stats.context_switches (snd s).
Proof. destruct s as [c st]. by destruct st. Qed.

(** C4, as the code has it.  [context_switches] counts the (cpu, tick) cells
    in which a task is assigned that differs from the task last assigned to
    that CPU; idle ticks are skipped and the first task on a CPU counts. *)
Theorem context_switches_count (ty : scheduler_type_t) :
  (forall n : nat, Z.of_nat n < 4294967296 ->
     Stats.context_switches (snd (sim_run ty n)) = busy_cells_changed (sim_trace ty n))
  /\ (forall d ctx0 stats0 fuel out,
        simulate_workload d ty ctx0 stats0 fuel = Some out ->
        Stats.context_switches out =
        busy_cells_changed (sim_trace ty (Z.to_nat (u32 d)))).
Proof.
  split.
  - intros n Hn. by destruct (switches_inv_run ty n Hn) as (_ & _ & H & _).
  - intros d ctx0 stats0 fuel out Hrun.
    apply simulate_workload_Some in Hrun as ->.
    rewrite write_latency_switches.
    pose proof (u32_range d) as Hd.
    by destruct (switches_inv_run ty (Z.to_nat (u32 d)) ltac:(lia)) as (_ & _ & H & _).
Qed.

Lemma context_switches_count_witness :
  exists out,
    simulate_workload 12 SCHED_BASELINE sim_context_zero Stats.stats_zero 12 = Some out
    /\ Stats.context_switches out = 24
    /\ busy_cells_changed (sim_trace SCHED_BASELINE 12) = 24.
Proof.
  destruct (context_switches_count SCHED_BASELINE) as [_ Hout].
  destruct (simulate_workload 12 SCHED_BASELINE sim_context_zero Stats.stats_zero 12)
    as [out|] eqn:Hrun; [|vm_compute in Hrun; discriminate].
  exists out. split; [reflexivity|].
  rewrite (Hout _ _ _ _ _ Hrun).
  split; vm_compute; reflexivity.
Defined.

(** C4 as stated fails: in the fourth tick of the round-robin run CPU 3 goes
    idle, which the claim counts and the code does not.  The code counts 11
    switches in the first four ticks; the claim's count is 12, or 8 when the
    first tick is left out. *)
Lemma context_switches_counterexample :
  sim_trace SCHED_BASELINE 4 = [[0; 1; 2; 3]; [6; 7; 0; 1]; [6; 7; 0; 1]; [7; 0; 1; -1]]
  /\ exists out,
       simulate_workload 4 SCHED_BASELINE sim_context_zero Stats.stats_zero 4 = Some out
       /\ Stats.context_switches out = 11
       /\ cells_changed (-1) (sim_trace SCHED_BASELINE 4) = 12
       /\ cells_changed_after_first (sim_trace SCHED_BASELINE 4) = 8
       /\ Stats.context_switches out <> cells_changed (-1) (sim_trace SCHED_BASELINE 4)
       /\ Stats.context_switches out <> cells_changed_after_first (sim_trace SCHED_BASELINE 4).
Proof.
  split; [vm_compute; reflexivity|].
  eexists. split; [vm_compute; reflexivity|].
  repeat split; vm_compute; congruence.
Qed.

(** ** What a tick does to one task *)

Definition unselect (t : sim_task_t) : sim_task_t := set_selected_this_tick false t.

Lemma unselect_set v t : unselect (set_selected_this_tick v t) = unselect t.
Proof. by destruct t. Qed.

Lemma sim_prepare_tick_tasks ctx :
  length (tasks ctx) = 8%nat ->
  tasks (sim_prepare_tick ctx) = prepare_task <$> tasks ctx.
Proof.
  intros Hlen. apply list_eq. intros j. unfold sim_prepare_tick.
  change (tasks (set_tasks ?l ?c)) with l.
  rewrite (for_range_alter_lookup (fun _ => prepare_task)), list_lookup_fmap.
  case_decide; [done|].
  rewrite (lookup_ge_None_2 (tasks ctx)) by lia. done.
Qed.

Lemma sim_finalize_tick_tasks ctx :
  length (tasks ctx) = 8%nat ->
  tasks (sim_finalize_tick ctx) = finalize_task <$> tasks ctx.
Proof.
  intros Hlen. apply list_eq. intros j. unfold sim_finalize_tick.
  change (tasks (set_tasks ?l ?c)) with l.
  rewrite (for_range_alter_lookup (fun _ => finalize_task)), list_lookup_fmap.
  case_decide; [done|].
  rewrite (lookup_ge_None_2 (tasks ctx)) by lia. done.
Qed.

Lemma rr_scan_tasks ctx a n :
  unselect <$> tasks (fst (rr_scan ctx a n)) = unselect <$> tasks ctx.
Proof.
  revert a. induction n as [|n IH]; intros a; simpl; [done|].
  destruct (ready _ && negb _); [|apply IH]. simpl.
  apply list_eq. intros j. rewrite !list_lookup_fmap.
  destruct (decide (j = Z.to_nat (Z.rem (rr_index ctx + Z.of_nat a) SIM_TASK_COUNT)))
    as [->|Hne].
  - rewrite list_lookup_alter_eq. destruct (tasks ctx !! _); [|done].
    simpl. by rewrite unselect_set.
  - by rewrite list_lookup_alter_ne.
Qed.

Lemma mark_selected_tasks ctx b :
  unselect <$> tasks (fst (mark_selected ctx b)) = unselect <$> tasks ctx.
Proof.
  unfold mark_selected. destruct (0 <=? b); [|done]. simpl.
  apply list_eq. intros j. rewrite !list_lookup_fmap.
  destruct (decide (j = Z.to_nat b)) as [->|Hne].
  - rewrite list_lookup_alter_eq. destruct (tasks ctx !! _); [|done].
    simpl. by rewrite unselect_set.
  - by rewrite list_lookup_alter_ne.
Qed.

Lemma select_task_tasks ty cpu ctx :
  unselect <$> tasks (fst (select_task ty cpu ctx)) = unselect <$> tasks ctx.
Proof.
  destruct ty; simpl;
    [apply rr_scan_tasks | apply mark_selected_tasks | apply mark_selected_tasks].
Qed.

Lemma assign_cpus_tasks ty ctx :
  unselect <$> tasks (fst (assign_cpus ty ctx)) = unselect <$> tasks ctx.
Proof.
  unfold assign_cpus.
  apply (for_range_ind
    (fun _ (s : sim_context_t * list Z) =>
       unselect <$> tasks (fst s) = unselect <$> tasks ctx) 0 4); [done|].
  intros i [c a] _ H. cbn [fst snd] in *.
  pose proof (select_task_tasks ty i c) as Hs.
  destruct (select_task ty i c) as [c' idx]. cbn [fst] in *. congruence.
Qed.

Lemma assign_cpus_length ty ctx : length (snd (assign_cpus ty ctx)) = 4%nat.
Proof.
  unfold assign_cpus.
  apply (for_range_ind
    (fun _ (s : sim_context_t * list Z) => length (snd s) = 4%nat) 0 4); [done|].
  intros i [c a] _ H. cbn [fst snd] in *.
  destruct (select_task ty i c) as [c' idx]. cbn [snd]. by rewrite length_insert.
Qed.

(** Tasks that agree up to [selected_this_tick]. *)
Lemma unselect_lookup (l l' : list sim_task_t) i t :
  unselect <$> l' = unselect <$> l -> l !! i = Some t ->
  exists t', l' !! i = Some t' /\ unselect t' = unselect t.
Proof.
  intros Heq Hl.
  assert (H : (unselect <$> l') !! i = (unselect <$> l) !! i) by by rewrite Heq.
  rewrite !list_lookup_fmap, Hl in H. destruct (l' !! i) as [t'|]; [|done].
  exists t'. split; [done|]. simpl in H. congruence.
Qed.

(** The task that [sim_update_task_stats] writes back, next to the task it
    read. *)
Definition scheduled_from (ctx : sim_context_t) (t t' : sim_task_t) : Prop :=
  wait_time t' = 0 /\ priority_boost_aging t' = 0
  /\ scheduled_this_tick t' = true
  /\ last_scheduled_tick t' = tick ctx
  /\ base_priority t' = base_priority t
  /\ intent t' = intent t /\ preferred_type t' = preferred_type t
  /\ preferred_numa t' = preferred_numa t
  /\ selected_this_tick t' = selected_this_tick t.

Lemma update_tasks ctx st cpu idx :
  (idx < 0 -> tasks (fst (sim_update_task_stats ctx st cpu idx)) = tasks ctx)
  /\ (0 <= idx ->
      exists t', tasks (fst (sim_update_task_stats ctx st cpu idx))
                 = <[Z.to_nat idx := t']> (tasks ctx)
        /\ scheduled_from ctx (task_at ctx (Z.to_nat idx)) t').
Proof.
  unfold sim_update_task_stats. split; intros Hi.
  - destruct (Z.ltb_spec idx 0); [done | lia].
  - destruct (Z.ltb_spec idx 0); [lia|]. cbv zeta. cbn [fst tasks].
    eexists. split; [reflexivity|]. unfold scheduled_from.
    set (t := task_at ctx (Z.to_nat idx)).
    repeat match goal with
           | |- context [if ?b then _ else _] => destruct b
           end; cbn; done.
Qed.

Definition sched_fields (t : sim_task_t) : Prop :=
  wait_time t = 0 /\ priority_boost_aging t = 0 /\ scheduled_this_tick t = true.

Lemma update_cpus_tasks assigned s :
  let s' := update_cpus assigned s in
  length (tasks (fst s')) = length (tasks (fst s))
  /\ forall i t, tasks (fst s) !! i = Some t ->
       ((exists cpu, (cpu < 4)%nat /\ default 0 (assigned !! cpu) = Z.of_nat i) ->
          exists t', tasks (fst s') !! i = Some t' /\ sched_fields t')
       /\ ((forall cpu, (cpu < 4)%nat -> default 0 (assigned !! cpu) <> Z.of_nat i) ->
          tasks (fst s') !! i = Some t).
Proof.
  cbv zeta. unfold update_cpus.
  apply (for_range_ind
    (fun k (x : sim_context_t * Stats.scheduler_stats_t) =>
       length (tasks (fst x)) = length (tasks (fst s))
       /\ forall i t, tasks (fst s) !! i = Some t ->
            ((exists cpu, (cpu < k)%nat /\ default 0 (assigned !! cpu) = Z.of_nat i) ->
               exists t', tasks (fst x) !! i = Some t' /\ sched_fields t')
            /\ ((forall cpu, (cpu < k)%nat -> default 0 (assigned !! cpu) <> Z.of_nat i) ->
               tasks (fst x) !! i = Some t)) 0 4).
  - split; [done|]. intros i t Ht. split; [|done]. intros (cpu & Hc & _). lia.
  - intros k [c st] Hk [Hlen Hall]. cbn [fst snd] in *.
    set (idx := default 0 (assigned !! k)).
    destruct (update_tasks c st (Z.of_nat k) idx) as [Hidle Hbusy].
    destruct (Z.lt_ge_cases idx 0) as [Hneg|Hpos].
    + rewrite (Hidle Hneg). split; [done|]. intros i t Ht.
      destruct (Hall i t Ht) as [Hsome Hnone]. split.
      * intros (cpu & Hc & Hcpu). apply Hsome.
        destruct (decide (cpu = k)) as [->|Hne]; [fold idx in Hcpu; lia|].
        exists cpu. split; [lia | done].
      * intros Hno. apply Hnone. intros cpu Hc. apply Hno. lia.
    + destruct (Hbusy Hpos) as (t' & -> & Hfrom).
      rewrite length_insert. split; [done|]. intros i t Ht.
      destruct (Hall i t Ht) as [Hsome Hnone].
      destruct (decide (Z.to_nat idx = i)) as [Heq|Hne].
      * split.
        -- intros _. exists t'. split.
           ++ rewrite Heq. apply list_lookup_insert_eq. rewrite Hlen.
              by apply lookup_lt_Some in Ht.
           ++ destruct Hfrom as (? & ? & ? & _). done.
        -- intros Hno. exfalso. apply (Hno k); [lia|]. fold idx. lia.
      * rewrite list_lookup_insert_ne by done. split.
        -- intros (cpu & Hc & Hcpu). apply Hsome.
           destruct (decide (cpu = k)) as [->|Hnek]; [fold idx in Hcpu; lia|].
           exists cpu. split; [lia | done].
        -- intros Hno. apply Hnone. intros cpu Hc. apply Hno. lia.
Qed.

Lemma prepare_task_aging t :
  wait_time (prepare_task t) = wait_time t
  /\ priority_boost_aging (prepare_task t) = priority_boost_aging t
  /\ scheduled_this_tick (prepare_task t) = false.
Proof.
  unfold prepare_task. cbv zeta.
  repeat match goal with
         | |- context [if ?b then _ else _] => destruct b
         end; done.
Qed.

Lemma finalize_task_aging t :
  let waited := ready t && negb (scheduled_this_tick t) in
  wait_time (finalize_task t) =
    (if waited then u32 (wait_time t + 1) else wait_time t)
  /\ priority_boost_aging (finalize_task t) =
    (if waited && (AGING_THRESHOLD <? u32 (wait_time t + 1))
     then AGING_PRIORITY_BOOST else priority_boost_aging t).
Proof.
  unfold finalize_task. cbv zeta.
  destruct (decide (intent t = PROFILE_LOW_LATENCY));
    [destruct ((0 <? work_remaining t) && negb (scheduled_this_tick t));
       [|destruct (work_remaining t =? 0)]|];
    cbn [ready scheduled_this_tick wait_time set_waiting_since_ready];
    destruct (ready t && negb (scheduled_this_tick t)); cbn;
    repeat match goal with
           | |- context [if ?b then _ else _] => destruct b
           end; done.
Qed.

Lemma assigned_elem (assigned : list Z) x :
  length assigned = 4%nat ->
  x ∈ assigned <-> exists cpu, (cpu < 4)%nat /\ default 0 (assigned !! cpu) = x.
Proof.
  intros Hlen. rewrite list_elem_of_lookup. split.
  - intros [cpu Hc]. exists cpu. split.
    + apply lookup_lt_Some in Hc. lia.
    + by rewrite Hc.
  - intros (cpu & Hc & Hx). exists cpu.
    destruct (lookup_lt_is_Some_2 assigned cpu ltac:(lia)) as [y Hy].
    rewrite Hy in *. simpl in Hx. congruence.
Qed.

(** One iteration of the tick loop, seen from task [i]. *)
Lemma tick_task ty s i t0 :
  length (tasks (fst s)) = 8%nat ->
  tasks (fst s) !! i = Some t0 ->
  let c1 := sim_prepare_tick (fst s) in
  let asg := snd (assign_cpus ty c1) in
  length (tasks (fst (tick_step ty s))) = 8%nat
  /\ exists t1 t4,
       tasks c1 !! i = Some t1
       /\ tasks (fst (tick_step ty s)) !! i = Some t4
       /\ (Z.of_nat i ∈ asg ->
           wait_time t4 = 0 /\ priority_boost_aging t4 = 0)
       /\ (Z.of_nat i ∉ asg ->
           wait_time t4 = (if ready t1 then u32 (wait_time t0 + 1) else wait_time t0)
           /\ priority_boost_aging t4 =
              (if ready t1 && (AGING_THRESHOLD <? u32 (wait_time t0 + 1))
               then AGING_PRIORITY_BOOST else priority_boost_aging t0)).
Proof.
  intros Hlen Ht0. cbv zeta.
  set (c1 := sim_prepare_tick (fst s)).
  assert (Hc1 : tasks c1 = prepare_task <$> tasks (fst s))
    by by apply sim_prepare_tick_tasks.
  assert (Ht1 : tasks c1 !! i = Some (prepare_task t0)).
  { by rewrite Hc1, list_lookup_fmap, Ht0. }
  pose proof (assign_cpus_tasks ty c1) as Hsel.
  pose proof (assign_cpus_length ty c1) as Hasg.
  destruct (unselect_lookup _ _ i _ Hsel Ht1) as (t2 & Ht2 & Hun).
  set (s1 := (fst (assign_cpus ty c1),
              Stats.set_total_ticks (u64 (Stats.total_ticks (snd s) + 1)) (snd s))).
  destruct (update_cpus_tasks (snd (assign_cpus ty c1)) s1) as [Hlen3 Hupd].
  assert (Hlen2 : length (tasks (fst s1)) = 8%nat).
  { unfold s1. cbn [fst].
    assert (H : length (unselect <$> tasks (fst (assign_cpus ty c1))) = 8%nat).
    { rewrite Hsel, length_fmap, Hc1, length_fmap. done. }
    by rewrite length_fmap in H. }
  rewrite Hlen2 in Hlen3.
  assert (Hfin : tasks (fst (tick_step ty s)) =
                 finalize_task <$> tasks (fst (update_cpus (snd (assign_cpus ty c1)) s1))).
  { unfold tick_step, next_tick. cbn [fst].
    change (tasks (set_tick ?v ?c)) with (tasks c).
    rewrite fst_sim_tick_body. by apply sim_finalize_tick_tasks. }
  split; [by rewrite Hfin, length_fmap|].
  destruct (Hupd i t2 Ht2) as [Hsched Hnot].
  destruct (prepare_task_aging t0) as (Hw1 & Hb1 & Hs1).
  assert (Hf2 : wait_time t2 = wait_time t0
                /\ priority_boost_aging t2 = priority_boost_aging t0
                /\ scheduled_this_tick t2 = false
                /\ ready t2 = ready (prepare_task t0)).
  { rewrite <- Hw1, <- Hb1, <- Hs1.
    change (wait_time t2) with (wait_time (unselect t2)).
    change (priority_boost_aging t2) with (priority_boost_aging (unselect t2)).
    change (scheduled_this_tick t2) with (scheduled_this_tick (unselect t2)).
    change (ready t2) with (ready (unselect t2)).
    by rewrite Hun. }
  destruct Hf2 as (Hw2 & Hb2 & Hs2 & Hr2).
  destruct (decide (Z.of_nat i ∈ snd (assign_cpus ty c1))) as [Hin|Hout].
  - destruct Hsched as (t3 & Ht3 & Hw3 & Hb3 & Hs3).
    { by apply assigned_elem. }
    exists (prepare_task t0), (finalize_task t3).
    split; [done|]. split; [by rewrite Hfin, list_lookup_fmap, Ht3|].
    split; [|done]. intros _.
    destruct (finalize_task_aging t3) as [Hw4 Hb4]. cbv zeta in *.
    rewrite Hs3, andb_false_r in *. simpl in *. lia.
  - assert (Ht3 : tasks (fst (update_cpus (snd (assign_cpus ty c1)) s1)) !! i = Some t2).
    { apply Hnot. intros cpu Hc Heq. apply Hout. apply assigned_elem; [done|].
      by exists cpu. }
    exists (prepare_task t0), (finalize_task t2).
    split; [done|]. split; [by rewrite Hfin, list_lookup_fmap, Ht3|].
    split; [done|]. intros _.
    destruct (finalize_task_aging t2) as [Hw4 Hb4]. cbv zeta in *.
    rewrite Hs2, andb_true_r, Hr2, Hw2, Hb2 in *. done.
Qed.

(** ** Aging *)

Definition aging_ok (n : nat) (t : sim_task_t) : Prop :=
  0 <= wait_time t <= Z.of_nat n
  /\ (AGING_THRESHOLD < wait_time t -> priority_boost_aging t = AGING_PRIORITY_BOOST).

Lemma sim_start_tasks :
  length (tasks (fst sim_start)) = 8%nat
  /\ Forall (aging_ok 0) (tasks (fst sim_start)).
Proof.
  split; [reflexivity|].
  repeat constructor; simpl; unfold AGING_THRESHOLD; lia.
Qed.

Lemma sim_run_aging ty n :
  Z.of_nat n < 4294967296 ->
  length (tasks (fst (sim_run ty n))) = 8%nat
  /\ forall i t, tasks (fst (sim_run ty n)) !! i = Some t -> aging_ok n t.
Proof.
  induction n as [|n IH]; intros Hn.
  - destruct sim_start_tasks as [Hlen Hall]. split; [exact Hlen|].
    intros i t Hi. by apply (Forall_lookup_1 _ _ _ _ Hall Hi).
  - destruct (IH ltac:(lia)) as [Hlen Hall].
    change (sim_run ty (S n)) with (tick_step ty (sim_run ty n)).
    split.
    + destruct (lookup_lt_is_Some_2 (tasks (fst (sim_run ty n))) 0%nat ltac:(lia))
        as [t0 Ht0].
      by destruct (tick_task ty _ _ _ Hlen Ht0) as [H _].
    + intros i t Hi.
      assert (Hlt : (i < 8)%nat).
      { apply lookup_lt_Some in Hi.
        destruct (lookup_lt_is_Some_2 (tasks (fst (sim_run ty n))) 0%nat ltac:(lia))
          as [t0 Ht0].
        destruct (tick_task ty _ _ _ Hlen Ht0) as [H _]. lia. }
      destruct (lookup_lt_is_Some_2 (tasks (fst (sim_run ty n))) i ltac:(lia))
        as [t0 Ht0].
      destruct (tick_task ty _ _ _ Hlen Ht0) as (_ & t1 & t4 & _ & Ht4 & Hin & Hout).
      rewrite Hi in Ht4. injection Ht4 as <-.
      destruct (Hall i t0 Ht0) as [Hw Hb].
      unfold aging_ok, AGING_THRESHOLD, AGING_PRIORITY_BOOST in *.
      destruct (decide (Z.of_nat i ∈ snd (assign_cpus ty (sim_prepare_tick (fst (sim_run ty n))))))
        as [Hi'|Hi'].
      * destruct (Hin Hi') as [-> ->]. lia.
      * destruct (Hout Hi') as [-> ->].
        rewrite u32_small by lia.
        destruct (ready t1); simpl; [|lia].
        destruct (Z.ltb_spec 100 (wait_time t0 + 1)); lia.
Qed.

(** C3.  One tick from any simulator state with its eight tasks, under any
    policy: a task that is ready after [sim_prepare_tick] and is assigned to
    no CPU has [wait_time] incremented and, once that exceeds
    [AGING_THRESHOLD], [priority_boost_aging] set to [AGING_PRIORITY_BOOST];
    a task that is assigned to a CPU has both fields reset to 0; and a
    [wait_time] above the threshold never goes without the boost.  Hence in
    every tick of the workload every task with [wait_time > AGING_THRESHOLD]
    carries the boost. *)
Theorem sim_aging (ty : scheduler_type_t) :
  (forall s i t0,
     length (tasks (fst s)) = 8%nat ->
     tasks (fst s) !! i = Some t0 ->
     0 <= wait_time t0 < 4294967295 ->
     let c1 := sim_prepare_tick (fst s) in
     let assigned := snd (assign_cpus ty c1) in
     exists t1 t4,
       tasks c1 !! i = Some t1
       /\ tasks (fst (tick_step ty s)) !! i = Some t4
       /\ (ready t1 = true -> Z.of_nat i ∉ assigned ->
           wait_time t4 = wait_time t0 + 1
           /\ (AGING_THRESHOLD < wait_time t4 ->
               priority_boost_aging t4 = AGING_PRIORITY_BOOST))
       /\ (Z.of_nat i ∈ assigned ->
           wait_time t4 = 0 /\ priority_boost_aging t4 = 0)
       /\ ((AGING_THRESHOLD < wait_time t0 ->
            priority_boost_aging t0 = AGING_PRIORITY_BOOST) ->
           AGING_THRESHOLD < wait_time t4 ->
           priority_boost_aging t4 = AGING_PRIORITY_BOOST))
  /\ (forall (n : nat) i t,
        Z.of_nat n < 4294967296 ->
        tasks (fst (sim_run ty n)) !! i = Some t ->
        AGING_THRESHOLD < wait_time t ->
        priority_boost_aging t = AGING_PRIORITY_BOOST).
Proof.
  split.
  - intros s i t0 Hlen Ht0 Hw. cbv zeta.
    destruct (tick_task ty _ _ _ Hlen Ht0) as (_ & t1 & t4 & Ht1 & Ht4 & Hin & Hout).
    exists t1, t4. split; [done|]. split; [done|].
    unfold AGING_THRESHOLD, AGING_PRIORITY_BOOST in *.
    split; [|split].
    + intros Hr Hno. destruct (Hout Hno) as [-> ->].
      rewrite Hr, u32_small by lia. split; [done|]. simpl.
      intros H. destruct (Z.ltb_spec 100 (wait_time t0 + 1)); [done | lia].
    + exact Hin.
    + intros Hinv.
      destruct (decide (Z.of_nat i ∈ snd (assign_cpus ty (sim_prepare_tick (fst s)))))
        as [Hi|Hi].
      * destruct (Hin Hi) as [-> ->]. lia.
      * destruct (Hout Hi) as [-> ->]. rewrite u32_small by lia.
        destruct (ready t1); simpl; [|exact Hinv].
        destruct (Z.ltb_spec 100 (wait_time t0 + 1)); lia.
  - intros n i t Hn Hi. destruct (sim_run_aging ty n Hn) as [_ Hall].
    by destruct (Hall i t Hi) as [_ H].
Qed.

(** The start state with the waiting time of task 7 moved to the
    threshold. *)
Definition long_waiting : sim_context_t * Stats.scheduler_stats_t :=
  (set_tasks (alter (set_wait_time 100) 7%nat (tasks (fst sim_start))) (fst sim_start),
   Stats.stats_zero).

Lemma sim_aging_witness :
  (exists t4, tasks (fst (tick_step SCHED_HTAS long_waiting)) !! 7%nat = Some t4
     /\ wait_time t4 = 101 /\ priority_boost_aging t4 = 5)
  /\ (exists t4, tasks (fst (tick_step SCHED_HTAS long_waiting)) !! 0%nat = Some t4
        /\ wait_time t4 = 0 /\ priority_boost_aging t4 = 0).
Proof.
  destruct (sim_aging SCHED_HTAS) as [Htick _].
  split.
  - destruct (Htick long_waiting 7%nat
                (set_wait_time 100 (task_at (fst sim_start) 7)))
      as (t1 & t4 & Ht1 & Ht4 & Hwait & _ & _);
      [reflexivity | reflexivity | simpl; lia |].
    exists t4. split; [exact Ht4|].
    injection Ht1 as <-.
    destruct Hwait as [Hw Hb].
    + reflexivity.
    + vm_compute. intros H. apply list_elem_of_In in H. simpl in H.
      repeat (destruct H as [H|H]; [discriminate|]). exact H.
    + split; [exact Hw|]. apply Hb. rewrite Hw. vm_compute. reflexivity.
  - destruct (Htick long_waiting 0%nat (task_at (fst sim_start) 0))
      as (t1 & t4 & _ & Ht4 & _ & Hsched & _);
      [reflexivity | reflexivity | simpl; lia |].
    exists t4. split; [exact Ht4|]. apply Hsched.
    vm_compute. apply list_elem_of_In. simpl. tauto.
Defined.

(** ** States the simulator reaches *)

(** Every state that the driver's steps produce from [sim_init_tasks], in
    any order and for any policy. *)
Inductive sim_reachable : sim_context_t -> Prop :=
  | reach_init ctx0 : sim_reachable (set_tick 0 (sim_init_tasks ctx0))
  | reach_prepare c : sim_reachable c -> sim_reachable (sim_prepare_tick c)
  | reach_select c ty cpu :
      sim_reachable c -> sim_reachable (fst (select_task ty cpu c))
  | reach_update c st cpu idx :
      sim_reachable c -> sim_reachable (fst (sim_update_task_stats c st cpu idx))
  | reach_finalize c : sim_reachable c -> sim_reachable (sim_finalize_tick c)
  | reach_next c :
      sim_reachable c -> tick c + 1 < 4294967296 ->
      sim_reachable (set_tick (u32 (tick c + 1)) c).

Definition task_ok (tk : Z) (t : sim_task_t) : Prop :=
  10 <= base_priority t <= 12
  /\ (priority_boost_aging t = 0 \/ priority_boost_aging t = 5)
  /\ 0 <= last_scheduled_tick t <= tk.

Definition reach_inv (c : sim_context_t) : Prop :=
  length (tasks c) = 8%nat /\ 0 <= tick c < 4294967296
  /\ Forall (task_ok (tick c)) (tasks c).

Lemma task_ok_unselect tk t : task_ok tk (unselect t) <-> task_ok tk t.
Proof. by destruct t. Qed.

Lemma prepare_task_ok tk t : task_ok tk t -> task_ok tk (prepare_task t).
Proof.
  unfold task_ok, prepare_task. cbv zeta.
  repeat match goal with
         | |- context [if ?b then _ else _] => destruct b
         end; done.
Qed.

Lemma finalize_task_ok tk t : task_ok tk t -> task_ok tk (finalize_task t).
Proof.
  intros (Hb & Ha & Hl).
  destruct (finalize_task_aging t) as [_ Hboost]. cbv zeta in Hboost.
  assert (Hsame : base_priority (finalize_task t) = base_priority t
                  /\ last_scheduled_tick (finalize_task t) = last_scheduled_tick t).
  { unfold finalize_task. cbv zeta.
    repeat match goal with
           | |- context [if ?b then _ else _] => destruct b
           end; done. }
  destruct Hsame as [Hsb Hsl]. unfold task_ok. rewrite Hsb, Hsl, Hboost.
  split; [done|]. split; [|done].
  unfold AGING_PRIORITY_BOOST. destruct (_ && _); [by right | done].
Qed.

Lemma Forall_unselect (P : sim_task_t -> Prop) (l l' : list sim_task_t) :
  (forall t, P (unselect t) <-> P t) ->
  unselect <$> l' = unselect <$> l -> Forall P l -> Forall P l'.
Proof.
  intros HP Heq Hl. apply Forall_lookup_2. intros i t' Ht'.
  destruct (unselect_lookup l' l i t' (eq_sym Heq) Ht') as (t & Ht & Hun).
  apply HP. rewrite <- Hun. apply HP.
  by apply (Forall_lookup_1 _ _ _ _ Hl Ht).
Qed.

Lemma length_unselect (l l' : list sim_task_t) :
  unselect <$> l' = unselect <$> l -> length l' = length l.
Proof.
  intros H. assert (H' : length (unselect <$> l') = length (unselect <$> l))
    by by rewrite H.
  by rewrite !length_fmap in H'.
Qed.

Lemma task_at_lookup ctx i t : tasks ctx !! i = Some t -> task_at ctx i = t.
Proof. intros H. unfold task_at. by rewrite H. Qed.

Lemma reach_inv_holds c : sim_reachable c -> reach_inv c.
Proof.
  induction 1 as [ctx0|c Hc IH|c ty cpu Hc IH|c st cpu idx Hc IH|c Hc IH|c Hc IH Ht];
    unfold reach_inv in *.
  - split; [reflexivity|]. split; [simpl; lia|].
    repeat constructor; simpl; lia.
  - destruct IH as (Hlen & Htk & Hall).
    rewrite sim_prepare_tick_tasks by done.
    split; [by rewrite length_fmap|]. split; [done|].
    apply Forall_fmap. eapply List.Forall_impl; [|exact Hall].
    intros t Ht. by apply prepare_task_ok.
  - destruct IH as (Hlen & Htk & Hall).
    pose proof (select_task_tasks ty cpu c) as Hsel.
    pose proof (select_task_frame ty cpu c) as [Htick _].
    rewrite Htick. split; [by rewrite (length_unselect _ _ Hsel)|].
    split; [done|].
    eapply Forall_unselect; [apply task_ok_unselect | exact Hsel | exact Hall].
  - destruct IH as (Hlen & Htk & Hall).
    rewrite update_tick.
    destruct (update_tasks c st cpu idx) as [Hidle Hbusy].
    destruct (Z.lt_ge_cases idx 0) as [Hneg|Hpos].
    + by rewrite (Hidle Hneg).
    + destruct (Hbusy Hpos) as (t' & -> & Hfrom).
      rewrite length_insert. split; [done|]. split; [done|].
      destruct (decide (Z.to_nat idx < length (tasks c))%nat) as [Hin|Hout].
      * apply Forall_insert; [exact Hall|].
        destruct (lookup_lt_is_Some_2 _ _ Hin) as [t Ht].
        rewrite (task_at_lookup _ _ _ Ht) in Hfrom.
        pose proof (Forall_lookup_1 _ _ _ _ Hall Ht) as (Hb & _ & _).
        destruct Hfrom as (_ & Hboost & _ & Hlast & Hbase & _).
        unfold task_ok. rewrite Hboost, Hlast, Hbase.
        split; [done|]. split; [by left | lia].
      * rewrite list_insert_ge by lia. exact Hall.
  - destruct IH as (Hlen & Htk & Hall).
    rewrite sim_finalize_tick_tasks by done.
    split; [by rewrite length_fmap|]. split; [done|].
    apply Forall_fmap. eapply List.Forall_impl; [|exact Hall].
    intros t Ht'. by apply finalize_task_ok.
  - destruct IH as (Hlen & Htk & Hall). simpl.
    rewrite u32_small by lia. split; [done|]. split; [lia|].
    eapply List.Forall_impl; [|exact Hall].
    intros t (Hb & Ha & Hl). unfold task_ok. repeat split; try done; lia.
Qed.

(** The states of [simulate_workload] at which a policy is called are
    among them. *)
Lemma sim_run_reachable ty n :
  Z.of_nat n < 4294967296 -> sim_reachable (fst (sim_run ty n)).
Proof.
  induction n as [|n IH]; intros Hn.
  - exact (reach_init sim_context_zero).
  - specialize (IH ltac:(lia)).
    assert (Htick : tick (fst (sim_run ty n)) = Z.of_nat n).
    { clear IH. induction n as [|n IHn]; [done|].
      rewrite sim_run_S. unfold next_tick. simpl.
      rewrite sim_tick_body_tick, IHn by lia. rewrite u32_small by lia. lia. }
    rewrite sim_run_S. unfold next_tick.
    change (fst (?a, ?b)) with a.
    rewrite <- (sim_tick_body_tick ty (sim_run ty n)) in Htick.
    apply reach_next; [|lia].
    rewrite fst_sim_tick_body. apply reach_finalize.
    unfold update_cpus.
    apply (for_range_ind
      (fun _ (x : sim_context_t * Stats.scheduler_stats_t) => sim_reachable (fst x))
      0 4).
    + cbn [fst]. unfold assign_cpus.
      apply (for_range_ind
        (fun _ (x : sim_context_t * list Z) => sim_reachable (fst x)) 0 4).
      * cbn [fst]. by apply reach_prepare.
      * intros i [c a] _ Hc. cbn [fst snd] in *.
        pose proof (reach_select c ty i Hc) as Hs.
        by destruct (select_task ty i c).
    + intros i [c st] _ Hc. cbn [fst snd] in *. by apply reach_update.
Qed.

(** ** The hint-scored policy *)

(** The score as the specification's table gives it. *)
Definition kind_term (preferred cpu : cpu_type_t) : Z :=
  match preferred, cpu with
  | CPU_TYPE_PCORE, CPU_TYPE_PCORE => 12
  | CPU_TYPE_ECORE, CPU_TYPE_ECORE => 12
  | CPU_TYPE_PCORE, CPU_TYPE_ECORE => -8
  | CPU_TYPE_ECORE, CPU_TYPE_PCORE => -6
  end.

Definition numa_term (preferred cpu_node : Z) : Z :=
  if preferred <? NUM_NUMA_NODES
  then (if preferred =? cpu_node then 8 else -6)
  else 0.

Definition latency_term (t : sim_task_t) : Z :=
  if decide (intent t = PROFILE_LOW_LATENCY)
  then 15 + (if 0 <? waiting_since_ready t then 15 else 0)
  else 0.

Definition htas_score_spec (tk : Z) (cpu : cpu_info_t) (t : sim_task_t) : Z :=
  base_priority t
  + kind_term (preferred_type t) (type cpu)
  + numa_term (preferred_numa t) (numa_node cpu)
  + latency_term t
  + (tk - last_scheduled_tick t) / 4
  + priority_boost_aging t.

(** A task the policy considers: ready and not yet selected this tick. *)
Definition candidate (ctx : sim_context_t) (i : nat) : Prop :=
  ready (task_at ctx i) = true /\ selected_this_tick (task_at ctx i) = false.

(** The invariant of the selection loop after the tasks below [k]. *)
Definition best_inv (score_of : sim_task_t -> Z) (ctx : sim_context_t)
    (k : nat) (b : Z * Z) : Prop :=
  (fst b = -1 /\ snd b = -1000
   /\ forall j, (j < k)%nat -> candidate ctx j -> score_of (task_at ctx j) <= -1000)
  \/ (exists m, (m < k)%nat /\ fst b = Z.of_nat m /\ candidate ctx m
        /\ snd b = score_of (task_at ctx m) /\ -1000 < snd b
        /\ forall j, (j < k)%nat -> candidate ctx j ->
             score_of (task_at ctx j) < snd b
             \/ (score_of (task_at ctx j) = snd b /\ (m <= j)%nat)).

Lemma best_step_inv score_of ctx i b :
  best_inv score_of ctx i b -> best_inv score_of ctx (S i) (best_step score_of ctx i b).
Proof.
  unfold best_step, best_inv.
  assert (Hkeep :
    (candidate ctx i -> score_of (task_at ctx i) <= snd b) ->
    best_inv score_of ctx i b -> best_inv score_of ctx (S i) b).
  { intros Hle [(H1 & H2 & Hall)|(m & Hm & H1 & Hc & H2 & H3 & Hall)].
    - left. split; [done|]. split; [done|]. intros j Hj Hjc.
      destruct (decide (j = i)) as [->|Hne]; [specialize (Hle Hjc); lia|].
      apply Hall; [lia | done].
    - right. exists m. split; [lia|]. do 4 (split; [done|]).
      intros j Hj Hjc. destruct (decide (j = i)) as [->|Hne].
      + specialize (Hle Hjc). lia.
      + apply Hall; [lia | done]. }
  unfold best_inv in Hkeep.
  destruct (ready (task_at ctx i)) eqn:Hr; cbn [negb orb].
  2:{ apply Hkeep. intros [Hc _]. congruence. }
  destruct (selected_this_tick (task_at ctx i)) eqn:Hs.
  { apply Hkeep. intros [_ Hc]. congruence. }
  destruct (Z.ltb_spec (snd b) (score_of (task_at ctx i))) as [Hlt|Hge].
  - intros Hinv. right. exists i. cbn [fst snd].
    split; [lia|]. split; [done|]. split; [by split|]. split; [done|].
    destruct Hinv as [(H1 & H2 & Hall)|(m & Hm & H1 & Hc & H2 & H3 & Hall)].
    + split; [lia|]. intros j Hj Hjc.
      destruct (decide (j = i)) as [->|Hne]; [right; lia|].
      left. specialize (Hall j ltac:(lia) Hjc). lia.
    + split; [lia|]. intros j Hj Hjc.
      destruct (decide (j = i)) as [->|Hne]; [right; lia|].
      left. specialize (Hall j ltac:(lia) Hjc). lia.
  - apply Hkeep. intros _. exact Hge.
Qed.

Lemma best_loop_inv score_of ctx :
  best_inv score_of ctx 8 (for_range 0 8 (best_step score_of ctx) (-1, -1000)).
Proof.
  change 8%nat with (0 + 8)%nat at 1.
  apply (for_range_ind (best_inv score_of ctx)).
  - left. repeat split; try done. intros j Hj. lia.
  - intros i x _. apply best_step_inv.
Qed.

(** Where [tick - last_scheduled_tick] does not wrap around as a
    [uint32_t], the code's score is the table's score. *)
Lemma htas_score_table ctx cpu t :
  0 <= tick ctx - last_scheduled_tick t < 4294967296 ->
  htas_score ctx cpu t = htas_score_spec (tick ctx) (cpu_at cpu) t.
Proof.
  intros Hage.
  unfold htas_score, htas_score_spec, kind_term, numa_term, latency_term.
  cbv zeta. rewrite u32_small by lia.
  rewrite (Z.eqb_sym (numa_node (cpu_at cpu))).
  destruct (preferred_type t), (type (cpu_at cpu));
    destruct (preferred_numa t <? NUM_NUMA_NODES);
    destruct (preferred_numa t =? numa_node (cpu_at cpu));
    destruct (decide (intent t = PROFILE_LOW_LATENCY));
    destruct (0 <? waiting_since_ready t);
    repeat case_decide; try congruence; lia.
Qed.

(** The range of [int]. *)
Definition int_ok (x : Z) : Prop := -2147483648 <= x <= 2147483647.

(** Every value the local [int score] takes while the table's terms are
    added one after the other lies in the range of [int], so that the
    additions of the code are the additions of the table. *)
Definition score_fits (tk : Z) (cpu : cpu_info_t) (t : sim_task_t) : Prop :=
  let s1 := base_priority t + kind_term (preferred_type t) (type cpu) in
  let s2 := s1 + numa_term (preferred_numa t) (numa_node cpu) in
  let s3 := s2 + latency_term t in
  let s4 := s3 + (tk - last_scheduled_tick t) / 4 in
  int_ok (base_priority t) /\ int_ok s1 /\ int_ok s2 /\ int_ok s3 /\ int_ok s4
  /\ int_ok (s4 + priority_boost_aging t).

(** The conditions on a task under which the table describes what the
    selection loop does with it: the age [tick - last_scheduled_tick] does
    not wrap around, the score stays within [int], and the score is above
    the loop's initial [best_score] of -1000. *)
Definition scorable (ctx : sim_context_t) (cpu : Z) (t : sim_task_t) : Prop :=
  0 <= tick ctx - last_scheduled_tick t < 4294967296
  /\ score_fits (tick ctx) (cpu_at cpu) t
  /\ -1000 < htas_score_spec (tick ctx) (cpu_at cpu) t.

(** The conditions hold for every task of every state the driver reaches
    from [sim_init_tasks]. *)
Lemma reachable_scorable ctx cpu i :
  sim_reachable ctx -> (i < 8)%nat -> scorable ctx cpu (task_at ctx i).
Proof.
  intros Hreach Hi.
  destruct (reach_inv_holds ctx Hreach) as (Hlen & Htk & Hall).
  destruct (lookup_lt_is_Some_2 (tasks ctx) i ltac:(lia)) as [t Ht].
  rewrite (task_at_lookup _ _ _ Ht).
  pose proof (Forall_lookup_1 _ _ _ _ Hall Ht) as (Hb & Ha & Hl).
  assert (Hage : 0 <= (tick ctx - last_scheduled_tick t) / 4 < 1073741824).
  { split; [apply Z.div_pos; lia | apply Z.div_lt_upper_bound; lia]. }
  unfold scorable, score_fits, int_ok, htas_score_spec, kind_term, numa_term,
    latency_term.
  cbv zeta.
  destruct (preferred_type t), (type (cpu_at cpu));
    destruct (preferred_numa t <? NUM_NUMA_NODES);
    destruct (preferred_numa t =? numa_node (cpu_at cpu));
    destruct (decide (intent t = PROFILE_LOW_LATENCY));
    destruct (0 <? waiting_since_ready t);
    lia.
Qed.

(** C1.  For every CPU 0..3 and every context of eight tasks in which each
    ready, not yet selected task has an age [tick - last_scheduled_tick]
    that does not wrap around and a score that stays within [int] and above
    -1000: [sim_select_task_htas] scores a task as the table says (a
    preferred node that is not a valid node adds nothing), considers exactly
    the ready, not yet selected tasks and returns the one with the greatest
    score, the lowest index among equals; it returns -1 exactly when there is
    no such task, and it marks the task it returns as selected. *)
Theorem sim_select_task_htas_spec (ctx : sim_context_t) (cpu : Z) :
  length (tasks ctx) = 8%nat -> 0 <= cpu <= 3 ->
  (forall i, (i < 8)%nat -> candidate ctx i -> scorable ctx cpu (task_at ctx i)) ->
  let score i := htas_score_spec (tick ctx) (cpu_at cpu) (task_at ctx i) in
  let r := snd (sim_select_task_htas ctx cpu) in
  (forall t, 0 <= tick ctx - last_scheduled_tick t < 4294967296 ->
     htas_score ctx cpu t = htas_score_spec (tick ctx) (cpu_at cpu) t)
  /\ ((exists i, (i < 8)%nat /\ candidate ctx i) ->
      exists k, (k < 8)%nat /\ r = Z.of_nat k /\ candidate ctx k
        /\ forall j, (j < 8)%nat -> candidate ctx j ->
             score j < score k \/ (score j = score k /\ (k <= j)%nat))
  /\ (r = -1 <-> ~ exists i, (i < 8)%nat /\ candidate ctx i)
  /\ tasks (fst (sim_select_task_htas ctx cpu)) =
     (if 0 <=? r
      then alter (set_selected_this_tick true) (Z.to_nat r) (tasks ctx)
      else tasks ctx).
Proof.
  intros Hlen Hcpu Hok. cbv zeta.
  assert (Hscore : forall i, (i < 8)%nat -> candidate ctx i ->
            htas_score ctx cpu (task_at ctx i)
            = htas_score_spec (tick ctx) (cpu_at cpu) (task_at ctx i)
            /\ -1000 < htas_score ctx cpu (task_at ctx i)).
  { intros i Hi Hc. destruct (Hok i Hi Hc) as (Hage & _ & Hgt).
    rewrite (htas_score_table ctx cpu _ Hage). by split. }
  split; [intros t Ht; by apply htas_score_table|].
  pose proof (best_loop_inv (htas_score ctx cpu) ctx) as Hinv.
  unfold sim_select_task_htas.
  set (b := for_range 0 8 (best_step (htas_score ctx cpu) ctx) (-1, -1000)) in *.
  assert (Hr : snd (mark_selected ctx (fst b)) = fst b
               /\ tasks (fst (mark_selected ctx (fst b))) =
                  (if 0 <=? fst b
                   then alter (set_selected_this_tick true) (Z.to_nat (fst b)) (tasks ctx)
                   else tasks ctx)).
  { unfold mark_selected. by destruct (0 <=? fst b). }
  destruct Hr as [-> ->].
  destruct Hinv as [(H1 & H2 & Hnone)|(m & Hm & H1 & Hc & H2 & H3 & Hbest)].
  - assert (Hno : ~ exists i, (i < 8)%nat /\ candidate ctx i).
    { intros (i & Hi & Hci). specialize (Hnone i Hi Hci).
      destruct (Hscore i Hi Hci) as [_ Hgt]. lia. }
    split; [intros Hex; contradiction|]. split; [done | done].
  - split; [|split; [|done]].
    + intros _. exists m. repeat split; try done; try apply Hc.
      intros j Hj Hjc. destruct (Hscore j Hj Hjc) as [<- _].
      destruct (Hscore m Hm Hc) as [<- _]. rewrite <- H2. by apply Hbest.
    + split; [lia|]. intros Hno. exfalso. apply Hno. by exists m.
Qed.

(** A context of the eight tasks [ts] (padded with zero tasks) at tick
    [tk]. *)
Definition ctx_of (ts : list sim_task_t) (tk : Z) : sim_context_t :=
  mk_sim_context (ts ++ replicate (8 - length ts) sim_task_zero)
    (replicate 4 (-1)) 0 0 0 tk 0 Stats.stats_zero.

(** A ready task with the given hints, base priority, time waiting and tick
    of its last run. *)
Definition ready_task (it : task_intent_t) (pt : cpu_type_t) (pn bp w lst : Z)
  : sim_task_t :=
  set_ready true
    (set_waiting_since_ready w
      (set_last_scheduled_tick lst (task_literal "t" it pt pn bp 0 0 0 0 0))).

(** Three ready tasks at tick 40; the first names node 5, which is not a
    node of the machine. *)
Definition mixed_hints : sim_context_t :=
  ctx_of [ ready_task PROFILE_PERFORMANCE CPU_TYPE_PCORE 5 3 0 0;
           ready_task PROFILE_EFFICIENCY CPU_TYPE_ECORE 1 (-20) 0 0;
           ready_task PROFILE_LOW_LATENCY CPU_TYPE_PCORE 0 0 2 0 ] 40.

Lemma sim_select_task_htas_spec_witness :
  snd (sim_select_task_htas mixed_hints 0) = 2
  /\ htas_score mixed_hints 0 (task_at mixed_hints 0) = 3 + 12 + 0 + 0 + 10 + 0
  /\ htas_score mixed_hints 0 (task_at mixed_hints 1) = -20 - 6 - 6 + 0 + 10 + 0
  /\ htas_score mixed_hints 0 (task_at mixed_hints 2) = 0 + 12 + 8 + 30 + 10 + 0.
Proof.
  assert (Hok : forall i, (i < 8)%nat -> candidate mixed_hints i ->
                  scorable mixed_hints 0 (task_at mixed_hints i)).
  { intros i Hi _.
    do 8 (destruct i as [|i];
          [unfold scorable, score_fits, int_ok; cbv zeta;
           repeat split; vm_compute; first [reflexivity | discriminate]|]).
    lia. }
  destruct (sim_select_task_htas_spec mixed_hints 0 eq_refl ltac:(lia) Hok)
    as (Hscore & Hsome & _ & _).
  destruct Hsome as (k & Hk & Hr & Hck & Hbest).
  { exists 0%nat. split; [lia|]. split; reflexivity. }
  split; [vm_compute; reflexivity|].
  rewrite !Hscore by (vm_compute; split; [discriminate | reflexivity]).
  repeat split; vm_compute; reflexivity.
Defined.

(** A context whose only candidate scores -2000, below the loop's initial
    [best_score]. *)
Definition low_scored : sim_context_t :=
  ctx_of [ ready_task PROFILE_PERFORMANCE CPU_TYPE_PCORE 0 (-2020) 0 0 ] 0.

(** A context at tick 0 whose second task carries a later
    [last_scheduled_tick]. *)
Definition stale_tick : sim_context_t :=
  ctx_of [ ready_task PROFILE_PERFORMANCE CPU_TYPE_PCORE 0 12 0 0;
           ready_task PROFILE_PERFORMANCE CPU_TYPE_PCORE 0 10 0 5 ] 0.

(** C1, as first stated for every simulator state, fails in two ways.  A
    sole candidate whose score is not above -1000 is not returned: the
    function returns -1 although a ready, not yet selected task exists.  And
    where [last_scheduled_tick] is later than [tick] the age wraps around:
    the code adds 1073741822 where the table's [(tick - last_scheduled_tick)
    / 4] is negative, and it returns task 1 although the table scores task 0
    higher. *)
Lemma sim_select_task_htas_counterexample :
  (candidate low_scored 0
   /\ htas_score low_scored 0 (task_at low_scored 0) = -2000
   /\ htas_score_spec (tick low_scored) (cpu_at 0) (task_at low_scored 0) = -2000
   /\ snd (sim_select_task_htas low_scored 0) = -1)
  /\ (candidate stale_tick 0 /\ candidate stale_tick 1
      /\ htas_score_spec (tick stale_tick) (cpu_at 0) (task_at stale_tick 1)
         < htas_score_spec (tick stale_tick) (cpu_at 0) (task_at stale_tick 0)
      /\ htas_score stale_tick 0 (task_at stale_tick 1) = 10 + 12 + 8 + 1073741822
      /\ snd (sim_select_task_htas stale_tick 0) = 1).
Proof.
  repeat split; vm_compute; reflexivity.
Qed.
End SimSpec.

(** * Kernel thread scheduler: aging *)

Module AgingSpec.
Import KSched KSchedSpec.

(** ** The loops, slot by slot *)

Definition age_thread (t : kthread) : kthread :=
  if aging_due t
  then refill_thread (set_wait_ticks 0 (set_priority (u8 (priority t - 1)) t))
  else t.

Definition bump_thread (t : kthread) : kthread :=
  if is_ready t then set_wait_ticks (u16 (wait_ticks t + 1)) t else t.

Lemma th_at_nat l (i : nat) : th_at l (Z.of_nat i) = default kthread_zero (l !! i).
Proof.
  unfold th_at. destruct (Z.ltb_spec (Z.of_nat i) 0); [lia|]. by rewrite Nat2Z.id.
Qed.

Lemma refill_slice_alter (i : nat) l :
  (i < 16)%nat -> refill_slice (Z.of_nat i) l = alter refill_thread i l.
Proof.
  intros Hi. unfold refill_slice, MAX_THREADS.
  destruct (Z.ltb_spec (Z.of_nat i) 0); [lia|].
  destruct (Z.leb_spec 16 (Z.of_nat i)); [lia|]. simpl. by rewrite Nat2Z.id.
Qed.

Lemma age_slot_alter i l :
  (i < 16)%nat -> age_slot i l = alter age_thread i l.
Proof.
  intros Hi. unfold age_slot. rewrite th_at_nat, refill_slice_alter by done.
  apply list_eq. intros j. destruct (decide (j = i)) as [->|Hne].
  - rewrite list_lookup_alter_eq. unfold age_thread.
    destruct (l !! i) as [t|] eqn:Ht; simpl.
    + destruct (aging_due t).
      * by rewrite !list_lookup_alter_eq, Ht.
      * by rewrite Ht.
    + by rewrite Ht.
  - rewrite list_lookup_alter_ne by done.
    destruct (aging_due _); [|done].
    by rewrite !list_lookup_alter_ne.
Qed.

Lemma apply_aging_lookup l j :
  apply_aging l !! j =
  if decide (1 <= j < 16)%nat then age_thread <$> l !! j else l !! j.
Proof.
  unfold apply_aging.
  rewrite (for_range_ext 1 15 age_slot (fun i acc => alter age_thread i acc)).
  - rewrite (for_range_alter_lookup (fun _ => age_thread)).
    repeat case_decide; try lia; done.
  - intros i x Hi. apply age_slot_alter. lia.
Qed.

Lemma apply_aging_length l : length (apply_aging l) = length l.
Proof.
  unfold apply_aging.
  rewrite (for_range_ext 1 15 age_slot (fun i acc => alter age_thread i acc)).
  - apply (for_range_alter_length (fun _ => age_thread)).
  - intros i x Hi. apply age_slot_alter. lia.
Qed.

Lemma bump_slot_alter cur i l :
  bump_slot cur i l =
  alter (fun t => if Z.of_nat i =? cur then t else bump_thread t) i l.
Proof.
  unfold bump_slot. rewrite th_at_nat.
  apply list_eq. intros j. destruct (decide (j = i)) as [->|Hne].
  - rewrite list_lookup_alter_eq. unfold bump_thread.
    destruct (Z.of_nat i =? cur); simpl.
    + by destruct (l !! i).
    + destruct (l !! i) as [t|] eqn:Ht; simpl.
      * destruct (is_ready t); [|by rewrite Ht].
        by rewrite list_lookup_alter_eq, Ht.
      * by rewrite Ht.
  - rewrite list_lookup_alter_ne by done.
    destruct (_ && _); [|done]. by rewrite list_lookup_alter_ne.
Qed.

Lemma bump_loop_lookup cur l j :
  for_range 1 15 (bump_slot cur) l !! j =
  if decide ((1 <= j < 16)%nat /\ Z.of_nat j <> cur)
  then bump_thread <$> l !! j else l !! j.
Proof.
  rewrite (for_range_ext 1 15 (bump_slot cur)
             (fun i acc => alter (fun t => if Z.of_nat i =? cur then t
                                           else bump_thread t) i acc)).
  - rewrite (for_range_alter_lookup
               (fun i t => if Z.of_nat i =? cur then t else bump_thread t)).
    destruct (Z.eqb_spec (Z.of_nat j) cur);
      repeat case_decide; try lia; try tauto; try done.
    by destruct (l !! j).
  - intros i x _. apply bump_slot_alter.
Qed.

Lemma bump_loop_length cur l : length (for_range 1 15 (bump_slot cur) l) = length l.
Proof.
  rewrite (for_range_ext 1 15 (bump_slot cur)
             (fun i acc => alter (fun t => if Z.of_nat i =? cur then t
                                           else bump_thread t) i acc)).
  - apply (for_range_alter_length
             (fun i t => if Z.of_nat i =? cur then t else bump_thread t)).
  - intros i x _. apply bump_slot_alter.
Qed.

Lemma select_next_range l :
  select_next l = -1
  \/ (1 <= select_next l <= 15 /\ state (th_at l (select_next l)) = T_READY).
Proof.
  pose proof (select_next_inv l) as H. unfold select_next.
  destruct (for_range 1 15 (select_step l) (-1, SCHED_PRIORITY_LEVELS, -1))
    as [[best bp] bw]. simpl in *.
  destruct H as [[-> _]|(Hb & Hr & _)]; [by left | right].
  split; [lia | done].
Qed.


(** ** The scheduler's invariant *)

Definition thread_ok (t : kthread) : Prop :=
  0 <= priority t <= 3 /\ 0 <= wait_ticks t < 65536
  /\ (priority t = 0 \/ wait_ticks t < 32).

(** Between the increment loop of [sched_tick] and [apply_aging]. *)
Definition thread_mid (t : kthread) : Prop :=
  0 <= priority t <= 3 /\ 0 <= wait_ticks t < 65536
  /\ (priority t = 0
      \/ (wait_ticks t <= 32 /\ (wait_ticks t = 32 -> state t = T_READY))).

Definition sched_inv (s : sched_state) : Prop :=
  length (th s) = 16%nat /\ 0 <= current s < 16
  /\ state (th_at (th s) (current s)) = T_RUNNING
  /\ Forall thread_ok (th s).

Lemma thread_ok_mid t : thread_ok t -> thread_mid t.
Proof. unfold thread_ok, thread_mid. intros (? & ? & [?|?]); repeat split; lia. Qed.

Lemma bump_thread_mid t : thread_ok t -> thread_mid (bump_thread t).
Proof.
  intros (Hp & Hw & Hpw). unfold bump_thread, is_ready.
  destruct (bool_decide_reflect (state t = T_READY)) as [Hr|Hr].
  - unfold thread_mid. simpl. pose proof (u16_range (wait_ticks t + 1)).
    split; [done|]. split; [done|].
    destruct Hpw as [?|Hlt]; [by left | right].
    rewrite u16_small by lia. split; [lia | done].
  - apply thread_ok_mid. done.
Qed.

Lemma aging_due_spec t :
  aging_due t = true <->
  state t = T_READY /\ 32 <= wait_ticks t /\ 0 < priority t.
Proof.
  unfold aging_due, is_ready, AGING_THRESHOLD, SCHED_PRIORITY_REALTIME.
  rewrite !andb_true_iff, bool_decide_eq_true, Z.leb_le, Z.ltb_lt. tauto.
Qed.

Lemma age_thread_ok t : thread_mid t -> thread_ok (age_thread t).
Proof.
  intros (Hp & Hw & Hpw). unfold age_thread.
  destruct (aging_due t) eqn:Hd.
  - apply aging_due_spec in Hd as (Hr & Hw32 & Hp0).
    unfold thread_ok. simpl. rewrite u8_small by lia.
    split; [lia|]. split; [lia|]. right. lia.
  - unfold thread_ok. split; [done|]. split; [done|].
    destruct Hpw as [?|[Hle Hr]]; [by left|].
    destruct (decide (priority t = 0)); [by left | right].
    destruct (decide (wait_ticks t = 32)) as [H32|H32]; [|lia].
    assert (Hdue : aging_due t = true).
    { apply aging_due_spec. split; [by apply Hr|]. lia. }
    congruence.
Qed.

Lemma age_thread_id t : thread_ok t -> age_thread t = t.
Proof.
  intros (Hp & Hw & Hpw). unfold age_thread, aging_due,
    AGING_THRESHOLD, SCHED_PRIORITY_REALTIME.
  destruct (is_ready t); [|done].
  destruct (Z.leb_spec 32 (wait_ticks t)); [|done].
  destruct (Z.ltb_spec 0 (priority t)); [lia | done].
Qed.

Lemma age_thread_state t : state (age_thread t) = state t.
Proof. unfold age_thread. by destruct (aging_due t). Qed.

Lemma bump_thread_state t : state (bump_thread t) = state t.
Proof. unfold bump_thread. by destruct (is_ready t). Qed.

(** [state (th_at l j)] through an update of one slot. *)
Lemma th_at_alter_ne f (i : nat) l (j : Z) :
  j <> Z.of_nat i -> th_at (alter f i l) j = th_at l j.
Proof.
  intros Hne. unfold th_at. destruct (Z.ltb_spec j 0); [done|].
  rewrite list_lookup_alter_ne by lia. done.
Qed.

Lemma th_at_alter_eq f (i : nat) l :
  (i < length l)%nat -> th_at (alter f i l) (Z.of_nat i) = f (th_at l (Z.of_nat i)).
Proof.
  intros Hi. rewrite !th_at_nat, list_lookup_alter_eq.
  by destruct (lookup_lt_is_Some_2 l i Hi) as [t ->].
Qed.

Lemma th_at_alter_state f (i : nat) l (j : Z) :
  (forall t, state (f t) = state t) ->
  state (th_at (alter f i l) j) = state (th_at l j).
Proof.
  intros Hf. unfold th_at. destruct (Z.ltb_spec j 0); [done|].
  destruct (decide (Z.to_nat j = i)) as [<-|Hne].
  - rewrite list_lookup_alter_eq. destruct (l !! Z.to_nat j); [apply Hf | done].
  - by rewrite list_lookup_alter_ne.
Qed.

Lemma apply_aging_state l j :
  state (th_at (apply_aging l) j) = state (th_at l j).
Proof.
  unfold th_at. destruct (Z.ltb_spec j 0); [done|].
  rewrite apply_aging_lookup. case_decide; [|done].
  destruct (l !! Z.to_nat j); [apply age_thread_state | done].
Qed.

Lemma bump_loop_state cur l j :
  state (th_at (for_range 1 15 (bump_slot cur) l) j) = state (th_at l j).
Proof.
  unfold th_at. destruct (Z.ltb_spec j 0); [done|].
  rewrite bump_loop_lookup. case_decide; [|done].
  destruct (l !! Z.to_nat j); [apply bump_thread_state | done].
Qed.

Definition dec_slice (t : kthread) : kthread :=
  if 0 <? slice_left t then set_slice_left (u8 (slice_left t - 1)) t else t.

Lemma dec_slice_mid t : thread_mid t -> thread_mid (dec_slice t).
Proof. unfold dec_slice. by destruct (0 <? slice_left t). Qed.

Lemma dec_slice_ok t : thread_ok t -> thread_ok (dec_slice t).
Proof. unfold dec_slice. by destruct (0 <? slice_left t). Qed.

Lemma dec_slice_state t : state (dec_slice t) = state t.
Proof. unfold dec_slice. by destruct (0 <? slice_left t). Qed.

Lemma dec_slice_alter (c : nat) l :
  (if 0 <? slice_left (th_at l (Z.of_nat c))
   then alter (fun t => set_slice_left (u8 (slice_left t - 1)) t) c l
   else l) = alter dec_slice c l.
Proof.
  rewrite th_at_nat. apply list_eq. intros j.
  destruct (decide (j = c)) as [->|Hne].
  - rewrite list_lookup_alter_eq. unfold dec_slice.
    destruct (l !! c) as [t|] eqn:Ht; simpl.
    + destruct (0 <? slice_left t); [|by rewrite Ht].
      by rewrite list_lookup_alter_eq, Ht.
    + by rewrite Ht.
  - rewrite list_lookup_alter_ne by done.
    destruct (0 <? _); [|done]. by rewrite list_lookup_alter_ne.
Qed.

(** The table after the first half of [sched_tick]: wait counters bumped,
    the running slice decremented, aging applied. *)
Definition tick_table (c : nat) (l : list kthread) : list kthread :=
  apply_aging (alter dec_slice c (for_range 1 15 (bump_slot (Z.of_nat c)) l)).

Lemma tick_table_lookup c l j :
  tick_table c l !! j =
  (fun t =>
     let t1 := if decide ((1 <= j < 16)%nat /\ j <> c) then bump_thread t else t in
     let t2 := if decide (j = c) then dec_slice t1 else t1 in
     if decide (1 <= j < 16)%nat then age_thread t2 else t2) <$> l !! j.
Proof.
  unfold tick_table. rewrite apply_aging_lookup, list_lookup_alter.
  rewrite !bump_loop_lookup.
  repeat case_decide; subst;
    repeat match goal with
           | |- context [l !! ?k] => destruct (l !! k)
           end; simpl; try lia; try done; exfalso; intuition lia.
Qed.

Lemma tick_table_length c l : length (tick_table c l) = length l.
Proof.
  unfold tick_table. by rewrite apply_aging_length, length_alter, bump_loop_length.
Qed.

Lemma tick_table_ok c l : Forall thread_ok l -> Forall thread_ok (tick_table c l).
Proof.
  intros Hl. apply Forall_lookup_2. intros j t'. rewrite tick_table_lookup.
  destruct (l !! j) as [t|] eqn:Ht; [|done]. simpl. intros [= <-].
  pose proof (Forall_lookup_1 _ _ _ _ Hl Ht) as Hok.
  destruct (decide (1 <= j < 16)%nat).
  - apply age_thread_ok.
    set (t1 := if decide ((1 <= j < 16)%nat /\ j <> c) then bump_thread t else t).
    assert (Hm : thread_mid t1).
    { unfold t1. case_decide; [by apply bump_thread_mid | by apply thread_ok_mid]. }
    destruct (decide (j = c)); [by apply dec_slice_mid | done].
  - destruct (decide ((1 <= j < 16)%nat /\ j <> c)) as [[? _]|_]; [contradiction|].
    destruct (decide (j = c)); [by apply dec_slice_ok | done].
Qed.

Lemma tick_table_state c l j :
  state (th_at (tick_table c l) j) = state (th_at l j).
Proof.
  unfold tick_table. rewrite apply_aging_state.
  rewrite th_at_alter_state by apply dec_slice_state.
  apply bump_loop_state.
Qed.

#[local] Arguments select_next : simpl never.
#[local] Arguments apply_aging : simpl never.
#[local] Arguments tick_table : simpl never.
#[local] Arguments for_range : simpl never.

Lemma fmap_of_Some {A B : Type} (f : A -> B) (x : A) : f <$> Some x = Some (f x).
Proof. reflexivity. Qed.

Lemma apply_aging_id l : Forall thread_ok l -> apply_aging l = l.
Proof.
  intros Hl. apply list_eq. intros j. rewrite apply_aging_lookup.
  case_decide; [|done].
  destruct (l !! j) as [t|] eqn:Ht; [|done]. simpl.
  by rewrite age_thread_id by by apply (Forall_lookup_1 _ _ _ _ Hl Ht).
Qed.

Lemma refill_slice_Z (i : Z) l :
  0 <= i < 16 -> refill_slice i l = alter refill_thread (Z.to_nat i) l.
Proof.
  intros Hi. rewrite <- (Z2Nat.id i) at 1 by lia.
  apply refill_slice_alter. lia.
Qed.

(** ** [sched_yield] *)

Definition yield_prev (sp : Z) (t : kthread) : kthread :=
  set_esp (u32 sp) (refill_thread (set_wait_ticks 0 (set_state T_READY t))).

Definition yield_next (t : kthread) : kthread :=
  refill_thread (set_wait_ticks 0 (set_state T_RUNNING t)).

Lemma sched_yield_cases sp s :
  sched_inv s ->
  sched_yield sp s = s
  \/ (let next := select_next (th s) in
      1 <= next <= 15 /\ next <> current s
      /\ state (th_at (th s) next) = T_READY
      /\ current (sched_yield sp s) = next
      /\ length (th (sched_yield sp s)) = 16%nat
      /\ forall j, th (sched_yield sp s) !! j =
           (fun t => if decide (j = Z.to_nat (current s)) then yield_prev sp t
                     else if decide (j = Z.to_nat next) then yield_next t
                     else t) <$> th s !! j).
Proof.
  intros (Hlen & Hcur & Hrun & Hok). unfold sched_yield. cbv zeta.
  rewrite (apply_aging_id _ Hok).
  destruct (select_next_range (th s)) as [Hn|[Hn Hr]].
  - left. rewrite Hn. cbn [Z.ltb Z.compare orb]. by destruct s.
  - destruct (Z.ltb_spec (select_next (th s)) 0); [lia|]. cbn [orb].
    destruct (Z.eqb_spec (select_next (th s)) (current s)) as [Heq|Hne].
    + left. by destruct s.
    + right. split; [done|]. split; [done|]. split; [done|]. split; [done|].
      cbn [th]. rewrite !refill_slice_Z by lia.
      split; [by rewrite !length_alter|].
      intros j.
      assert (Hpn : Z.to_nat (select_next (th s)) <> Z.to_nat (current s)) by lia.
      destruct (decide (j = Z.to_nat (current s))) as [->|Hjp];
        [|destruct (decide (j = Z.to_nat (select_next (th s)))) as [->|Hjn]];
        repeat (rewrite list_lookup_alter_eq
                || rewrite list_lookup_alter_ne by congruence);
        by destruct (th s !! _).
Qed.

Lemma thread_ok_yield_prev sp t : thread_ok t -> thread_ok (yield_prev sp t).
Proof. unfold thread_ok. simpl. intros (? & ? & ?). repeat split; lia. Qed.

Lemma thread_ok_yield_next t : thread_ok t -> thread_ok (yield_next t).
Proof. unfold thread_ok. simpl. intros (? & ? & ?). repeat split; lia. Qed.

Lemma thread_ok_refill t : thread_ok t -> thread_ok (refill_thread t).
Proof. by destruct t. Qed.

Lemma sched_yield_inv sp s : sched_inv s -> sched_inv (sched_yield sp s).
Proof.
  intros Hinv. destruct (sched_yield_cases sp s Hinv) as [->|Hsw]; [done|].
  cbv zeta in Hsw. destruct Hsw as (Hn & Hne & Hr & Hcur & Hlen & Hth).
  destruct Hinv as (Hlen0 & Hcur0 & Hrun & Hok).
  split; [done|]. rewrite Hcur. split; [lia|]. split.
  - destruct (lookup_lt_is_Some_2 (th s) (Z.to_nat (select_next (th s))) ltac:(lia))
      as [t Ht].
    rewrite (th_at_Z_lookup _ _ (yield_next t)); [done | lia |].
    rewrite Hth, Ht, fmap_of_Some. cbv beta.
    rewrite decide_False by lia. by rewrite decide_True.
  - apply Forall_lookup_2. intros j t'. rewrite Hth.
    destruct (th s !! j) as [t|] eqn:Ht; [|done].
    rewrite fmap_of_Some. cbv beta. intros [= <-].
    pose proof (Forall_lookup_1 _ _ _ _ Hok Ht).
    destruct (decide (j = Z.to_nat (current s)));
      [by apply thread_ok_yield_prev|].
    destruct (decide (j = Z.to_nat (select_next (th s))));
      [by apply thread_ok_yield_next | done].
Qed.

(** ** [sched_tick] *)

Lemma sched_tick_cases sp s :
  0 <= current s < 16 ->
  let c := Z.to_nat (current s) in
  let l3 := tick_table c (th s) in
  sched_tick sp s = sched_yield sp (mk_sched (alter refill_thread c l3) (current s))
  \/ sched_tick sp s = mk_sched (alter refill_thread c l3) (current s)
  \/ sched_tick sp s = mk_sched l3 (current s).
Proof.
  intros Hcur. cbv zeta. unfold sched_tick.
  destruct (Z.ltb_spec (current s) 0); [lia|]. cbv zeta.
  assert (Hl3 :
    apply_aging
      (if 0 <? slice_left (th_at (for_range 1 15 (bump_slot (current s)) (th s))
                                 (current s))
       then alter (fun t => set_slice_left (u8 (slice_left t - 1)) t)
                  (Z.to_nat (current s))
                  (for_range 1 15 (bump_slot (current s)) (th s))
       else for_range 1 15 (bump_slot (current s)) (th s))
    = tick_table (Z.to_nat (current s)) (th s)).
  { unfold tick_table. rewrite Z2Nat.id by lia.
    rewrite <- (dec_slice_alter (Z.to_nat (current s))).
    by rewrite Z2Nat.id by lia. }
  rewrite Hl3.
  destruct ((0 <=? _) && _).
  - left. reflexivity.
  - rewrite refill_slice_Z by lia.
    destruct (slice_left _ =? 0); [right; left | right; right]; reflexivity.
Qed.

Lemma tick_table_inv s :
  sched_inv s ->
  sched_inv (mk_sched (tick_table (Z.to_nat (current s)) (th s)) (current s))
  /\ sched_inv (mk_sched (alter refill_thread (Z.to_nat (current s))
                            (tick_table (Z.to_nat (current s)) (th s)))
                         (current s)).
Proof.
  intros (Hlen & Hcur & Hrun & Hok). split.
  - split; [cbn [th]; by rewrite tick_table_length|]. split; [done|].
    split; [cbn [th current]; by rewrite tick_table_state|].
    by apply tick_table_ok.
  - split; [cbn [th]; by rewrite length_alter, tick_table_length|].
    split; [done|]. split.
    + cbn [th current]. rewrite th_at_alter_state by done.
      by rewrite tick_table_state.
    + apply Forall_alter; [by apply tick_table_ok|].
      intros t _. apply thread_ok_refill.
Qed.

Lemma sched_tick_inv sp s : sched_inv s -> sched_inv (sched_tick sp s).
Proof.
  intros Hinv. destruct (tick_table_inv s Hinv) as [H3 H4].
  destruct Hinv as (Hlen & Hcur & Hrun & Hok).
  destruct (sched_tick_cases sp s Hcur) as [->|[->| ->]];
    [by apply sched_yield_inv | done | done].
Qed.

(** What a tick leaves in a slot 1..15 that is not the running one. *)
Lemma sched_tick_slot sp s (i : nat) t :
  sched_inv s -> (1 <= i <= 15)%nat -> Z.of_nat i <> current s ->
  th s !! i = Some t ->
  th (sched_tick sp s) !! i = Some (age_thread (bump_thread t))
  \/ th (sched_tick sp s) !! i = Some (yield_next (age_thread (bump_thread t))).
Proof.
  intros Hinv Hi Hne Ht.
  destruct (tick_table_inv s Hinv) as [H3 H4].
  destruct Hinv as (Hlen & Hcur & Hrun & Hok).
  assert (Hl3 : tick_table (Z.to_nat (current s)) (th s) !! i
                = Some (age_thread (bump_thread t))).
  { rewrite tick_table_lookup, Ht, fmap_of_Some. cbv beta zeta.
    rewrite decide_True by (split; lia).
    rewrite decide_False by lia. by rewrite decide_True by lia. }
  assert (Hl4 : alter refill_thread (Z.to_nat (current s))
                  (tick_table (Z.to_nat (current s)) (th s)) !! i
                = Some (age_thread (bump_thread t))).
  { rewrite list_lookup_alter_ne by lia. exact Hl3. }
  destruct (sched_tick_cases sp s Hcur) as [->|[->| ->]];
    [|by left|by left].
  destruct (sched_yield_cases sp _ H4) as [->|Hsw]; [by left|].
  cbv zeta in Hsw. destruct Hsw as (_ & _ & _ & _ & _ & Hth).
  rewrite Hth. cbn [th current]. rewrite Hl4, fmap_of_Some. cbv beta.
  rewrite decide_False by lia.
  destruct (decide (i = _)); [by right | by left].
Qed.

(** ** [kthread_create] and [sched_set_priority] *)

Lemma find_unused_spec i0 ts k :
  find_unused i0 ts = Some k ->
  (i0 <= k)%nat /\ exists t, ts !! (k - i0)%nat = Some t /\ state t = T_UNUSED.
Proof.
  revert i0. induction ts as [|t ts IH]; intros i0; [done|]. cbn [find_unused].
  destruct (bool_decide_reflect (state t = T_UNUSED)) as [Hu|Hu].
  - intros [= <-]. split; [lia|]. exists t. by rewrite Nat.sub_diag.
  - intros H. destruct (IH _ H) as (Hk & t' & Ht' & Hu').
    split; [lia|]. exists t'. split; [|done].
    replace (k - i0)%nat with (S (k - S i0)) by lia. exact Ht'.
Qed.

Definition created (new_esp : Z) (nm : string) (t : kthread) : kthread :=
  refill_thread
    (set_wait_ticks 0
       (set_priority DEFAULT_PRIORITY
          (set_name nm (set_state T_READY (set_esp new_esp t))))).

Lemma kthread_create_cases new_esp nm s :
  fst (kthread_create new_esp nm s) = s
  \/ exists k t, (1 <= k <= 15)%nat /\ th s !! k = Some t /\ state t = T_UNUSED
       /\ fst (kthread_create new_esp nm s)
          = mk_sched (alter (created new_esp nm) k (th s)) (current s).
Proof.
  unfold kthread_create.
  destruct (find_unused 1 (take 15 (drop 1 (th s)))) as [k|] eqn:Hf; [|by left].
  destruct (new_esp =? 0); [by left|]. right.
  destruct (find_unused_spec _ _ _ Hf) as (Hk & t & Ht & Hu).
  assert (Hk15 : (k - 1 < 15)%nat).
  { apply lookup_lt_Some in Ht. rewrite length_take in Ht. lia. }
  rewrite lookup_take_lt, lookup_drop in Ht by lia.
  replace (1 + (k - 1))%nat with k in Ht by lia.
  exists k, t. split; [lia|]. split; [done|]. split; [done|].
  cbn [fst]. f_equal. rewrite refill_slice_alter by lia.
  apply list_eq. intros j. destruct (decide (j = k)) as [->|Hne].
  - repeat rewrite list_lookup_alter_eq. by rewrite Ht.
  - by repeat rewrite list_lookup_alter_ne by done.
Qed.

Lemma kthread_create_inv new_esp nm s :
  sched_inv s -> sched_inv (fst (kthread_create new_esp nm s)).
Proof.
  intros Hinv.
  destruct (kthread_create_cases new_esp nm s) as [->|(k & t & Hk & Ht & Hu & ->)];
    [done|].
  destruct Hinv as (Hlen & Hcur & Hrun & Hok).
  split; [cbn [th]; by rewrite length_alter|]. split; [done|]. split.
  - cbn [th current]. rewrite th_at_alter_ne; [done|].
    intros Heq. rewrite Heq, (th_at_lookup _ _ _ Ht) in Hrun. congruence.
  - apply Forall_alter; [done|]. intros x _ _.
    unfold thread_ok, created, DEFAULT_PRIORITY, SCHED_PRIORITY_INTERACTIVE.
    simpl. lia.
Qed.

Lemma sched_set_priority_cases pid prio s :
  fst (sched_set_priority pid prio s) = s
  \/ exists t, 0 <= pid < 16 /\ 0 <= prio < 4 /\ th s !! Z.to_nat pid = Some t
       /\ fst (sched_set_priority pid prio s)
          = mk_sched (<[Z.to_nat pid :=
                          mk_kthread (esp t) (state t) (name t) prio
                                     (priority_quantum prio) 0]> (th s))
                     (current s).
Proof.
  unfold sched_set_priority, MAX_THREADS, SCHED_PRIORITY_REALTIME,
    SCHED_PRIORITY_LEVELS.
  destruct (Z.ltb_spec pid 0); [by left|].
  destruct (Z.leb_spec 16 pid); [by left|].
  destruct (Z.ltb_spec prio 0); [by left|].
  destruct (Z.leb_spec 4 prio); [by left|]. cbn [orb].
  destruct (bool_decide_reflect (state (th_at (th s) pid) = T_UNUSED)) as [Hu|Hu];
    [by left|].
  right. destruct (th_at_not_unused _ _ Hu) as [_ Hl].
  exists (th_at (th s) pid).
  split; [lia|]. split; [lia|]. split; [exact Hl|].
  cbn [fst]. rewrite refill_slice_Z by lia. f_equal.
  apply list_eq. intros j. destruct (decide (j = Z.to_nat pid)) as [->|Hne].
  - rewrite !list_lookup_alter_eq, Hl.
    rewrite list_lookup_insert_eq by (by apply lookup_lt_Some in Hl).
    rewrite !fmap_of_Some. unfold refill_thread, set_slice_left, set_wait_ticks,
      set_priority. cbn [esp state name priority slice_left wait_ticks].
    rewrite (u8_small prio) by lia.
    assert (Hc : prio = 0 \/ prio = 1 \/ prio = 2 \/ prio = 3) by lia.
    destruct Hc as [-> | [-> | [-> | ->]]]; reflexivity.
  - rewrite !list_lookup_alter_ne by done.
    by rewrite list_lookup_insert_ne.
Qed.

Lemma sched_set_priority_inv pid prio s :
  sched_inv s -> sched_inv (fst (sched_set_priority pid prio s)).
Proof.
  intros Hinv.
  destruct (sched_set_priority_cases pid prio s)
    as [->|(t & Hp & Hq & Ht & ->)]; [done|].
  destruct Hinv as (Hlen & Hcur & Hrun & Hok).
  split; [cbn [th]; by rewrite length_insert|]. split; [done|]. split.
  - cbn [th current]. unfold th_at in *.
    destruct (Z.ltb_spec (current s) 0); [lia|].
    destruct (decide (Z.to_nat (current s) = Z.to_nat pid)) as [Heq|Hne].
    + rewrite Heq in *. rewrite list_lookup_insert_eq by (by apply lookup_lt_Some in Ht).
      rewrite Ht in Hrun. exact Hrun.
    + by rewrite list_lookup_insert_ne.
  - apply Forall_insert; [done|]. unfold thread_ok. simpl. lia.
Qed.

Lemma sched_init_inv : sched_inv sched_init.
Proof.
  split; [reflexivity|]. split; [simpl; lia|]. split; [reflexivity|].
  let l := eval vm_compute in (th sched_init) in change (th sched_init) with l.
  repeat (apply List.Forall_cons; [unfold thread_ok; simpl; lia|]).
  apply List.Forall_nil.
Qed.

(** ** Runs of the scheduler *)

Inductive sched_event :=
  | EvTick (sp : Z)
  | EvYield (sp : Z)
  | EvCreate (new_esp : Z) (nm : string)
  | EvSetPriority (pid prio : Z).

Definition sched_step (e : sched_event) (s : sched_state) : sched_state :=
  match e with
  | EvTick sp => sched_tick sp s
  | EvYield sp => sched_yield sp s
  | EvCreate new_esp nm => fst (kthread_create new_esp nm s)
  | EvSetPriority pid prio => fst (sched_set_priority pid prio s)
  end.

Fixpoint sched_run (evs : list sched_event) (s : sched_state) : sched_state :=
  match evs with
  | [] => s
  | e :: rest => sched_run rest (sched_step e s)
  end.

(** The states the scheduler reaches from [sched_init]. *)
Definition sched_reachable (s : sched_state) : Prop :=
  exists evs, s = sched_run evs sched_init.

Lemma sched_step_inv e s : sched_inv s -> sched_inv (sched_step e s).
Proof.
  destruct e; simpl;
    [apply sched_tick_inv | apply sched_yield_inv
     | apply kthread_create_inv | apply sched_set_priority_inv].
Qed.

Lemma sched_run_inv evs s : sched_inv s -> sched_inv (sched_run evs s).
Proof.
  revert s. induction evs as [|e evs IH]; intros s Hs; [done|].
  simpl. apply IH. by apply sched_step_inv.
Qed.

Lemma sched_reachable_inv s : sched_reachable s -> sched_inv s.
Proof. intros [evs ->]. apply sched_run_inv, sched_init_inv. Qed.

(** Thread [i] is READY before the run and after each of its events. *)
Fixpoint ready_throughout (i : nat) (evs : list sched_event) (s : sched_state)
  : Prop :=
  state (th_at (th s) (Z.of_nat i)) = T_READY
  /\ match evs with
     | [] => True
     | e :: rest => ready_throughout i rest (sched_step e s)
     end.

Fixpoint ticks (evs : list sched_event) : Z :=
  match evs with
  | [] => 0
  | EvTick _ :: rest => 1 + ticks rest
  | _ :: rest => ticks rest
  end.

(** The event is not a [sched_set_priority] on thread [i]. *)
Definition leaves_alone (i : nat) (e : sched_event) : Prop :=
  match e with
  | EvSetPriority pid _ => pid <> Z.of_nat i
  | _ => True
  end.

(** What one event leaves in slot [i] when the thread is READY before and
    after it. *)
Lemma sched_step_slot e s (i : nat) t :
  sched_inv s -> (1 <= i <= 15)%nat -> th s !! i = Some t ->
  state t = T_READY -> leaves_alone i e ->
  exists t', th (sched_step e s) !! i = Some t'
    /\ (state t' = T_READY ->
        t' = match e with
             | EvTick _ => age_thread (bump_thread t)
             | _ => t
             end).
Proof.
  intros Hinv Hi Ht Hr Hle.
  assert (Hne : Z.of_nat i <> current s).
  { destruct Hinv as (_ & _ & Hrun & _). intros Heq.
    rewrite <- Heq, (th_at_lookup _ _ _ Ht) in Hrun. congruence. }
  destruct e as [sp|sp|new_esp nm|pid prio]; cbn [sched_step].
  - destruct (sched_tick_slot sp s i t Hinv Hi Hne Ht) as [H|H];
      rewrite H; eexists; (split; [reflexivity|]); [done|].
    intros Hs. simpl in Hs. discriminate.
  - destruct (sched_yield_cases sp s Hinv) as [->|Hsw].
    + by exists t.
    + cbv zeta in Hsw. destruct Hsw as (_ & _ & _ & _ & _ & Hth).
      rewrite Hth, Ht, fmap_of_Some. cbv beta.
      rewrite decide_False by lia.
      destruct (decide (i = _)); eexists; (split; [reflexivity|]); [|done].
      intros Hs. simpl in Hs. discriminate.
  - destruct (kthread_create_cases new_esp nm s)
      as [->|(k & t0 & Hk & Ht0 & Hu & ->)]; [by exists t|].
    cbn [th]. exists t. split; [|done].
    rewrite list_lookup_alter_ne; [done|]. intros ->. congruence.
  - destruct (sched_set_priority_cases pid prio s)
      as [->|(t0 & Hp & Hq & Ht0 & ->)]; [by exists t|].
    cbn [th]. exists t. split; [|done].
    rewrite list_lookup_insert_ne; [done|]. simpl in Hle. lia.
Qed.

(** ** Promotion within [3 * AGING_THRESHOLD] ticks *)

(** Ticks that a READY thread still has to wait before it is REALTIME. *)
Definition potential (t : kthread) : Z :=
  if priority t =? 0 then 0 else 32 * priority t - wait_ticks t.

Lemma potential_bounds t :
  thread_ok t -> 0 <= potential t <= 96 /\ (potential t <= 0 -> priority t = 0).
Proof.
  intros (Hp & Hw & Hpw). unfold potential.
  destruct (Z.eqb_spec (priority t) 0); lia.
Qed.

(** The fields of a READY thread after the increment and the aging of one
    tick. *)
Lemma age_bump_fields t :
  thread_ok t -> state t = T_READY ->
  let w1 := u16 (wait_ticks t + 1) in
  let t' := age_thread (bump_thread t) in
  state t' = T_READY
  /\ if (AGING_THRESHOLD <=? w1) && (SCHED_PRIORITY_REALTIME <? priority t)
     then priority t' = priority t - 1 /\ wait_ticks t' = 0
          /\ slice_left t' = priority_quantum (priority t - 1)
     else priority t' = priority t /\ wait_ticks t' = w1.
Proof.
  intros (Hp & Hw & Hpw) Hr. cbv zeta.
  rewrite age_thread_state, bump_thread_state. split; [done|].
  unfold bump_thread, is_ready. rewrite bool_decide_eq_true_2 by done.
  unfold age_thread, aging_due, is_ready. cbn [state set_wait_ticks wait_ticks priority].
  rewrite bool_decide_eq_true_2 by done. cbn [andb].
  destruct ((AGING_THRESHOLD <=? u16 (wait_ticks t + 1))
            && (SCHED_PRIORITY_REALTIME <? priority t)) eqn:Hd; [|done].
  apply andb_true_iff in Hd as [_ Hp0].
  unfold SCHED_PRIORITY_REALTIME in Hp0. apply Z.ltb_lt in Hp0.
  cbn. rewrite (u8_small (priority t - 1)) by lia.
  split; [done|]. split; [done|].
  assert (Hc : priority t = 1 \/ priority t = 2 \/ priority t = 3) by lia.
  destruct Hc as [-> | [-> | ->]]; reflexivity.
Qed.

Lemma potential_tick t :
  thread_ok t -> state t = T_READY ->
  potential (age_thread (bump_thread t)) = Z.max 0 (potential t - 1).
Proof.
  intros Hok Hr. destruct (age_bump_fields t Hok Hr) as [_ Hf]. cbv zeta in Hf.
  destruct Hok as (Hp & Hw & Hpw). unfold potential.
  unfold AGING_THRESHOLD, SCHED_PRIORITY_REALTIME in Hf.
  destruct (Z.eqb_spec (priority t) 0) as [H0|H0].
  - rewrite H0 in Hf. rewrite andb_false_r in Hf. destruct Hf as [-> _].
    reflexivity.
  - assert (Hw32 : wait_ticks t < 32) by lia.
    rewrite u16_small in Hf by lia.
    destruct (Z.leb_spec 32 (wait_ticks t + 1));
      destruct (Z.ltb_spec 0 (priority t)); try lia; cbn [andb] in Hf.
    + destruct Hf as (-> & -> & _).
      destruct (Z.eqb_spec (priority t - 1) 0); lia.
    + destruct Hf as (-> & ->).
      destruct (Z.eqb_spec (priority t) 0); lia.
Qed.

Lemma ticks_nonneg evs : 0 <= ticks evs.
Proof. induction evs as [|[] evs IH]; simpl; lia. Qed.

Lemma run_potential evs s (i : nat) t :
  sched_inv s -> (1 <= i <= 15)%nat -> th s !! i = Some t ->
  Forall (leaves_alone i) evs -> ready_throughout i evs s ->
  exists t', th (sched_run evs s) !! i = Some t'
    /\ potential t' <= Z.max 0 (potential t - ticks evs).
Proof.
  revert s t. induction evs as [|e evs IH]; intros s t Hinv Hi Ht Hle Hready.
  - exists t. split; [done|]. simpl.
    destruct Hinv as (_ & _ & _ & Hok).
    destruct (potential_bounds t (Forall_lookup_1 _ _ _ _ Hok Ht)). lia.
  - destruct Hready as [Hr Hrest]. rewrite (th_at_lookup _ _ _ Ht) in Hr.
    assert (Hle1 : leaves_alone i e) by (by inversion Hle).
    assert (Hle' : Forall (leaves_alone i) evs) by (by inversion Hle).
    clear Hle. rename Hle' into Hle.
    destruct (sched_step_slot e s i t Hinv Hi Ht Hr Hle1) as (t1 & Ht1 & Hshape).
    assert (Hr1 : state t1 = T_READY).
    { destruct evs; destruct Hrest as [H _];
        by rewrite (th_at_lookup _ _ _ Ht1) in H. }
    specialize (Hshape Hr1).
    destruct (IH (sched_step e s) t1 (sched_step_inv e s Hinv) Hi Ht1 Hle Hrest)
      as (t' & Ht' & Hpot).
    exists t'. split; [exact Ht'|].
    pose proof (ticks_nonneg evs).
    assert (Hok : thread_ok t).
    { destruct Hinv as (_ & _ & _ & Hok). by apply (Forall_lookup_1 _ _ _ _ Hok Ht). }
    destruct e; subst t1; cbn [ticks]; try lia.
    rewrite potential_tick in Hpot by done. lia.
Qed.

(** ** The bootstrap thread *)

(** The aging fields of [t'] are those of [t], or [wait_ticks] has been
    cleared. *)
Definition not_aged (t t' : kthread) : Prop :=
  priority t' = priority t /\ (wait_ticks t' = wait_ticks t \/ wait_ticks t' = 0).

Lemma not_aged_refl t : not_aged t t.
Proof. split; [done | by left]. Qed.

Lemma not_aged_trans t1 t2 t3 : not_aged t1 t2 -> not_aged t2 t3 -> not_aged t1 t3.
Proof.
  intros [Hp1 Hw1] [Hp2 Hw2]. split; [congruence|].
  destruct Hw2 as [Hw2|Hw2]; [|by right].
  destruct Hw1 as [Hw1|Hw1]; [left | right]; congruence.
Qed.

Lemma not_aged_dec_slice t : not_aged t (dec_slice t).
Proof. unfold dec_slice. destruct (0 <? slice_left t); split; by try left. Qed.

Lemma not_aged_refill t : not_aged t (refill_thread t).
Proof. split; [done | by left]. Qed.

Lemma not_aged_yield_prev sp t : not_aged t (yield_prev sp t).
Proof. split; [done | by right]. Qed.

Lemma not_aged_yield_next t : not_aged t (yield_next t).
Proof. split; [done | by right]. Qed.

Lemma not_aged_alter f (i j : nat) (l : list kthread) t :
  (forall x, not_aged x (f x)) -> l !! j = Some t ->
  exists t', alter f i l !! j = Some t' /\ not_aged t t'.
Proof.
  intros Hf Ht. destruct (decide (i = j)) as [->|Hne].
  - rewrite list_lookup_alter_eq, Ht. eexists. split; [reflexivity | apply Hf].
  - rewrite list_lookup_alter_ne by done. exists t. split; [done | apply not_aged_refl].
Qed.

(** Neither loop of [sched_tick] nor [apply_aging] visits slot 0. *)
Lemma tick_table_boot c l t :
  l !! 0%nat = Some t ->
  exists t', tick_table c l !! 0%nat = Some t' /\ not_aged t t'.
Proof.
  intros Ht. rewrite tick_table_lookup, Ht, fmap_of_Some. cbv beta zeta.
  eexists. split; [reflexivity|].
  destruct (decide ((1 <= 0 < 16)%nat /\ 0%nat <> c)); [lia|].
  destruct (decide (1 <= 0 < 16)%nat); [lia|].
  destruct (decide (0%nat = c)); [apply not_aged_dec_slice | apply not_aged_refl].
Qed.

Lemma sched_yield_boot sp s t :
  sched_inv s -> th s !! 0%nat = Some t ->
  exists t', th (sched_yield sp s) !! 0%nat = Some t' /\ not_aged t t'.
Proof.
  intros Hinv Ht.
  destruct (sched_yield_cases sp s Hinv) as [->|Hsw].
  - exists t. split; [done | apply not_aged_refl].
  - cbv zeta in Hsw. destruct Hsw as (_ & _ & _ & _ & _ & Hth).
    rewrite Hth, Ht, fmap_of_Some. cbv beta.
    eexists. split; [reflexivity|].
    destruct (decide (0%nat = Z.to_nat (current s)));
      [apply not_aged_yield_prev|].
    destruct (decide (0%nat = Z.to_nat (select_next (th s))));
      [apply not_aged_yield_next | apply not_aged_refl].
Qed.

Lemma sched_tick_boot sp s t :
  sched_inv s -> th s !! 0%nat = Some t ->
  exists t', th (sched_tick sp s) !! 0%nat = Some t' /\ not_aged t t'.
Proof.
  intros Hinv Ht.
  destruct (tick_table_inv s Hinv) as [H3 H4].
  destruct (tick_table_boot (Z.to_nat (current s)) (th s) t Ht) as (t3 & Ht3 & Hn3).
  destruct (not_aged_alter refill_thread (Z.to_nat (current s)) 0 _ t3
              not_aged_refill Ht3) as (t4 & Ht4 & Hn4).
  pose proof (not_aged_trans _ _ _ Hn3 Hn4) as Hn34.
  destruct Hinv as (Hlen & Hcur & Hrun & Hok).
  destruct (sched_tick_cases sp s Hcur) as [->|[->| ->]].
  - revert H4 Ht4. generalize (tick_table (Z.to_nat (current s)) (th s)).
    intros l3 H4 Ht4.
    destruct (sched_yield_boot sp _ t4 H4 Ht4) as (t5 & Ht5 & Hn5).
    exists t5. split; [exact Ht5|]. by apply (not_aged_trans _ t4).
  - by exists t4.
  - by exists t3.
Qed.

(** What one event leaves in slot 0. *)
Lemma sched_step_boot e s t :
  sched_inv s -> th s !! 0%nat = Some t ->
  exists t', th (sched_step e s) !! 0%nat = Some t'
    /\ (wait_ticks t' = wait_ticks t \/ wait_ticks t' = 0)
    /\ (leaves_alone 0 e -> priority t' = priority t).
Proof.
  intros Hinv Ht.
  destruct e as [sp|sp|new_esp nm|pid prio]; cbn [sched_step].
  - destruct (sched_tick_boot sp s t Hinv Ht) as (t' & Ht' & Hp & Hw).
    by exists t'.
  - destruct (sched_yield_boot sp s t Hinv Ht) as (t' & Ht' & Hp & Hw).
    by exists t'.
  - destruct (kthread_create_cases new_esp nm s)
      as [->|(k & t0 & Hk & Ht0 & Hu & ->)].
    + exists t. split; [done|]. split; [by left | done].
    + cbn [th]. exists t. rewrite list_lookup_alter_ne by lia.
      split; [done|]. split; [by left | done].
  - destruct (sched_set_priority_cases pid prio s)
      as [->|(t0 & Hp & Hq & Ht0 & ->)].
    + exists t. split; [done|]. split; [by left | done].
    + cbn [th]. destruct (decide (Z.to_nat pid = 0%nat)) as [Hz|Hnz].
      * rewrite Hz, list_lookup_insert_eq by (apply lookup_lt_Some in Ht; lia).
        eexists. split; [reflexivity|]. split; [by right|].
        simpl. lia.
      * rewrite list_lookup_insert_ne by done.
        exists t. split; [done|]. split; [by left | done].
Qed.

Lemma th_at_boot l t : l !! 0%nat = Some t -> th_at l 0 = t.
Proof. apply (th_at_lookup l 0%nat t). Qed.

Lemma sched_run_boot evs s :
  sched_inv s -> wait_ticks (th_at (th s) 0) = 0 ->
  wait_ticks (th_at (th (sched_run evs s)) 0) = 0
  /\ (Forall (leaves_alone 0) evs ->
      priority (th_at (th (sched_run evs s)) 0) = priority (th_at (th s) 0)).
Proof.
  revert s. induction evs as [|e evs IH]; intros s Hinv Hw; [done|].
  destruct (lookup_lt_is_Some_2 (th s) 0) as [t Ht].
  { destruct Hinv as (Hlen & _). lia. }
  destruct (sched_step_boot e s t Hinv Ht) as (t' & Ht' & Hw' & Hp').
  rewrite (th_at_boot _ _ Ht) in Hw |- *.
  assert (Hw1 : wait_ticks (th_at (th (sched_step e s)) 0) = 0).
  { rewrite (th_at_boot _ _ Ht'). destruct Hw'; congruence. }
  destruct (IH (sched_step e s) (sched_step_inv e s Hinv) Hw1) as [Hw2 Hp2].
  cbn [sched_run]. split; [exact Hw2|].
  intros Hle. rewrite Hp2 by (by inversion Hle).
  rewrite (th_at_boot _ _ Ht'). apply Hp'. by inversion Hle.
Qed.

(** C7, as the code has it.  In a state reached from [sched_init], a timer
    tick increments [wait_ticks] of every READY thread in slots 1..15 (the
    current thread is RUNNING), and a thread whose incremented [wait_ticks]
    has reached [AGING_THRESHOLD] and whose priority is above REALTIME is
    promoted one level, with [wait_ticks] reset and the slice refilled.  A
    thread of slots 1..15 that stays READY and is not the target of
    [sched_set_priority] is REALTIME after [3 * AGING_THRESHOLD] ticks.  The
    bootstrap thread of slot 0 is not aged: whatever the scheduler does,
    READY or not, its [wait_ticks] stays 0, and its priority is the one it
    had unless [sched_set_priority] is called on it. *)
Theorem kernel_aging :
  (forall s sp (i : nat) t,
     sched_reachable s -> (1 <= i <= 15)%nat ->
     th s !! i = Some t -> state t = T_READY ->
     exists t', th (sched_tick sp s) !! i = Some t'
       /\ let w1 := u16 (wait_ticks t + 1) in
          if (AGING_THRESHOLD <=? w1) && (SCHED_PRIORITY_REALTIME <? priority t)
          then priority t' = priority t - 1 /\ wait_ticks t' = 0
               /\ slice_left t' = priority_quantum (priority t - 1)
          else priority t' = priority t
               /\ (state t' = T_READY -> wait_ticks t' = w1))
  /\ (forall s evs (i : nat),
        sched_reachable s -> (1 <= i <= 15)%nat ->
        Forall (leaves_alone i) evs -> ready_throughout i evs s ->
        3 * AGING_THRESHOLD <= ticks evs ->
        priority (th_at (th (sched_run evs s)) (Z.of_nat i))
        = SCHED_PRIORITY_REALTIME)
  /\ (forall s evs,
        sched_reachable s ->
        wait_ticks (th_at (th s) 0) = 0
        /\ wait_ticks (th_at (th (sched_run evs s)) 0) = 0
        /\ (Forall (leaves_alone 0) evs ->
            priority (th_at (th (sched_run evs s)) 0)
            = priority (th_at (th s) 0))).
Proof.
  split; [|split].
  - intros s sp i t Hreach Hi Ht Hr.
    pose proof (sched_reachable_inv s Hreach) as Hinv.
    assert (Hok : thread_ok t).
    { destruct Hinv as (_ & _ & _ & Hok). by apply (Forall_lookup_1 _ _ _ _ Hok Ht). }
    assert (Hne : Z.of_nat i <> current s).
    { destruct Hinv as (_ & _ & Hrun & _). intros Heq.
      rewrite <- Heq, (th_at_lookup _ _ _ Ht) in Hrun. congruence. }
    destruct (age_bump_fields t Hok Hr) as [Hst Hf]. cbv zeta in Hf |- *.
    destruct (sched_tick_slot sp s i t Hinv Hi Hne Ht) as [H|H];
      rewrite H; eexists; (split; [reflexivity|]).
    + destruct (_ && _); [done|]. by destruct Hf.
    + destruct (_ && _).
      * destruct Hf as (Hp & Hw & Hs). unfold yield_next, refill_thread.
        cbn [priority wait_ticks slice_left set_slice_left set_wait_ticks set_state].
        split; [done|]. split; [done|]. rewrite Hp.
        destruct Hok as (Hp3 & _).
        assert (Hc : priority t - 1 = 0 \/ priority t - 1 = 1
                     \/ priority t - 1 = 2 \/ priority t - 1 < 0
                     \/ 3 <= priority t - 1) by lia.
        destruct Hc as [-> | [-> | [-> | [Hneg | Hbig]]]]; try reflexivity.
        -- unfold priority_quantum.
           destruct (Z.ltb_spec (priority t - 1) 0); [reflexivity | lia].
        -- lia.
      * destruct Hf as [Hp _]. split; [done|]. intros Hs. discriminate.
  - intros s evs i Hreach Hi Hle Hready Hticks.
    pose proof (sched_reachable_inv s Hreach) as Hinv.
    destruct (lookup_lt_is_Some_2 (th s) i) as [t Ht].
    { destruct Hinv as (Hlen & _). lia. }
    destruct (run_potential evs s i t Hinv Hi Ht Hle Hready) as (t' & Ht' & Hpot).
    rewrite (th_at_lookup _ _ _ Ht').
    pose proof (sched_run_inv evs s Hinv) as (_ & _ & _ & Hok').
    destruct (potential_bounds t' (Forall_lookup_1 _ _ _ _ Hok' Ht')) as [_ Hz].
    destruct Hinv as (_ & _ & _ & Hok).
    destruct (potential_bounds t (Forall_lookup_1 _ _ _ _ Hok Ht)) as [Hb _].
    unfold AGING_THRESHOLD in Hticks. apply Hz. lia.
  - intros s evs Hreach.
    pose proof (sched_reachable_inv s Hreach) as Hinv.
    assert (Hw : wait_ticks (th_at (th s) 0) = 0).
    { destruct Hreach as [evs0 ->].
      by apply (sched_run_boot evs0 sched_init sched_init_inv). }
    split; [exact Hw|]. by apply sched_run_boot.
Qed.

(** Two REALTIME threads keep the CPU busy while a BATCH thread waits. *)
Definition starving : list sched_event :=
  [ EvCreate 4096 "a"; EvCreate 8192 "b"; EvCreate 12288 "c";
    EvSetPriority 1 0; EvSetPriority 3 0; EvSetPriority 2 3; EvYield 0 ].

(** The bootstrap thread has yielded to the one other thread: slot 0 is
    READY and not current. *)
Definition bootstrap_waiting : sched_state :=
  sched_run [EvCreate 4096 "a"; EvYield 0] sched_init.

Fixpoint ready_throughoutb (i : nat) (evs : list sched_event) (s : sched_state)
  : bool :=
  bool_decide (state (th_at (th s) (Z.of_nat i)) = T_READY)
  && match evs with
     | [] => true
     | e :: rest => ready_throughoutb i rest (sched_step e s)
     end.

Lemma ready_throughoutb_true i evs s :
  ready_throughoutb i evs s = true -> ready_throughout i evs s.
Proof.
  revert s. induction evs as [|e evs IH]; intros s; simpl;
    rewrite andb_true_iff, bool_decide_eq_true; intros [H1 H2];
    (split; [done|]); [done | by apply IH].
Qed.

Lemma kernel_aging_witness :
  (exists t', th (sched_tick 0 (sched_run (starving ++ replicate 31 (EvTick 0))
                                  sched_init)) !! 2%nat = Some t'
     /\ priority t' = 2 /\ wait_ticks t' = 0 /\ slice_left t' = 10)
  /\ priority (th_at (th (sched_run (replicate 96 (EvTick 0))
                            (sched_run starving sched_init))) 2) = 0
  /\ (state (th_at (th bootstrap_waiting) 0) = T_READY
      /\ wait_ticks (th_at (th (sched_run (replicate 96 (EvTick 0))
                                  bootstrap_waiting)) 0) = 0
      /\ priority (th_at (th (sched_run (replicate 96 (EvTick 0))
                                bootstrap_waiting)) 0)
         = priority (th_at (th bootstrap_waiting) 0)).
Proof.
  destruct kernel_aging as (Htick & Hrun & Hboot). split; [|split].
  - edestruct (Htick (sched_run (starving ++ replicate 31 (EvTick 0)) sched_init)
                 0 2%nat) as (t' & Ht' & Hf).
    + by eexists.
    + lia.
    + vm_compute. reflexivity.
    + reflexivity.
    + exists t'. split; [exact Ht'|]. vm_compute in Hf. exact Hf.
  - apply (Hrun (sched_run starving sched_init) (replicate 96 (EvTick 0)) 2%nat).
    + by exists starving.
    + lia.
    + apply Forall_replicate. exact I.
    + apply ready_throughoutb_true. vm_compute. reflexivity.
    + vm_compute. discriminate.
  - destruct (Hboot bootstrap_waiting (replicate 96 (EvTick 0)))
      as (_ & Hw & Hp); [by eexists|].
    split; [reflexivity|]. split; [exact Hw|].
    apply Hp. apply Forall_replicate. exact I.
Defined.

(** The exclusion of [sched_set_priority] in the second part of
    [kernel_aging] is needed: the call clears [wait_ticks] and sets the
    priority, so that a thread which is READY throughout 96 ticks, promoted
    once after 32 of them and set back to BATCH after 50, is BACKGROUND at
    the end and not REALTIME. *)
Lemma set_priority_restarts_aging :
  let evs := replicate 50 (EvTick 0) ++ [EvSetPriority 2 3]
             ++ replicate 46 (EvTick 0) in
  let s := sched_run starving sched_init in
  sched_reachable s
  /\ ready_throughout 2 evs s
  /\ ticks evs = 3 * AGING_THRESHOLD
  /\ ~ Forall (leaves_alone 2) evs
  /\ priority (th_at (th (sched_run (replicate 50 (EvTick 0)) s)) 2)
     = SCHED_PRIORITY_BACKGROUND
  /\ priority (th_at (th (sched_run evs s)) 2) = SCHED_PRIORITY_BACKGROUND
  /\ priority (th_at (th (sched_run evs s)) 2) <> SCHED_PRIORITY_REALTIME.
Proof.
  cbv zeta. split; [by exists starving|].
  split; [apply ready_throughoutb_true; vm_compute; reflexivity|].
  split; [vm_compute; reflexivity|].
  split.
  { intros H.
    apply (Forall_lookup_1 _ _ 50%nat (EvSetPriority 2 3)) in H; [|reflexivity].
    simpl in H. by apply H. }
  split; [vm_compute; reflexivity|].
  split; [vm_compute; reflexivity | vm_compute; discriminate].
Qed.

(** C7 as stated fails for the bootstrap thread: once another thread runs,
    slot 0 is READY and not current, yet no loop of the scheduler visits it.
    Its [wait_ticks] is not incremented by a tick and after 96 ticks of
    continuous readiness it is still BATCH. *)
Lemma kernel_aging_counterexample :
  sched_reachable bootstrap_waiting
  /\ state (th_at (th bootstrap_waiting) 0) = T_READY
  /\ current bootstrap_waiting = 1
  /\ wait_ticks (th_at (th bootstrap_waiting) 0) = 0
  /\ wait_ticks (th_at (th (sched_tick 0 bootstrap_waiting)) 0) = 0
  /\ ready_throughout 0 (replicate 96 (EvTick 0)) bootstrap_waiting
  /\ priority (th_at (th (sched_run (replicate 96 (EvTick 0)) bootstrap_waiting)) 0)
     = SCHED_PRIORITY_BATCH
  /\ SCHED_PRIORITY_BATCH <> SCHED_PRIORITY_REALTIME.
Proof.
  split; [by eexists|].
  split; [reflexivity|]. split; [reflexivity|]. split; [reflexivity|].
  split; [vm_compute; reflexivity|].
  split; [apply ready_throughoutb_true; vm_compute; reflexivity|].
  split; [vm_compute; reflexivity | discriminate].
Qed.
End AgingSpec.

(** * kernel/sched/sched.c: what the operations keep and what they never do *)

Module KSchedExtra.
Import KSched KSchedSpec AgingSpec.

#[local] Arguments select_next : simpl never.
#[local] Arguments apply_aging : simpl never.
#[local] Arguments tick_table : simpl never.
#[local] Arguments for_range : simpl never.

Lemma priority_quantum_bounds p : 0 <= priority_quantum p <= 18.
Proof.
  unfold priority_quantum. destruct (p <? 0); [lia|].
  destruct (Z.to_nat p) as [|[|[|[|[|n]]]]]; simpl; lia.
Qed.

Lemma priority_quantum_pos p : 0 <= p <= 3 -> 4 <= priority_quantum p.
Proof.
  intros Hp. assert (Hc : p = 0 \/ p = 1 \/ p = 2 \/ p = 3) by lia.
  destruct Hc as [-> | [-> | [-> | ->]]]; vm_compute; discriminate.
Qed.

Lemma refill_thread_slice t :
  slice_left (refill_thread t) = priority_quantum (priority t).
Proof.
  unfold refill_thread. cbn [slice_left set_slice_left].
  apply u8_small. pose proof (priority_quantum_bounds (priority t)). lia.
Qed.

(** [select_next] finds a thread whenever one of slots 1..15 is READY. *)
Lemma select_next_none l :
  select_next l = -1 -> forall j, 1 <= j <= 15 -> state (th_at l j) <> T_READY.
Proof.
  pose proof (select_next_inv l) as H. unfold select_next.
  destruct (for_range 1 15 (select_step l) (-1, SCHED_PRIORITY_LEVELS, -1))
    as [[best bp] bw]. simpl in *. intros ->.
  destruct H as [[_ Hnone]|(Hb & _)]; [|lia].
  intros j Hj. apply Hnone. lia.
Qed.

Lemma select_next_some l :
  (exists j, 1 <= j <= 15 /\ state (th_at l j) = T_READY) ->
  1 <= select_next l <= 15 /\ state (th_at l (select_next l)) = T_READY.
Proof.
  intros (j & Hj & Hr). destruct (select_next_range l) as [Hn|H]; [|done].
  exfalso. by apply (select_next_none l Hn j).
Qed.

(** ** The per-thread and the global invariant *)

Definition slot_ok (t : kthread) : Prop :=
  0 <= slice_left t <= priority_quantum (priority t) /\ state t <> T_BLOCKED.

Definition run_inv (s : sched_state) : Prop :=
  sched_inv s
  /\ Forall slot_ok (th s)
  /\ (forall (j : nat) t, th s !! j = Some t -> state t = T_RUNNING ->
                          Z.of_nat j = current s).

Definition slice_pos (s : sched_state) : Prop :=
  1 <= slice_left (th_at (th s) (current s)).

Lemma slot_ok_refill t : state t <> T_BLOCKED -> slot_ok (refill_thread t).
Proof.
  intros Hs. split; [|done]. rewrite refill_thread_slice.
  pose proof (priority_quantum_bounds (priority t)).
  change (priority (refill_thread t)) with (priority t). lia.
Qed.

Lemma slot_ok_bump t : slot_ok t -> slot_ok (bump_thread t).
Proof. unfold bump_thread. by destruct (is_ready t). Qed.

Lemma dec_slice_value t :
  0 <= slice_left t <= 18 ->
  slice_left (dec_slice t) = Z.max 0 (slice_left t - 1).
Proof.
  intros Hs. unfold dec_slice. destruct (Z.ltb_spec 0 (slice_left t)).
  - cbn [slice_left set_slice_left]. rewrite u8_small by lia. lia.
  - lia.
Qed.

Lemma slot_ok_dec t : slot_ok t -> slot_ok (dec_slice t).
Proof.
  intros [Hs Hb]. pose proof (priority_quantum_bounds (priority t)).
  split; [|by rewrite dec_slice_state].
  rewrite dec_slice_value by lia.
  replace (priority (dec_slice t)) with (priority t);
    [lia | unfold dec_slice; by destruct (0 <? slice_left t)].
Qed.

Lemma slot_ok_age t : slot_ok t -> slot_ok (age_thread t).
Proof.
  intros [Hs Hb]. unfold age_thread. destruct (aging_due t); [|done].
  by apply slot_ok_refill.
Qed.

Lemma slot_ok_yield_prev sp t : slot_ok (yield_prev sp t).
Proof.
  unfold yield_prev.
  destruct (slot_ok_refill (set_wait_ticks 0 (set_state T_READY t))) as [H1 H2];
    [done|]. split; [exact H1 | done].
Qed.

Lemma slot_ok_yield_next t : slot_ok (yield_next t).
Proof. unfold yield_next. by apply slot_ok_refill. Qed.

Lemma slot_ok_created new_esp nm t : slot_ok (created new_esp nm t).
Proof. unfold created. by apply slot_ok_refill. Qed.

Lemma tick_table_slot_ok c l : Forall slot_ok l -> Forall slot_ok (tick_table c l).
Proof.
  intros Hl. apply Forall_lookup_2. intros j t'. rewrite tick_table_lookup.
  destruct (l !! j) as [t|] eqn:Ht; [|done]. rewrite fmap_of_Some.
  cbv beta zeta. intros [= <-].
  pose proof (Forall_lookup_1 _ _ _ _ Hl Ht) as Hok.
  assert (H1 : slot_ok (if decide ((1 <= j < 16)%nat /\ j <> c)
                        then bump_thread t else t)).
  { case_decide; [by apply slot_ok_bump | done]. }
  assert (H2 : slot_ok (if decide (j = c)
                        then dec_slice (if decide ((1 <= j < 16)%nat /\ j <> c)
                                        then bump_thread t else t)
                        else (if decide ((1 <= j < 16)%nat /\ j <> c)
                              then bump_thread t else t))).
  { destruct (decide (j = c)); [by apply slot_ok_dec | done]. }
  destruct (decide (1 <= j < 16)%nat); [by apply slot_ok_age | done].
Qed.

Lemma tick_table_nat_state c l (j : nat) t' :
  tick_table c l !! j = Some t' ->
  exists t, l !! j = Some t /\ state t' = state t.
Proof.
  intros H. destruct (l !! j) as [t|] eqn:Ht.
  - exists t. split; [done|].
    pose proof (tick_table_state c l (Z.of_nat j)) as Hs.
    by rewrite (th_at_lookup _ _ _ H), (th_at_lookup _ _ _ Ht) in Hs.
  - rewrite tick_table_lookup, Ht in H. done.
Qed.

(** ** [sched_yield] *)

Lemma sched_yield_split sp s :
  sched_inv s ->
  (select_next (th s) = -1 /\ sched_yield sp s = s)
  \/ (let next := select_next (th s) in
      1 <= next <= 15 /\ next <> current s
      /\ state (th_at (th s) next) = T_READY
      /\ current (sched_yield sp s) = next
      /\ length (th (sched_yield sp s)) = 16%nat
      /\ forall j, th (sched_yield sp s) !! j =
           (fun t => if decide (j = Z.to_nat (current s)) then yield_prev sp t
                     else if decide (j = Z.to_nat next) then yield_next t
                     else t) <$> th s !! j).
Proof.
  intros Hinv. pose proof Hinv as (Hlen & Hcur & Hrun & Hok).
  destruct (select_next_range (th s)) as [Hn|[Hn Hr]].
  - left. split; [done|]. unfold sched_yield. cbv zeta.
    rewrite (apply_aging_id _ Hok), Hn. cbn [Z.ltb Z.compare orb]. by destruct s.
  - right. destruct (sched_yield_cases sp s Hinv) as [Heq|Hsw]; [|exact Hsw].
    exfalso. assert (Hne : select_next (th s) <> current s).
    { intros E. rewrite E in Hr. congruence. }
    assert (Hc : current (sched_yield sp s) = select_next (th s)).
    { unfold sched_yield. cbv zeta. rewrite (apply_aging_id _ Hok).
      destruct (Z.ltb_spec (select_next (th s)) 0); [lia|]. cbn [orb].
      destruct (Z.eqb_spec (select_next (th s)) (current s)); [done|].
      reflexivity. }
    rewrite Heq in Hc. congruence.
Qed.

Lemma sched_yield_run_inv sp s :
  run_inv s -> slice_pos s ->
  run_inv (sched_yield sp s) /\ slice_pos (sched_yield sp s).
Proof.
  intros (Hinv & Hslots & Huniq) Hpos.
  destruct (sched_yield_split sp s Hinv) as [[_ ->]|Hsw]; [done|].
  cbv zeta in Hsw. destruct Hsw as (Hn & Hne & Hr & Hcur & Hlen & Hth).
  pose proof Hinv as (Hlen0 & Hcur0 & Hrun & Hok).
  destruct (lookup_lt_is_Some_2 (th s) (Z.to_nat (select_next (th s))) ltac:(lia))
    as [tn Htn].
  assert (Hnew : th (sched_yield sp s) !! Z.to_nat (select_next (th s))
                 = Some (yield_next tn)).
  { rewrite Hth, Htn, fmap_of_Some. cbv beta.
    rewrite decide_False by lia. by rewrite decide_True. }
  split; [split; [by apply sched_yield_inv|split]|].
  - apply Forall_lookup_2. intros j t'. rewrite Hth.
    destruct (th s !! j) as [t|] eqn:Ht; [|done].
    rewrite fmap_of_Some. cbv beta. intros [= <-].
    destruct (decide (j = Z.to_nat (current s))); [apply slot_ok_yield_prev|].
    destruct (decide (j = Z.to_nat (select_next (th s))));
      [apply slot_ok_yield_next|].
    by apply (Forall_lookup_1 _ _ _ _ Hslots Ht).
  - intros j t'. rewrite Hth, Hcur.
    destruct (th s !! j) as [t|] eqn:Ht; [|done].
    rewrite fmap_of_Some. cbv beta. intros [= <-].
    destruct (decide (j = Z.to_nat (current s))); [done|].
    destruct (decide (j = Z.to_nat (select_next (th s)))); [intros _; lia|].
    intros Hst. specialize (Huniq j t Ht Hst). lia.
  - unfold slice_pos. rewrite Hcur.
    rewrite (th_at_Z_lookup _ (select_next (th s)) _ ltac:(lia) Hnew).
    unfold yield_next. rewrite refill_thread_slice. cbn [priority set_wait_ticks set_state].
    pose proof (Forall_lookup_1 _ _ _ _ Hok Htn) as (Hp & _).
    pose proof (priority_quantum_pos _ Hp). lia.
Qed.

(** ** [sched_tick] *)

Lemma sched_tick_split sp s :
  0 <= current s < 16 ->
  let c := Z.to_nat (current s) in
  let l3 := tick_table c (th s) in
  let next := select_next l3 in
  (0 <= next
   /\ (priority (th_at l3 next) < priority (th_at l3 (current s))
       \/ slice_left (th_at l3 (current s)) = 0)
   /\ sched_tick sp s
      = sched_yield sp (mk_sched (alter refill_thread c l3) (current s)))
  \/ (next < 0 /\ slice_left (th_at l3 (current s)) = 0
      /\ sched_tick sp s = mk_sched (alter refill_thread c l3) (current s))
  \/ (slice_left (th_at l3 (current s)) <> 0
      /\ (next < 0
          \/ priority (th_at l3 (current s)) <= priority (th_at l3 next))
      /\ sched_tick sp s = mk_sched l3 (current s)).
Proof.
  intros Hcur. cbv zeta. unfold sched_tick.
  destruct (Z.ltb_spec (current s) 0); [lia|]. cbv zeta.
  assert (Hl3 :
    apply_aging
      (if 0 <? slice_left (th_at (for_range 1 15 (bump_slot (current s)) (th s))
                                 (current s))
       then alter (fun t => set_slice_left (u8 (slice_left t - 1)) t)
                  (Z.to_nat (current s))
                  (for_range 1 15 (bump_slot (current s)) (th s))
       else for_range 1 15 (bump_slot (current s)) (th s))
    = tick_table (Z.to_nat (current s)) (th s)).
  { unfold tick_table. rewrite Z2Nat.id by lia.
    rewrite <- (dec_slice_alter (Z.to_nat (current s))).
    by rewrite Z2Nat.id by lia. }
  rewrite Hl3.
  set (l3 := tick_table (Z.to_nat (current s)) (th s)).
  destruct (Z.leb_spec 0 (select_next l3));
    destruct (Z.ltb_spec (priority (th_at l3 (select_next l3)))
                         (priority (th_at l3 (current s))));
    destruct (Z.eqb_spec (slice_left (th_at l3 (current s))) 0);
    cbn [andb orb]; rewrite ?refill_slice_Z by lia;
    first [ left; split; [lia|]; split; [lia|]; reflexivity
          | right; left; split; [lia|]; split; [lia|]; reflexivity
          | right; right; split; [lia|]; split; [lia|]; reflexivity ].
Qed.

Lemma tick_table_current s t :
  sched_inv s -> th s !! Z.to_nat (current s) = Some t ->
  tick_table (Z.to_nat (current s)) (th s) !! Z.to_nat (current s)
  = Some (dec_slice t).
Proof.
  intros (Hlen & Hcur & Hrun & Hok) Ht.
  rewrite tick_table_lookup, Ht, fmap_of_Some. cbv beta zeta.
  destruct (decide ((1 <= Z.to_nat (current s) < 16)%nat
                    /\ Z.to_nat (current s) <> Z.to_nat (current s)))
    as [[_ ?]|_]; [done|].
  rewrite (decide_True (P := Z.to_nat (current s) = Z.to_nat (current s))) by done.
  assert (Hst : state t = T_RUNNING).
  { by rewrite (th_at_Z_lookup _ (current s) _ ltac:(lia) Ht) in Hrun. }
  assert (Hage : age_thread (dec_slice t) = dec_slice t).
  { unfold age_thread, aging_due, is_ready.
    rewrite bool_decide_eq_false_2; [done|]. rewrite dec_slice_state. congruence. }
  case_decide; [by rewrite Hage | done].
Qed.

Lemma tick_table_run_inv s :
  run_inv s ->
  run_inv (mk_sched (tick_table (Z.to_nat (current s)) (th s)) (current s))
  /\ run_inv (mk_sched (alter refill_thread (Z.to_nat (current s))
                          (tick_table (Z.to_nat (current s)) (th s)))
                       (current s)).
Proof.
  intros (Hinv & Hslots & Huniq).
  destruct (tick_table_inv s Hinv) as [H3 H4].
  assert (Hu3 : forall (j : nat) t,
             tick_table (Z.to_nat (current s)) (th s) !! j = Some t ->
             state t = T_RUNNING -> Z.of_nat j = current s).
  { intros j t' Ht' Hst. destruct (tick_table_nat_state _ _ _ _ Ht') as (t & Ht & Hs).
    apply (Huniq j t Ht). congruence. }
  split.
  - split; [done|]. split; [by apply tick_table_slot_ok | exact Hu3].
  - split; [done|]. split.
    + cbn [th]. apply Forall_alter; [by apply tick_table_slot_ok|].
      intros t _ [_ Hb]. by apply slot_ok_refill.
    + cbn [th current]. intros j t'. rewrite list_lookup_alter.
      case_decide.
      * subst j. intros _ _. destruct Hinv as (_ & Hc & _). lia.
      * apply Hu3.
Qed.

Lemma refilled_slice_pos l c :
  length l = 16%nat -> 0 <= c < 16 -> Forall thread_ok l ->
  slice_pos (mk_sched (alter refill_thread (Z.to_nat c) l) c).
Proof.
  intros Hlen Hcur Hok. unfold slice_pos. cbn [th current].
  destruct (lookup_lt_is_Some_2 l (Z.to_nat c) ltac:(lia)) as [t Ht].
  rewrite (th_at_Z_lookup _ c (refill_thread t)); [|lia|].
  - rewrite refill_thread_slice.
    pose proof (Forall_lookup_1 _ _ _ _ Hok Ht) as (Hp & _).
    pose proof (priority_quantum_pos _ Hp). lia.
  - by rewrite list_lookup_alter_eq, Ht.
Qed.

Lemma sched_tick_run_inv sp s :
  run_inv s -> slice_pos s ->
  run_inv (sched_tick sp s) /\ slice_pos (sched_tick sp s).
Proof.
  intros Hrinv Hpos. destruct (tick_table_run_inv s Hrinv) as [H3 H4].
  pose proof Hrinv as (Hinv & Hslots & Huniq).
  pose proof Hinv as (Hlen & Hcur & Hrun & Hok).
  assert (Hp4 : slice_pos (mk_sched (alter refill_thread (Z.to_nat (current s))
                          (tick_table (Z.to_nat (current s)) (th s))) (current s))).
  { apply refilled_slice_pos; [by rewrite tick_table_length | done |].
    by apply tick_table_ok. }
  destruct (sched_tick_split sp s Hcur) as [(_ & _ & ->)|[(_ & _ & ->)|(Hs & _ & ->)]].
  - by apply sched_yield_run_inv.
  - done.
  - split; [done|]. unfold slice_pos. cbn [th current].
    destruct (lookup_lt_is_Some_2 (th s) (Z.to_nat (current s)) ltac:(lia)) as [t Ht].
    pose proof (tick_table_current s t Hinv Ht) as Hl.
    rewrite (th_at_Z_lookup _ (current s) _ ltac:(lia) Hl) in Hs |- *.
    destruct (Forall_lookup_1 _ _ _ _ Hslots Ht) as [Hsl _].
    pose proof (priority_quantum_bounds (priority t)).
    rewrite dec_slice_value in Hs |- * by lia. lia.
Qed.

(** ** [kthread_create], [sched_set_priority], [sched_init] *)

Lemma kthread_create_run_inv new_esp nm s :
  run_inv s -> slice_pos s ->
  run_inv (fst (kthread_create new_esp nm s))
  /\ slice_pos (fst (kthread_create new_esp nm s)).
Proof.
  intros (Hinv & Hslots & Huniq) Hpos.
  pose proof (kthread_create_inv new_esp nm s Hinv) as Hinv'.
  destruct (kthread_create_cases new_esp nm s) as [->|(k & t & Hk & Ht & Hu & Heq)];
    [done|].
  rewrite Heq in Hinv' |- *. pose proof Hinv as (Hlen & Hcur & Hrun & Hok).
  assert (Hkc : Z.of_nat k <> current s).
  { intros E. rewrite <- E, (th_at_lookup _ _ _ Ht) in Hrun. congruence. }
  split; [split; [done|split]|].
  - cbn [th]. apply Forall_alter; [done|]. intros ? _ _. apply slot_ok_created.
  - cbn [th current]. intros j t'. rewrite list_lookup_alter. case_decide.
    + subst j. rewrite Ht, fmap_of_Some. by intros [= <-].
    + apply Huniq.
  - unfold slice_pos in *. cbn [th current]. by rewrite th_at_alter_ne.
Qed.

Lemma sched_set_priority_run_inv pid prio s :
  run_inv s -> slice_pos s ->
  run_inv (fst (sched_set_priority pid prio s))
  /\ slice_pos (fst (sched_set_priority pid prio s)).
Proof.
  intros (Hinv & Hslots & Huniq) Hpos.
  pose proof (sched_set_priority_inv pid prio s Hinv) as Hinv'.
  destruct (sched_set_priority_cases pid prio s)
    as [->|(t & Hpid & Hprio & Ht & Heq)]; [done|].
  rewrite Heq in Hinv' |- *. pose proof Hinv as (Hlen & Hcur & Hrun & Hok).
  destruct (Forall_lookup_1 _ _ _ _ Hslots Ht) as [_ Hnb].
  pose proof (priority_quantum_pos prio ltac:(lia)) as Hq.
  split; [split; [done|split]|].
  - cbn [th]. apply Forall_insert; [done|]. split; [cbn; lia | done].
  - cbn [th current]. intros j t'.
    destruct (decide (j = Z.to_nat pid)) as [->|Hne].
    + rewrite list_lookup_insert_eq by (by apply lookup_lt_Some in Ht).
      intros [= <-]. cbn [state]. by apply Huniq.
    + rewrite list_lookup_insert_ne by done. apply Huniq.
  - unfold slice_pos in *. cbn [th current].
    destruct (decide (current s = pid)) as [E|Hne].
    + rewrite (th_at_Z_lookup _ _ (mk_kthread (esp t) (state t) (name t) prio
                                      (priority_quantum prio) 0)); [cbn; lia|lia|].
      rewrite E. by rewrite list_lookup_insert_eq by (by apply lookup_lt_Some in Ht).
    + destruct (lookup_lt_is_Some_2 (th s) (Z.to_nat (current s)) ltac:(lia))
        as [tc Htc].
      rewrite (th_at_Z_lookup _ (current s) _ ltac:(lia) Htc) in Hpos.
      rewrite (th_at_Z_lookup _ _ tc); [done|lia|].
      by rewrite list_lookup_insert_ne by lia.
Qed.

Lemma sched_init_run_inv : run_inv sched_init /\ slice_pos sched_init.
Proof.
  split; [split; [apply sched_init_inv|split]|].
  - let l := eval vm_compute in (th sched_init) in
    change (th sched_init) with l.
    repeat (apply List.Forall_cons; [split; [vm_compute; split; discriminate
                                            | discriminate]|]).
    apply List.Forall_nil.
  - intros j t. let l := eval vm_compute in (th sched_init) in
    change (th sched_init) with l.
    destruct j as [|j]; [done|].
    do 15 (destruct j as [|j]; [by intros [= <-]|]). done.
  - vm_compute. discriminate.
Qed.

Lemma sched_step_run_inv e s :
  run_inv s -> slice_pos s ->
  run_inv (sched_step e s) /\ slice_pos (sched_step e s).
Proof.
  destruct e; cbn [sched_step].
  - apply sched_tick_run_inv.
  - apply sched_yield_run_inv.
  - apply kthread_create_run_inv.
  - apply sched_set_priority_run_inv.
Qed.

Lemma sched_run_run_inv evs s :
  run_inv s -> slice_pos s ->
  run_inv (sched_run evs s) /\ slice_pos (sched_run evs s).
Proof.
  revert s. induction evs as [|e evs IH]; intros s Hi Hp; [done|].
  cbn [sched_run]. destruct (sched_step_run_inv e s Hi Hp). by apply IH.
Qed.

Lemma sched_reachable_run_inv s :
  sched_reachable s -> run_inv s /\ slice_pos s.
Proof.
  intros [evs ->]. destruct sched_init_run_inv. by apply sched_run_run_inv.
Qed.


(** ** What one timer tick does *)

Lemma th_at_alter_proj {B : Type} (g : kthread -> B) f (i : nat) l (j : Z) :
  (forall t, g (f t) = g t) -> g (th_at (alter f i l) j) = g (th_at l j).
Proof.
  intros Hg. unfold th_at. destruct (j <? 0); [done|].
  rewrite list_lookup_alter. case_decide; [|done].
  subst i. destruct (l !! Z.to_nat j); [apply Hg | done].
Qed.

(** [select_next] reads only [state], [priority] and [wait_ticks]. *)
Lemma select_next_ext l l' :
  (forall j, 1 <= j <= 15 ->
     state (th_at l j) = state (th_at l' j)
     /\ priority (th_at l j) = priority (th_at l' j)
     /\ wait_ticks (th_at l j) = wait_ticks (th_at l' j)) ->
  select_next l = select_next l'.
Proof.
  intros H. unfold select_next. f_equal. f_equal. apply for_range_ext.
  intros i x Hi. unfold select_step. destruct x as [[b bp] bw].
  destruct (H (Z.of_nat i) ltac:(lia)) as (Hs & Hp & Hw).
  unfold is_ready. rewrite Hs, Hp, Hw. reflexivity.
Qed.

Lemma select_next_refill c l :
  select_next (alter refill_thread c l) = select_next l.
Proof.
  apply select_next_ext. intros j _.
  split; [|split]; by apply th_at_alter_proj.
Qed.

Lemma th_mk l c : th (mk_sched l c) = l.
Proof. reflexivity. Qed.

Lemma current_mk l c : current (mk_sched l c) = c.
Proof. reflexivity. Qed.

Lemma sched_tick_outcome sp s :
  run_inv s -> slice_pos s ->
  let l3 := tick_table (Z.to_nat (current s)) (th s) in
  let next := select_next l3 in
  let cur := th_at (th s) (current s) in
  let due := (exists j, 1 <= j <= 15 /\ state (th_at (th s) j) = T_READY)
             /\ (priority (th_at l3 next) < priority cur \/ slice_left cur = 1) in
  (due /\ 1 <= next <= 15 /\ next <> current s
   /\ current (sched_tick sp s) = next)
  \/ (~ due /\ current (sched_tick sp s) = current s
      /\ (forall j, state (th_at (th (sched_tick sp s)) j) = state (th_at (th s) j))
      /\ slice_left (th_at (th (sched_tick sp s)) (current s))
         = if slice_left cur =? 1 then priority_quantum (priority cur)
           else slice_left cur - 1).
Proof.
  intros Hrinv Hpos. cbv zeta.
  pose proof Hrinv as (Hinv & Hslots & Huniq).
  pose proof Hinv as (Hlen & Hcur & Hrun & Hok).
  destruct (lookup_lt_is_Some_2 (th s) (Z.to_nat (current s)) ltac:(lia)) as [t Ht].
  pose proof (tick_table_current s t Hinv Ht) as Hl3c.
  pose proof (th_at_Z_lookup _ (current s) _ ltac:(lia) Ht) as Hcur0.
  unfold slice_pos in Hpos. rewrite Hcur0 in Hpos |- *.
  destruct (Forall_lookup_1 _ _ _ _ Hslots Ht) as [Hsl _].
  pose proof (priority_quantum_bounds (priority t)) as Hq.
  pose proof (dec_slice_value t ltac:(lia)) as Hdv.
  assert (Hpr : priority (dec_slice t) = priority t).
  { unfold dec_slice. by destruct (0 <? slice_left t). }
  pose proof (tick_table_state (Z.to_nat (current s)) (th s)) as Hst3.
  destruct (tick_table_inv s Hinv) as [_ H4].
  pose proof (sched_tick_split sp s Hcur) as Hsplit. cbv zeta in Hsplit.
  revert Hl3c Hst3 H4 Hsplit.
  generalize (tick_table (Z.to_nat (current s)) (th s)). intros l3 Hl3c Hst3 H4 Hsplit.
  pose proof (th_at_Z_lookup _ (current s) _ ltac:(lia) Hl3c) as Hcur3.
  assert (Hready : (exists j, 1 <= j <= 15 /\ state (th_at (th s) j) = T_READY)
                   <-> 1 <= select_next l3 <= 15).
  { split.
    - intros (j & Hj & Hr). apply select_next_some. exists j. split; [done|].
      by rewrite Hst3.
    - intros Hn. destruct (select_next_range l3) as [E|[_ Hr]]; [lia|].
      exists (select_next l3). split; [done|]. by rewrite Hst3 in Hr. }
  destruct Hsplit as [(Hn & Hc & ->)|[(Hn & Hs0 & ->)|(Hs & Hc & ->)]].
  - left.
    assert (Hn1 : 1 <= select_next l3 <= 15)
      by (destruct (select_next_range l3) as [E|[? _]]; lia).
    rewrite Hcur3, Hpr, Hdv in Hc.
    split; [split; [by apply Hready | lia]|]. split; [done|].
    destruct (sched_yield_split sp
                (mk_sched (alter refill_thread (Z.to_nat (current s)) l3) (current s))
                H4) as [[Hnone _]|Hsw].
    + exfalso. rewrite th_mk, select_next_refill in Hnone. lia.
    + cbv zeta in Hsw. destruct Hsw as (_ & Hne & _ & Hcur' & _).
      rewrite th_mk, select_next_refill in Hne, Hcur'.
      rewrite current_mk in Hne. split; [exact Hne | exact Hcur'].
  - right. rewrite Hcur3, Hdv in Hs0.
    split; [intros [Hex _]; apply Hready in Hex; lia|].
    rewrite th_mk, current_mk. split; [done|]. split.
    + intros j. rewrite th_at_alter_state by done. apply Hst3.
    + rewrite (th_at_Z_lookup _ (current s) (refill_thread (dec_slice t)));
        [|lia|by rewrite list_lookup_alter_eq, Hl3c].
      rewrite refill_thread_slice, Hpr.
      destruct (Z.eqb_spec (slice_left t) 1); [done | lia].
  - right. rewrite Hcur3, Hdv in Hs. rewrite Hcur3, Hpr in Hc.
    split; [intros [Hex Hd]; apply Hready in Hex; lia|].
    rewrite th_mk, current_mk. split; [done|]. split.
    + intros j. apply Hst3.
    + rewrite Hcur3, Hdv. destruct (Z.eqb_spec (slice_left t) 1); lia.
Qed.

(** X1.  In a state reached from [sched_init], [sched_tick] switches threads
    exactly when some thread of slots 1..15 is READY and either the thread
    [select_next] picks after the wait counters are bumped and aging is
    applied has a strictly smaller priority number than the running thread,
    or the running thread is on the last tick of its slice; the thread
    switched to is that pick. *)
Theorem sched_tick_switch sp s :
  sched_reachable s ->
  let l3 := tick_table (Z.to_nat (current s)) (th s) in
  let next := select_next l3 in
  let cur := th_at (th s) (current s) in
  (current (sched_tick sp s) <> current s <->
     (exists j, 1 <= j <= 15 /\ state (th_at (th s) j) = T_READY)
     /\ (priority (th_at l3 next) < priority cur \/ slice_left cur = 1))
  /\ (current (sched_tick sp s) <> current s -> current (sched_tick sp s) = next).
Proof.
  intros Hr. destruct (sched_reachable_run_inv s Hr) as [Hinv Hpos].
  cbv zeta.
  destruct (sched_tick_outcome sp s Hinv Hpos)
    as [(Hdue & Hn & Hne & Hc)|(Hnd & Hc & _)]; cbv zeta in *.
  - rewrite Hc. split; [split; [done|]|]; done.
  - rewrite Hc. split; [split; [done|]|]; [|done]. intros Hdue. by destruct Hnd.
Qed.

Definition one_spawned : sched_state := sched_run [EvCreate 4096 "a"] sched_init.

Lemma one_spawned_reachable : sched_reachable one_spawned.
Proof. exists [EvCreate 4096 "a"]. reflexivity. Qed.

Definition one_ticked : sched_state :=
  sched_run [EvCreate 4096 "a"; EvTick 0] sched_init.

Lemma one_ticked_reachable : sched_reachable one_ticked.
Proof. exists [EvCreate 4096 "a"; EvTick 0]. reflexivity. Qed.

Lemma sched_tick_switch_witness :
  current (sched_tick 0 one_spawned) <> current one_spawned
  /\ current (sched_tick 0 one_spawned) = 1.
Proof.
  destruct (sched_tick_switch 0 one_spawned one_spawned_reachable) as [Hiff Hnext].
  assert (H : current (sched_tick 0 one_spawned) <> current one_spawned).
  { apply Hiff. split; [exists 1; split; [lia | reflexivity]|].
    left. vm_compute. reflexivity. }
  split; [exact H|]. rewrite (Hnext H). vm_compute. reflexivity.
Defined.

(** With [n] an upper bound of the slice that is left. *)
Lemma time_slice_run sp (n : nat) s :
  run_inv s -> slice_pos s ->
  (exists j, 1 <= j <= 15 /\ state (th_at (th s) j) = T_READY) ->
  slice_left (th_at (th s) (current s)) <= Z.of_nat n ->
  exists k : nat,
    (1 <= k)%nat /\ Z.of_nat k <= slice_left (th_at (th s) (current s))
    /\ current (sched_run (replicate k (EvTick sp)) s) <> current s.
Proof.
  revert s. induction n as [|n IH]; intros s Hinv Hpos Hex Hle.
  - unfold slice_pos in Hpos. lia.
  - destruct (sched_tick_outcome sp s Hinv Hpos)
      as [(_ & _ & Hne & Hc)|(Hnd & Hc & Hst & Hsl)]; cbv zeta in *.
    + exists 1%nat. unfold slice_pos in Hpos. split; [lia|]. split; [lia|].
      cbn [replicate sched_run sched_step]. congruence.
    + destruct (sched_tick_run_inv sp s Hinv Hpos) as [Hinv' Hpos'].
      assert (Hs1 : slice_left (th_at (th s) (current s)) <> 1).
      { intros E. apply Hnd. split; [done | by right]. }
      destruct (Z.eqb_spec (slice_left (th_at (th s) (current s))) 1); [done|].
      destruct (IH (sched_tick sp s) Hinv' Hpos') as (k & Hk1 & Hk & Hcur).
      * destruct Hex as (j & Hj & Hr). exists j. by rewrite Hst.
      * rewrite Hc, Hsl. lia.
      * exists (S k). split; [lia|]. split; [rewrite Hc, Hsl in Hk; lia|].
        cbn [replicate sched_run sched_step]. by rewrite <- Hc.
Qed.

(** X2.  Time slicing: while some thread of slots 1..15 is READY, the running
    thread is switched out after at most as many timer ticks as its slice
    has left, which is never more than its priority's quantum. *)
Theorem time_slice_bound sp s :
  sched_reachable s ->
  (exists j, 1 <= j <= 15 /\ state (th_at (th s) j) = T_READY) ->
  let cur := th_at (th s) (current s) in
  slice_left cur <= priority_quantum (priority cur)
  /\ priority_quantum (priority cur) <= 18
  /\ exists k : nat,
       (1 <= k)%nat /\ Z.of_nat k <= slice_left cur
       /\ current (sched_run (replicate k (EvTick sp)) s) <> current s.
Proof.
  intros Hr Hex. destruct (sched_reachable_run_inv s Hr) as [Hinv Hpos].
  cbv zeta. split; [|split].
  - destruct Hinv as (Hs & Hslots & _). destruct Hs as (Hlen & Hcur & _).
    destruct (lookup_lt_is_Some_2 (th s) (Z.to_nat (current s)) ltac:(lia)) as [t Ht].
    rewrite (th_at_Z_lookup _ (current s) _ ltac:(lia) Ht).
    destruct (Forall_lookup_1 _ _ _ _ Hslots Ht) as [Hsl _]. lia.
  - apply priority_quantum_bounds.
  - apply (time_slice_run sp (Z.to_nat (slice_left (th_at (th s) (current s)))));
      try done. unfold slice_pos in Hpos. lia.
Qed.

Lemma time_slice_bound_witness :
  exists k : nat,
    (1 <= k)%nat /\ Z.of_nat k <= 18
    /\ current (sched_run (replicate k (EvTick 0)) one_spawned) <> 0.
Proof.
  destruct (time_slice_bound 0 one_spawned one_spawned_reachable) as (_ & _ & H).
  - exists 1. split; [lia | reflexivity].
  - exact H.
Defined.

(** ** Invariants of the reachable states *)

(** X3.  In every state reached from [sched_init], [current] is a slot
    0..15, the thread in that slot is the only RUNNING one, and no thread is
    BLOCKED. *)
Theorem running_thread_unique s :
  sched_reachable s ->
  0 <= current s < 16
  /\ (forall j, state (th_at (th s) j) = T_RUNNING <-> j = current s)
  /\ (forall j, state (th_at (th s) j) <> T_BLOCKED).
Proof.
  intros Hr. destruct (sched_reachable_run_inv s Hr) as [(Hinv & Hslots & Huniq) _].
  pose proof Hinv as (Hlen & Hcur & Hrun & Hok).
  split; [done|]. split.
  - intros j. split; [|by intros ->].
    intros Hst. assert (Hnu : state (th_at (th s) j) <> T_UNUSED) by congruence.
    destruct (th_at_not_unused _ _ Hnu) as [Hj Hl].
    specialize (Huniq _ _ Hl Hst). lia.
  - intros j Hb. assert (Hnu : state (th_at (th s) j) <> T_UNUSED) by congruence.
    destruct (th_at_not_unused _ _ Hnu) as [Hj Hl].
    by destruct (Forall_lookup_1 _ _ _ _ Hslots Hl) as [_ Hnb].
Qed.

Lemma running_thread_unique_witness :
  current one_ticked = 1 /\ state (th_at (th one_ticked) 0) <> T_RUNNING.
Proof.
  destruct (running_thread_unique one_ticked one_ticked_reachable)
    as (_ & Huniq & _).
  split; [vm_compute; reflexivity|]. intros H. apply Huniq in H.
  vm_compute in H. discriminate H.
Defined.

(** X4.  In every state reached from [sched_init], every thread's
    [slice_left] is between 0 and the quantum of its priority, and the
    running thread has at least one tick of its slice left. *)
Theorem slice_within_quantum s :
  sched_reachable s ->
  (forall j, 0 <= slice_left (th_at (th s) j)
             <= priority_quantum (priority (th_at (th s) j)))
  /\ 1 <= slice_left (th_at (th s) (current s)).
Proof.
  intros Hr. destruct (sched_reachable_run_inv s Hr) as [(Hinv & Hslots & _) Hpos].
  split; [|exact Hpos]. intros j. unfold th_at.
  destruct (j <? 0); [vm_compute; split; discriminate|].
  destruct (th s !! Z.to_nat j) as [t|] eqn:Ht.
  - by destruct (Forall_lookup_1 _ _ _ _ Hslots Ht) as [Hsl _].
  - vm_compute; split; discriminate.
Qed.

Lemma slice_within_quantum_witness :
  0 <= slice_left (th_at (th one_ticked) 0)
  <= priority_quantum (priority (th_at (th one_ticked) 0))
  /\ 1 <= slice_left (th_at (th one_ticked) (current one_ticked)).
Proof.
  destruct (slice_within_quantum one_ticked one_ticked_reachable) as [Hall Hcur].
  split; [apply (Hall 0) | exact Hcur].
Defined.

(** ** The bootstrap thread and the thread slots *)

Lemma sched_step_current e s :
  sched_inv s ->
  current (sched_step e s) = current s \/ 1 <= current (sched_step e s) <= 15.
Proof.
  intros Hinv. pose proof Hinv as (Hlen & Hcur & Hrun & Hok).
  assert (Hy : forall sp s0, sched_inv s0 ->
            current (sched_yield sp s0) = current s0
            \/ 1 <= current (sched_yield sp s0) <= 15).
  { intros sp s0 H0. destruct (sched_yield_cases sp s0 H0) as [->|Hsw]; [by left|].
    cbv zeta in Hsw. destruct Hsw as (Hn & _ & _ & -> & _). by right. }
  destruct e as [sp|sp|new_esp nm|pid prio]; cbn [sched_step].
  - destruct (tick_table_inv s Hinv) as [_ H4].
    destruct (sched_tick_cases sp s Hcur) as [->|[->| ->]]; [|by left|by left].
    apply (Hy sp _ H4).
  - by apply Hy.
  - destruct (kthread_create_cases new_esp nm s) as [->|(k & t & _ & _ & _ & ->)];
      by left.
  - destruct (sched_set_priority_cases pid prio s) as [->|(t & _ & _ & _ & ->)];
      by left.
Qed.

(** X5.  [select_next] never returns slot 0, so once the scheduler has
    switched away from the bootstrap thread of slot 0 that thread never
    runs again, whatever ticks, yields, thread creations and priority
    changes follow. *)
Theorem bootstrap_never_resumed s evs :
  sched_reachable s -> current s <> 0 -> 1 <= current (sched_run evs s) <= 15.
Proof.
  intros Hr. apply sched_reachable_inv in Hr. revert s Hr.
  induction evs as [|e evs IH]; intros s Hinv Hne.
  - destruct Hinv as (_ & Hcur & _). cbn [sched_run]. lia.
  - cbn [sched_run]. apply IH; [by apply sched_step_inv|].
    destruct (sched_step_current e s Hinv) as [->|?]; [done | lia].
Qed.

Lemma bootstrap_never_resumed_witness :
  current one_ticked = 1
  /\ 1 <= current (sched_run (replicate 40 (EvTick 0)) one_ticked) <= 15.
Proof.
  split; [reflexivity|].
  apply bootstrap_never_resumed.
  - exact one_ticked_reachable.
  - vm_compute. discriminate.
Defined.

Lemma th_at_used_lookup l j :
  state (th_at l j) <> T_UNUSED ->
  exists t, 0 <= j /\ l !! Z.to_nat j = Some t /\ th_at l j = t.
Proof.
  intros H. destruct (th_at_not_unused _ _ H) as [Hj Hl]. by exists (th_at l j).
Qed.

Lemma sched_yield_used sp s j :
  sched_inv s -> state (th_at (th s) j) <> T_UNUSED ->
  state (th_at (th (sched_yield sp s)) j) <> T_UNUSED.
Proof.
  intros Hinv Hu. destruct (sched_yield_cases sp s Hinv) as [->|Hsw]; [done|].
  cbv zeta in Hsw. destruct Hsw as (_ & _ & _ & _ & _ & Hth).
  destruct (th_at_used_lookup _ _ Hu) as (t & Hj & Hl & Ht).
  specialize (Hth (Z.to_nat j)). rewrite Hl, fmap_of_Some in Hth. cbv beta in Hth.
  rewrite (th_at_Z_lookup _ j _ Hj Hth).
  destruct (decide _); [done|]. destruct (decide _); [done|]. congruence.
Qed.

Lemma sched_step_used e s j :
  sched_inv s -> state (th_at (th s) j) <> T_UNUSED ->
  state (th_at (th (sched_step e s)) j) <> T_UNUSED.
Proof.
  intros Hinv Hu. pose proof Hinv as (Hlen & Hcur & Hrun & Hok).
  destruct e as [sp|sp|new_esp nm|pid prio]; cbn [sched_step].
  - destruct (tick_table_inv s Hinv) as [_ H4].
    destruct (sched_tick_cases sp s Hcur) as [->|[->| ->]].
    + apply sched_yield_used; [done|]. cbn [th].
      rewrite th_at_alter_state by done. by rewrite tick_table_state.
    + cbn [th]. rewrite th_at_alter_state by done. by rewrite tick_table_state.
    + cbn [th]. by rewrite tick_table_state.
  - by apply sched_yield_used.
  - destruct (kthread_create_cases new_esp nm s)
      as [->|(k & t & Hk & Hl & _ & ->)]; [done|]. cbn [th].
    destruct (decide (j = Z.of_nat k)) as [->|Hne].
    + rewrite th_at_alter_eq by (by apply lookup_lt_Some in Hl). done.
    + by rewrite th_at_alter_ne.
  - destruct (sched_set_priority_cases pid prio s)
      as [->|(t & Hpid & _ & Hl & ->)]; [done|]. cbn [th].
    destruct (th_at_used_lookup _ _ Hu) as (tj & Hj & Hlj & Htj).
    destruct (decide (Z.to_nat j = Z.to_nat pid)) as [E|Hne].
    + rewrite (th_at_Z_lookup _ j (mk_kthread (esp t) (state t) (name t) prio
                                     (priority_quantum prio) 0)); [|done|].
      * cbn [state]. rewrite E, Hl in Hlj. congruence.
      * rewrite E. by rewrite list_lookup_insert_eq by (by apply lookup_lt_Some in Hl).
    + rewrite (th_at_Z_lookup _ j tj); [congruence|done|].
      by rewrite list_lookup_insert_ne by done.
Qed.

Lemma sched_run_used evs s j :
  sched_inv s -> state (th_at (th s) j) <> T_UNUSED ->
  state (th_at (th (sched_run evs s)) j) <> T_UNUSED.
Proof.
  revert s. induction evs as [|e evs IH]; intros s Hinv Hu; [done|].
  cbn [sched_run]. apply IH; [by apply sched_step_inv | by apply sched_step_used].
Qed.

Lemma find_unused_Some i0 ts k :
  find_unused i0 ts = Some k ->
  (i0 <= k)%nat
  /\ (exists t, ts !! (k - i0)%nat = Some t /\ state t = T_UNUSED)
  /\ forall m t, (m < k - i0)%nat -> ts !! m = Some t -> state t <> T_UNUSED.
Proof.
  revert i0. induction ts as [|t ts IH]; intros i0; [done|]. cbn [find_unused].
  destruct (bool_decide_reflect (state t = T_UNUSED)) as [Hu|Hu].
  - intros [= <-]. split; [lia|]. rewrite Nat.sub_diag.
    split; [by exists t | intros; lia].
  - intros H. destruct (IH _ H) as (Hle & (t' & Ht' & Hu') & Hmin).
    split; [lia|]. replace (k - i0)%nat with (S (k - S i0)) by lia.
    split; [by exists t'|].
    intros [|m] t0 Hm; cbn; [by intros [= <-]|]. apply Hmin. lia.
Qed.

Lemma find_unused_None i0 ts :
  find_unused i0 ts = None <-> Forall (fun t => state t <> T_UNUSED) ts.
Proof.
  revert i0. induction ts as [|t ts IH]; intros i0; cbn [find_unused].
  - split; [constructor | done].
  - destruct (bool_decide_reflect (state t = T_UNUSED)) as [Hu|Hu].
    + split; [done|]. intros H. inversion H; subst. done.
    + rewrite IH. split; [by constructor|]. intros H. by inversion H; subst.
Qed.

Lemma slots_lookup (l : list kthread) (m : nat) :
  (m < 15)%nat -> take 15 (drop 1 l) !! m = l !! S m.
Proof. intros Hm. rewrite lookup_take_lt by done. by rewrite lookup_drop. Qed.

Lemma no_free_slot l :
  length l = 16%nat ->
  (Forall (fun t => state t <> T_UNUSED) (take 15 (drop 1 l))
   <-> forall j, 1 <= j <= 15 -> state (th_at l j) <> T_UNUSED).
Proof.
  intros Hlen. split.
  - intros H j Hj.
    destruct (lookup_lt_is_Some_2 l (Z.to_nat j) ltac:(lia)) as [t Ht].
    rewrite (th_at_Z_lookup _ j _ ltac:(lia) Ht).
    apply (Forall_lookup_1 _ _ (Z.to_nat j - 1)%nat _ H).
    rewrite slots_lookup by lia. by replace (S (Z.to_nat j - 1)) with (Z.to_nat j) by lia.
  - intros H. apply Forall_lookup_2. intros m t Hm.
    assert (Hm15 : (m < 15)%nat).
    { apply lookup_lt_Some in Hm. rewrite length_take in Hm. lia. }
    rewrite slots_lookup in Hm by done.
    specialize (H (Z.of_nat (S m)) ltac:(lia)).
    by rewrite (th_at_lookup _ _ _ Hm) in H.
Qed.

(** X6.  A thread slot that is in use is never freed again, so once slots
    1..15 are all in use every later [kthread_create] fails with -1 and
    changes nothing. *)
Theorem slots_never_freed s evs :
  sched_reachable s ->
  (forall j, state (th_at (th s) j) <> T_UNUSED ->
             state (th_at (th (sched_run evs s)) j) <> T_UNUSED)
  /\ ((forall j, 1 <= j <= 15 -> state (th_at (th s) j) <> T_UNUSED) ->
      forall new_esp nm,
        kthread_create new_esp nm (sched_run evs s) = (sched_run evs s, -1)).
Proof.
  intros Hr. apply sched_reachable_inv in Hr. split.
  - intros j. by apply sched_run_used.
  - intros Hfull new_esp nm. unfold kthread_create.
    assert (Hnone : find_unused 1 (take 15 (drop 1 (th (sched_run evs s)))) = None).
    { apply find_unused_None. apply no_free_slot.
      - by destruct (sched_run_inv evs s Hr) as (Hlen & _).
      - intros j Hj. apply sched_run_used; [done | by apply Hfull]. }
    by rewrite Hnone.
Qed.

Definition all_spawned : sched_state :=
  sched_run (replicate 15 (EvCreate 4096 "t")) sched_init.

Lemma slots_never_freed_witness :
  kthread_create 8192 "late" (sched_run (replicate 20 (EvTick 0)) all_spawned)
  = (sched_run (replicate 20 (EvTick 0)) all_spawned, -1).
Proof.
  assert (Hr : sched_reachable all_spawned)
    by (exists (replicate 15 (EvCreate 4096 "t")); reflexivity).
  destruct (slots_never_freed all_spawned (replicate 20 (EvTick 0)) Hr) as [_ H].
  apply H. intros j Hj.
  assert (Hc : j = 1 \/ j = 2 \/ j = 3 \/ j = 4 \/ j = 5 \/ j = 6 \/ j = 7 \/ j = 8
               \/ j = 9 \/ j = 10 \/ j = 11 \/ j = 12 \/ j = 13 \/ j = 14 \/ j = 15)
    by lia.
  repeat (destruct Hc as [->|Hc]; [vm_compute; discriminate|]).
  subst j. vm_compute. discriminate.
Defined.


(** ** [kthread_create] and [sched_yield] as functions of the state *)

(** X7.  [kthread_create] fails with -1, changing nothing, exactly when no
    slot of 1..15 is UNUSED or the stack allocation fails; otherwise it
    returns the lowest UNUSED slot of 1..15 (never slot 0), whose thread
    becomes READY with the INTERACTIVE priority, a slice of 6 ticks and
    [wait_ticks] 0, and it leaves every other slot and [current] alone. *)
Theorem kthread_create_spec new_esp nm s :
  length (th s) = 16%nat ->
  let r := snd (kthread_create new_esp nm s) in
  let s' := fst (kthread_create new_esp nm s) in
  (r = -1 <->
     new_esp = 0 \/ forall j, 1 <= j <= 15 -> state (th_at (th s) j) <> T_UNUSED)
  /\ (r = -1 -> s' = s)
  /\ (r <> -1 ->
      1 <= r <= 15
      /\ state (th_at (th s) r) = T_UNUSED
      /\ (forall j, 1 <= j < r -> state (th_at (th s) j) <> T_UNUSED)
      /\ current s' = current s
      /\ th_at (th s') r
         = mk_kthread new_esp T_READY nm SCHED_PRIORITY_INTERACTIVE 6 0
      /\ forall j, j <> r -> th_at (th s') j = th_at (th s) j).
Proof.
  intros Hlen. cbv zeta. unfold kthread_create.
  destruct (find_unused 1 (take 15 (drop 1 (th s)))) as [k|] eqn:Hf.
  - destruct (find_unused_Some _ _ _ Hf) as (Hk1 & (t & Ht & Hu) & Hmin).
    assert (Hk15 : (k - 1 < 15)%nat).
    { apply lookup_lt_Some in Ht. rewrite length_take in Ht. lia. }
    rewrite slots_lookup in Ht by done.
    replace (S (k - 1)) with k in Ht by lia.
    assert (Hfree : state (th_at (th s) (Z.of_nat k)) = T_UNUSED)
      by (by rewrite (th_at_lookup _ _ _ Ht)).
    destruct (Z.eqb_spec new_esp 0) as [->|Hesp]; cbn [fst snd].
    + split; [split; [by left | done]|]. split; [done|]. done.
    + split; [|split; [lia|]].
      * split; [lia|]. intros [?|Hall]; [done|].
        exfalso. apply (Hall (Z.of_nat k)); [lia | done].
      * intros _. split; [lia|]. split; [done|]. split; [|split; [done|split]].
        -- intros j Hj.
           destruct (lookup_lt_is_Some_2 (th s) (Z.to_nat j) ltac:(lia)) as [tj Htj].
           rewrite (th_at_Z_lookup _ j _ ltac:(lia) Htj).
           apply (Hmin (Z.to_nat j - 1)%nat); [lia|].
           rewrite slots_lookup by lia.
           by replace (S (Z.to_nat j - 1)) with (Z.to_nat j) by lia.
        -- rewrite th_mk, refill_slice_alter by lia.
           erewrite th_at_lookup;
             [|by rewrite !list_lookup_alter_eq, Ht; rewrite !fmap_of_Some].
           reflexivity.
        -- intros j Hj. rewrite th_mk, refill_slice_alter by lia.
           by rewrite !th_at_alter_ne.
  - cbn [fst snd]. split; [|done].
    split; [|done]. intros _. right.
    apply no_free_slot; [done|]. by apply (find_unused_None 1).
Qed.

Lemma kthread_create_spec_witness :
  snd (kthread_create 8192 "b" one_spawned) <> -1
  /\ th_at (th (fst (kthread_create 8192 "b" one_spawned)))
           (snd (kthread_create 8192 "b" one_spawned))
     = mk_kthread 8192 T_READY "b" SCHED_PRIORITY_INTERACTIVE 6 0.
Proof.
  destruct (kthread_create_spec 8192 "b" one_spawned) as (_ & _ & Hok);
    [vm_compute; reflexivity|].
  assert (Hr : snd (kthread_create 8192 "b" one_spawned) <> -1)
    by (vm_compute; discriminate).
  split; [exact Hr|]. by destruct (Hok Hr) as (_ & _ & _ & _ & Hnew & _).
Defined.

(** X8.  In a state reached from [sched_init], [sched_yield] changes nothing
    when no thread of slots 1..15 is READY; otherwise it makes the thread
    [select_next] picks current and RUNNING, turns the previous one READY
    with its saved stack pointer, gives both a fresh slice and [wait_ticks]
    0, and leaves every other thread alone. *)
Theorem sched_yield_spec sp s :
  sched_reachable s ->
  let s' := sched_yield sp s in
  let next := select_next (th s) in
  ((forall j, 1 <= j <= 15 -> state (th_at (th s) j) <> T_READY) -> s' = s)
  /\ ((exists j, 1 <= j <= 15 /\ state (th_at (th s) j) = T_READY) ->
      current s' = next /\ 1 <= next <= 15 /\ next <> current s
      /\ th_at (th s') next
         = (let t := th_at (th s) next in
            mk_kthread (esp t) T_RUNNING (name t) (priority t)
                       (priority_quantum (priority t)) 0)
      /\ th_at (th s') (current s)
         = (let t := th_at (th s) (current s) in
            mk_kthread (u32 sp) T_READY (name t) (priority t)
                       (priority_quantum (priority t)) 0)
      /\ forall j, j <> next -> j <> current s ->
                   th_at (th s') j = th_at (th s) j).
Proof.
  intros Hr. apply sched_reachable_inv in Hr. cbv zeta.
  pose proof Hr as (Hlen & Hcur & Hrun & Hok).
  destruct (sched_yield_split sp s Hr) as [[Hn Heq]|Hsw].
  - split; [done|]. intros Hex. apply select_next_some in Hex. lia.
  - cbv zeta in Hsw. destruct Hsw as (Hn & Hne & Hrd & Hc & _ & Hth).
    split.
    { intros Hnone. exfalso. by apply (Hnone (select_next (th s))). }
    intros _. split; [done|]. split; [done|]. split; [done|].
    assert (Hu8 : forall t, u8 (priority_quantum (priority t))
                            = priority_quantum (priority t)).
    { intros t. apply u8_small. pose proof (priority_quantum_bounds (priority t)). lia. }
    split; [|split].
    + destruct (lookup_lt_is_Some_2 (th s) (Z.to_nat (select_next (th s)))
                  ltac:(lia)) as [tn Htn].
      rewrite (th_at_Z_lookup _ (select_next (th s)) _ ltac:(lia) Htn).
      rewrite (th_at_Z_lookup _ (select_next (th s)) (yield_next tn)); [|lia|].
      * unfold yield_next, refill_thread, set_slice_left, set_wait_ticks, set_state.
        cbn [esp state name priority slice_left wait_ticks]. by rewrite Hu8.
      * rewrite Hth, Htn, fmap_of_Some. cbv beta.
        rewrite decide_False by lia. by rewrite decide_True.
    + destruct (lookup_lt_is_Some_2 (th s) (Z.to_nat (current s)) ltac:(lia))
        as [tp Htp].
      rewrite (th_at_Z_lookup _ (current s) _ ltac:(lia) Htp).
      rewrite (th_at_Z_lookup _ (current s) (yield_prev sp tp)); [|lia|].
      * unfold yield_prev, refill_thread, set_slice_left, set_wait_ticks, set_state,
          set_esp.
        cbn [esp state name priority slice_left wait_ticks]. by rewrite Hu8.
      * rewrite Hth, Htp, fmap_of_Some. cbv beta. by rewrite decide_True.
    + intros j Hjn Hjc. unfold th_at. destruct (Z.ltb_spec j 0); [done|].
      rewrite Hth. destruct (th s !! Z.to_nat j) as [t|]; [|done].
      rewrite fmap_of_Some. cbv beta.
      rewrite decide_False by lia. by rewrite decide_False by lia.
Qed.

Lemma sched_yield_spec_witness :
  current (sched_yield 0 one_spawned) = 1
  /\ state (th_at (th (sched_yield 0 one_spawned)) 0) = T_READY.
Proof.
  destruct (sched_yield_spec 0 one_spawned one_spawned_reachable) as [_ H].
  destruct H as (Hc & _ & _ & _ & Hprev & _).
  - exists 1. split; [lia | vm_compute; reflexivity].
  - split; [rewrite Hc; vm_compute; reflexivity|].
    change 0 with (current one_spawned) at 2. by rewrite Hprev.
Defined.

End KSchedExtra.

(** * HTAS: topology queries, profiles and process selection *)

Module HtasExtra.
Import HtasH Stats Htas HtasSpec HtasRun.

#[local] Arguments for_range : simpl never.

Lemma numa_node_for_address_cases addr :
  htas_get_numa_node_for_address addr =
  if u32 addr <? 134217728 then 0
  else if u32 addr <? 268435456 then 1 else 0.
Proof.
  unfold htas_get_numa_node_for_address, g_numa_regions.
  cbn [numa_scan base size]. pose proof (u32_range addr) as Hr.
  change (u32 (0 + 134217728)) with 134217728.
  change (u32 (134217728 + 134217728)) with 268435456.
  destruct (Z.leb_spec 0 (u32 addr)); [|lia].
  destruct (Z.ltb_spec (u32 addr) 134217728); cbn [andb]; [done|].
  destruct (Z.leb_spec 134217728 (u32 addr)); [|lia].
  by destruct (Z.ltb_spec (u32 addr) 268435456).
Qed.

Lemma numa_node_for_address_range addr :
  0 <= htas_get_numa_node_for_address addr < NUM_NUMA_NODES.
Proof.
  rewrite numa_node_for_address_cases. unfold NUM_NUMA_NODES.
  destruct (u32 addr <? 134217728); [lia|].
  destruct (u32 addr <? 268435456); lia.
Qed.

(** X9.  [htas_get_numa_node_for_address] returns node 0 for an address
    below 128 MiB, node 1 for an address from 128 MiB up to 256 MiB, and
    falls back to node 0 for every address beyond the two regions; the
    result is always a valid node. *)
Theorem numa_node_for_address_spec addr :
  htas_get_numa_node_for_address addr
  = (if u32 addr <? 134217728 then 0
     else if u32 addr <? 268435456 then 1 else 0)
  /\ 0 <= htas_get_numa_node_for_address addr < NUM_NUMA_NODES.
Proof.
  split; [apply numa_node_for_address_cases | apply numa_node_for_address_range].
Qed.

Lemma affinity_table p :
  htas_calculate_affinity p =
  match intent p with
  | PROFILE_PERFORMANCE | PROFILE_LOW_LATENCY => 3
  | PROFILE_EFFICIENCY => 12
  | PROFILE_DEFAULT =>
      if primary_data_region p =? 0 then 15
      else if htas_get_numa_node_for_address (primary_data_region p) =? 0
           then 3 else 12
  end.
Proof.
  destruct (Z.eqb_spec (primary_data_region p) 0) as [H0|H0].
  - rewrite htas_calculate_affinity_null by done.
    destruct (intent p); reflexivity.
  - rewrite htas_calculate_affinity_region by done. cbv zeta.
    rewrite numa_node_for_address_cases.
    destruct (u32 (primary_data_region p) <? 134217728);
      [|destruct (u32 (primary_data_region p) <? 268435456)];
      destruct (intent p); reflexivity.
Qed.

(** X10.  The mask [htas_calculate_affinity] returns on the built-in
    topology: CPUs 0 and 1 for PERFORMANCE and LOW_LATENCY, CPUs 2 and 3 for
    EFFICIENCY, whatever the data region; for DEFAULT all four CPUs
    without a data region, else the two CPUs of the region's NUMA node. *)
Theorem htas_calculate_affinity_table p :
  htas_calculate_affinity p =
  match intent p with
  | PROFILE_PERFORMANCE | PROFILE_LOW_LATENCY => 3
  | PROFILE_EFFICIENCY => 12
  | PROFILE_DEFAULT =>
      if primary_data_region p =? 0 then 15
      else if htas_get_numa_node_for_address (primary_data_region p) =? 0
           then 3 else 12
  end.
Proof. apply affinity_table. Qed.


(** ** Where a profiled process may run *)

(** The CPUs a profile asks for. *)
Definition placement_ok (prof : task_profile_t) (cpu : Z) : Prop :=
  match intent prof with
  | PROFILE_PERFORMANCE | PROFILE_LOW_LATENCY =>
      htas_get_cpu_type cpu = CPU_TYPE_PCORE
  | PROFILE_EFFICIENCY => htas_get_cpu_type cpu = CPU_TYPE_ECORE
  | PROFILE_DEFAULT =>
      primary_data_region prof = 0
      \/ htas_get_numa_node_for_cpu cpu
         = htas_get_numa_node_for_address (primary_data_region prof)
  end.

Lemma set_profile_result process_find kmalloc_ok procs pid prof procs' :
  sys_sched_set_profile process_find kmalloc_ok procs pid prof = (procs', 0) ->
  exists i info,
    process_find procs pid = Some i
    /\ (htas_info (proc_at procs i) = Some info
        \/ (htas_info (proc_at procs i) = None /\ kmalloc_ok = true
            /\ info = htas_task_info_zero))
    /\ procs' =
       alter (fun p => mk_process (Htas.pid p) (state p)
         (Some (mk_htas_task_info prof (htas_calculate_affinity prof)
            (if decide (intent prof = PROFILE_LOW_LATENCY)
             then LOW_LATENCY_PRIORITY_BOOST else 0)
            (if primary_data_region prof =? 0 then 0
             else htas_get_numa_node_for_address (primary_data_region prof))
            (wait_time info) (priority_boost_aging info)
            (total_runtime_us info) (total_switches info)
            (Htas.numa_penalties info)))) i procs.
Proof.
  unfold sys_sched_set_profile.
  destruct (process_find procs pid) as [i|]; [|intros [= _ ?]; lia].
  destruct (htas_info (proc_at procs i)) as [info|] eqn:Hi.
  - intros [= <-]. exists i, info. split; [done|]. split; [by left | done].
  - destruct kmalloc_ok; [|intros [= _ ?]; lia].
    intros [= <-]. exists i, htas_task_info_zero.
    split; [done|]. split; [by right | done].
Qed.

Lemma can_run_mask (mask cpu : Z) :
  0 <= cpu < 4 -> mask = 3 \/ mask = 12 \/ mask = 15 ->
  negb (Z.land mask (Z.shiftl 1 cpu) =? 0)
  = if mask =? 3 then cpu <? 2 else if mask =? 12 then 2 <=? cpu else true.
Proof.
  intros Hc Hm.
  assert (Hcpu : cpu = 0 \/ cpu = 1 \/ cpu = 2 \/ cpu = 3) by lia.
  destruct Hcpu as [-> | [-> | [-> | ->]]];
    destruct Hm as [-> | [-> | ->]]; reflexivity.
Qed.

(** X11.  After a successful [sys_sched_set_profile] the process may run
    exactly on the CPUs its profile asks for: the P-cores for PERFORMANCE and
    LOW_LATENCY, the E-cores for EFFICIENCY, and for DEFAULT every CPU, or
    with a data region the CPUs of that region's NUMA node; never on a CPU
    number of 4 or more. *)
Theorem profile_placement process_find kmalloc_ok procs pid prof procs' :
  sys_sched_set_profile process_find kmalloc_ok procs pid prof = (procs', 0) ->
  exists i, process_find procs pid = Some i
    /\ forall proc cpu, procs' !! i = Some proc -> 0 <= cpu ->
         (htas_can_run_on_cpu proc cpu = true
          <-> cpu < NUM_CPUS /\ placement_ok prof cpu).
Proof.
  intros H. destruct (set_profile_result _ _ _ _ _ _ H) as (i & info & Hf & _ & ->).
  exists i. split; [done|]. intros proc cpu. rewrite list_lookup_alter_eq.
  destruct (procs !! i) as [p0|]; [|done]. rewrite fmap_Some.
  intros (p1 & [= <-] & ->) Hcpu.
  unfold htas_can_run_on_cpu, NUM_CPUS. cbn [htas_info cpu_affinity_mask].
  destruct (Z.leb_spec 4 cpu) as [Hge|Hlt]; [split; [done | lia]|].
  rewrite can_run_mask; [|lia|].
  2:{ rewrite affinity_table.
      destruct (intent prof); auto.
      destruct (_ =? 0); auto. destruct (_ =? 0); auto. }
  rewrite affinity_table. unfold placement_ok.
  assert (Hc : cpu = 0 \/ cpu = 1 \/ cpu = 2 \/ cpu = 3) by lia.
  destruct (intent prof).
  - destruct Hc as [-> | [-> | [-> | ->]]]; vm_compute; intuition congruence.
  - destruct Hc as [-> | [-> | [-> | ->]]]; vm_compute; intuition congruence.
  - destruct Hc as [-> | [-> | [-> | ->]]]; vm_compute; intuition congruence.
  - destruct (Z.eqb_spec (primary_data_region prof) 0) as [H0|H0].
    + cbn. split; [intros _; split; [lia | by left] | done].
    + rewrite numa_node_for_address_cases.
      destruct (u32 (primary_data_region prof) <? 134217728);
        [|destruct (u32 (primary_data_region prof) <? 268435456)];
        destruct Hc as [-> | [-> | [-> | ->]]]; cbn;
        (split; [intros He; split; [lia|]; first [by right | discriminate He]
                | intros [_ [?|He]]; [done | first [done | discriminate He]]]).
Qed.

Lemma profile_placement_witness :
  exists procs',
    sys_sched_set_profile find_by_pid true [mk_process 7 PROC_READY None] 7
      (mk_task_profile PROFILE_EFFICIENCY 4096 64) = (procs', 0)
    /\ forall proc, procs' !! 0%nat = Some proc ->
         (htas_can_run_on_cpu proc 2 = true
          <-> 2 < NUM_CPUS
              /\ placement_ok (mk_task_profile PROFILE_EFFICIENCY 4096 64) 2).
Proof.
  eexists. split; [reflexivity|].
  edestruct (profile_placement find_by_pid true [mk_process 7 PROC_READY None] 7
               (mk_task_profile PROFILE_EFFICIENCY 4096 64))
    as (i & Hi & Hrun); [reflexivity|].
  injection Hi as <-. intros proc Hp. apply (Hrun proc 2 Hp). lia.
Defined.

(** X12.  [sys_sched_set_profile] returns -1 and leaves the process table
    untouched when the pid is unknown or the record cannot be allocated;
    otherwise it returns 0, rewrites only the found process's [htas_info],
    where it stores the profile, a priority boost of 10 for LOW_LATENCY and 0
    otherwise and a valid preferred NUMA node, and keeps the aging state and
    the counters of an existing record. *)
Theorem sys_sched_set_profile_frame process_find kmalloc_ok procs pid prof :
  let r := sys_sched_set_profile process_find kmalloc_ok procs pid prof in
  (snd r = -1 <->
     process_find procs pid = None
     \/ exists i, process_find procs pid = Some i
          /\ htas_info (proc_at procs i) = None /\ kmalloc_ok = false)
  /\ (snd r = -1 -> fst r = procs)
  /\ (snd r <> -1 ->
      snd r = 0
      /\ exists i, process_find procs pid = Some i
           /\ length (fst r) = length procs
           /\ (forall j, j <> i -> fst r !! j = procs !! j)
           /\ forall p, procs !! i = Some p ->
                exists info',
                  fst r !! i = Some (mk_process (Htas.pid p) (state p) (Some info'))
                  /\ profile info' = prof
                  /\ priority_boost info'
                     = (if decide (intent prof = PROFILE_LOW_LATENCY) then 10 else 0)
                  /\ 0 <= preferred_numa_node info' < NUM_NUMA_NODES
                  /\ let old := default htas_task_info_zero (htas_info p) in
                     wait_time info' = wait_time old
                     /\ priority_boost_aging info' = priority_boost_aging old
                     /\ total_runtime_us info' = total_runtime_us old
                     /\ total_switches info' = total_switches old
                     /\ Htas.numa_penalties info' = Htas.numa_penalties old).
Proof.
  cbv zeta. unfold sys_sched_set_profile.
  destruct (process_find procs pid) as [i|]; cbn [fst snd];
    [|split; [split; [by left | done] | split; [done | lia]]].
  assert (Hnode : 0 <= (if primary_data_region prof =? 0 then 0
                        else htas_get_numa_node_for_address (primary_data_region prof))
                  < NUM_NUMA_NODES).
  { destruct (_ =? 0); [unfold NUM_NUMA_NODES; lia|].
    apply numa_node_for_address_range. }
  assert (Hok : forall info,
    default htas_task_info_zero (htas_info (proc_at procs i)) = info ->
    let r := alter (fun p => mk_process (Htas.pid p) (state p)
         (Some (mk_htas_task_info prof (htas_calculate_affinity prof)
            (if decide (intent prof = PROFILE_LOW_LATENCY)
             then LOW_LATENCY_PRIORITY_BOOST else 0)
            (if primary_data_region prof =? 0 then 0
             else htas_get_numa_node_for_address (primary_data_region prof))
            (wait_time info) (priority_boost_aging info)
            (total_runtime_us info) (total_switches info)
            (Htas.numa_penalties info)))) i procs in
    exists i0, Some i = Some i0
           /\ length r = length procs
           /\ (forall j, j <> i0 -> r !! j = procs !! j)
           /\ forall p, procs !! i0 = Some p ->
                exists info',
                  r !! i0 = Some (mk_process (Htas.pid p) (state p) (Some info'))
                  /\ profile info' = prof
                  /\ priority_boost info'
                     = (if decide (intent prof = PROFILE_LOW_LATENCY) then 10 else 0)
                  /\ 0 <= preferred_numa_node info' < NUM_NUMA_NODES
                  /\ let old := default htas_task_info_zero (htas_info p) in
                     wait_time info' = wait_time old
                     /\ priority_boost_aging info' = priority_boost_aging old
                     /\ total_runtime_us info' = total_runtime_us old
                     /\ total_switches info' = total_switches old
                     /\ Htas.numa_penalties info' = Htas.numa_penalties old).
  { intros info Hinfo. cbv zeta. exists i. split; [done|].
    split; [by rewrite length_alter|].
    split; [intros j Hj; by rewrite list_lookup_alter_ne|].
    intros p Hp. rewrite list_lookup_alter_eq, Hp, AgingSpec.fmap_of_Some.
    unfold proc_at in Hinfo. rewrite Hp in Hinfo. simpl in Hinfo. subst info.
    eexists. split; [reflexivity|].
    cbn [profile priority_boost preferred_numa_node wait_time priority_boost_aging
         total_runtime_us total_switches Htas.numa_penalties].
    done. }
  destruct (htas_info (proc_at procs i)) as [info|] eqn:Hi.
  - cbn [fst snd]. split; [split; [lia|]|split; [lia|]].
    + intros [?|(i0 & [= <-] & ? & _)]; congruence.
    + intros _. split; [done|]. by apply Hok.
  - destruct kmalloc_ok; cbn [fst snd].
    + split; [split; [lia|]|split; [lia|]].
      * intros [?|(i0 & _ & _ & ?)]; congruence.
      * intros _. split; [done|]. by apply Hok.
    + split; [split; [|done]|split; [done|lia]].
      intros _. right. by exists i.
Qed.

(** ** [htas_select_next] *)

Section SelectSpec.
Variable MAX_PROCESSES : nat.
Variable table : list process_t.
Variable cpu_id : Z.


Definition prio (i : nat) : Z := select_priority (proc_at table i) cpu_id.




End SelectSpec.



(** ** [htas_pick_next_process] *)

#[local] Arguments baseline_select_next : simpl never.
#[local] Arguments htas_select_next : simpl never.
#[local] Arguments u64 : simpl never.
#[local] Arguments u32 : simpl never.
#[local] Arguments u8 : simpl never.

(** Decides the comparisons of two scheduler names and projects the
    fields of the updated globals. *)
Ltac dec_sched :=
  repeat (cbn [g_current_scheduler g_current_cpu g_tick_counter g_baseline_stats
               g_htas_stats procs rr_cursor set_g_current_scheduler
               set_g_current_cpu set_g_tick_counter set_g_baseline_stats
               set_g_htas_stats set_procs set_rr_cursor fst snd];
          try match goal with
              | |- context [decide (?a = ?b)] =>
                  is_constructor a; is_constructor b;
                  let H := fresh in
                  destruct (decide (a = b)) as [H|H];
                  [try discriminate H | try (exfalso; apply H; reflexivity)]
              end).

(** What one pass of the aging loop does to a record and to a process. *)
Definition aged_info (info : htas_task_info_t) : htas_task_info_t :=
  let info1 := set_wait_time (u32 (wait_time info + 1)) info in
  if AGING_THRESHOLD <? wait_time info1
  then set_priority_boost_aging AGING_PRIORITY_BOOST info1 else info1.

Definition aged (next i : nat) (p : process_t) : process_t :=
  if bool_decide (state p = PROC_READY) && negb (Nat.eqb i next) then
    match htas_info p with
    | Some info => set_htas_info (aged_info info) p
    | None => p
    end
  else p.

Lemma alter_at {A : Type} (f g : A -> A) i (l : list A) :
  (forall x, l !! i = Some x -> f x = g x) -> alter f i l = alter g i l.
Proof.
  intros H. apply list_eq. intros j. destruct (decide (j = i)) as [->|Hne].
  - rewrite !list_lookup_alter_eq. destruct (l !! i) as [x|] eqn:Hx; [|done].
    simpl. f_equal. by apply H.
  - by rewrite !list_lookup_alter_ne.
Qed.

Lemma alter_same {A : Type} (f : A -> A) i (l : list A) :
  (forall x, l !! i = Some x -> f x = x) -> l = alter f i l.
Proof.
  intros H. apply list_eq. intros j. destruct (decide (j = i)) as [->|Hne].
  - rewrite list_lookup_alter_eq. destruct (l !! i) as [x|] eqn:Hx; [|done].
    simpl. f_equal. symmetry. by apply H.
  - by rewrite list_lookup_alter_ne.
Qed.

Lemma age_proc_alter next i table :
  age_proc next i table = alter (aged next i) i table.
Proof.
  unfold age_proc, proc_at.
  destruct (table !! i) as [p|] eqn:Hp; simpl.
  - destruct (bool_decide (state p = PROC_READY) && negb (Nat.eqb i next)) eqn:Hc;
      [destruct (htas_info p) as [info|] eqn:Hi|].
    + apply alter_at. intros x Hx. assert (x = p) as -> by congruence.
      unfold aged. by rewrite Hc, Hi.
    + apply alter_same. intros x Hx. assert (x = p) as -> by congruence.
      unfold aged. by rewrite Hc, Hi.
    + apply alter_same. intros x Hx. assert (x = p) as -> by congruence.
      unfold aged. by rewrite Hc.
  - apply alter_same. intros x Hx. congruence.
Qed.

Lemma aging_loop_lookup MAX_PROCESSES next table j :
  for_range 0 MAX_PROCESSES (age_proc next) table !! j
  = if decide (j < MAX_PROCESSES)%nat then aged next j <$> table !! j
    else table !! j.
Proof.
  rewrite (for_range_ext _ _ _ (fun i acc => alter (aged next i) i acc))
    by (intros; apply age_proc_alter).
  rewrite for_range_alter_lookup. repeat case_decide; try lia; done.
Qed.

Lemma pick_next_process_outcome MAX_PROCESSES process_current current s :
  let sel := if decide (g_current_scheduler s = SCHED_BASELINE)
             then fst (baseline_select_next MAX_PROCESSES (procs s)
                         process_current (rr_cursor s))
             else htas_select_next MAX_PROCESSES (procs s) (g_current_cpu s) in
  let r := htas_pick_next_process MAX_PROCESSES process_current current s in
  snd r = match sel with Some n => Some n | None => current end
  /\ g_tick_counter (fst r) = u64 (g_tick_counter s + 1)
  /\ g_current_scheduler (fst r) = g_current_scheduler s
  /\ g_current_cpu (fst r) = g_current_cpu s
  /\ total_ticks (active_stats (fst r)) = u64 (total_ticks (active_stats s) + 1)
  /\ forall j, procs (fst r) !! j =
       match sel with
       | Some n =>
           if decide (g_current_scheduler s = SCHED_HTAS /\ (j < MAX_PROCESSES)%nat)
           then aged n j <$> procs s !! j else procs s !! j
       | None => procs s !! j
       end.
Proof.
  destruct s as [sch cpu tick bs hs table rr]. cbv zeta.
  unfold htas_pick_next_process, active_stats, set_active_stats.
  destruct sch; dec_sched.
  - destruct (baseline_select_next MAX_PROCESSES table process_current rr)
      as [[n|] rr']; dec_sched; repeat split; try done.
    all: intros j; by rewrite decide_False by (intros [? _]; done).
  - destruct (htas_select_next MAX_PROCESSES table cpu) as [n|]; dec_sched;
      repeat split; try done.
    all: intros j; rewrite aging_loop_lookup;
      destruct (decide (j < MAX_PROCESSES)%nat);
      [by rewrite decide_True | by rewrite decide_False by (intros [_ ?]; done)].
  - destruct (htas_select_next MAX_PROCESSES table cpu) as [n|]; dec_sched;
      repeat split; try done.
    all: intros j; by rewrite decide_False by (intros [? _]; done).
Qed.

(** X14.  [htas_pick_next_process] counts the tick in [g_tick_counter] and in
    the active statistics, asks [baseline_select_next] under BASELINE and
    [htas_select_next] otherwise, and returns [current] when that finds
    nothing.  Only under SCHED_HTAS does it age the table: every READY
    process other than the chosen one that has a record gets [wait_time]
    plus one and, once that exceeds 100, the aging boost 5; under BASELINE
    and DYNAMIC the table is left as it is. *)
Theorem htas_pick_next_process_spec MAX_PROCESSES process_current current s :
  let sel := if decide (g_current_scheduler s = SCHED_BASELINE)
             then fst (baseline_select_next MAX_PROCESSES (procs s)
                         process_current (rr_cursor s))
             else htas_select_next MAX_PROCESSES (procs s) (g_current_cpu s) in
  let r := htas_pick_next_process MAX_PROCESSES process_current current s in
  snd r = match sel with Some n => Some n | None => current end
  /\ g_tick_counter (fst r) = u64 (g_tick_counter s + 1)
  /\ g_current_scheduler (fst r) = g_current_scheduler s
  /\ g_current_cpu (fst r) = g_current_cpu s
  /\ total_ticks (active_stats (fst r)) = u64 (total_ticks (active_stats s) + 1)
  /\ forall j, procs (fst r) !! j =
       match sel with
       | Some n =>
           if decide (g_current_scheduler s = SCHED_HTAS /\ (j < MAX_PROCESSES)%nat)
           then aged n j <$> procs s !! j else procs s !! j
       | None => procs s !! j
       end.
Proof. apply pick_next_process_outcome. Qed.

(** ** Invariants of the records and of the statistics *)

Definition info_ok (info : htas_task_info_t) : Prop :=
  cpu_affinity_mask info = htas_calculate_affinity (profile info)
  /\ priority_boost info
     = (if decide (intent (profile info) = PROFILE_LOW_LATENCY)
        then LOW_LATENCY_PRIORITY_BOOST else 0)
  /\ preferred_numa_node info
     = (if primary_data_region (profile info) =? 0 then 0
        else htas_get_numa_node_for_address (primary_data_region (profile info)))
  /\ 0 <= wait_time info < 2 ^ 32
  /\ (priority_boost_aging info = 0
      \/ priority_boost_aging info = AGING_PRIORITY_BOOST)
  /\ (AGING_THRESHOLD < wait_time info ->
      priority_boost_aging info = AGING_PRIORITY_BOOST).

Definition proc_ok (p : process_t) : Prop :=
  forall info, htas_info p = Some info -> info_ok info.

Definition stats_ok (st : scheduler_stats_t) : Prop :=
  u64 (pcore_time_us st + ecore_time_us st) = u64 (10 * context_switches st)
  /\ u64 (total_power_consumption st)
     = u64 (10 * pcore_time_us st + 4 * ecore_time_us st).

Lemma aged_info_ok info : info_ok info -> info_ok (aged_info info).
Proof.
  intros (Hm & Hb & Hn & Hw & Ha & Hth). unfold aged_info. cbv zeta.
  cbn [wait_time set_wait_time].
  pose proof (u32_range (wait_time info + 1)) as Hr.
  destruct (Z.ltb_spec AGING_THRESHOLD (u32 (wait_time info + 1))).
  - repeat split; try done; cbn; try lia; by right.
  - repeat split; try done; cbn; try lia.
Qed.

Lemma aged_ok next i p : proc_ok p -> proc_ok (aged next i p).
Proof.
  intros Hp. unfold aged. destruct (_ && _); [|done].
  destruct (htas_info p) as [info|] eqn:Hi; [|done].
  intros info' [= <-]. apply aged_info_ok. by apply Hp.
Qed.

Lemma switched_info_ok info :
  info_ok info ->
  info_ok (set_total_switches
             (u64 (total_switches (set_priority_boost_aging 0 (set_wait_time 0 info)) + 1))
             (set_priority_boost_aging 0 (set_wait_time 0 info))).
Proof.
  intros (Hm & Hb & Hn & Hw & Ha & Hth).
  repeat split; try done; cbn; try lia; by left.
Qed.

Lemma penalised_info_ok info v :
  info_ok info -> info_ok (set_info_numa_penalties v info).
Proof.
  intros (Hm & Hb & Hn & [Hw1 Hw2] & Ha & Hth). unfold info_ok. cbn.
  repeat split; assumption.
Qed.

Lemma profiled_info_ok prof info :
  info_ok info \/ info = htas_task_info_zero ->
  info_ok (mk_htas_task_info prof (htas_calculate_affinity prof)
             (if decide (intent prof = PROFILE_LOW_LATENCY)
              then LOW_LATENCY_PRIORITY_BOOST else 0)
             (if primary_data_region prof =? 0 then 0
              else htas_get_numa_node_for_address (primary_data_region prof))
             (wait_time info) (priority_boost_aging info)
             (total_runtime_us info) (total_switches info)
             (Htas.numa_penalties info)).
Proof.
  intros [(Hm & Hb & Hn & [Hw1 Hw2] & Ha & Hth)| ->].
  - unfold info_ok. cbn. repeat split; try assumption; reflexivity.
  - repeat split; try done; cbn; try lia; by left.
Qed.

Lemma select_priority_bounds p cpu :
  proc_ok p -> 0 <= select_priority p cpu <= 20.
Proof.
  intros Hp. unfold select_priority. destruct (htas_info p) as [info|] eqn:Hi; [|lia].
  destruct (Hp info Hi) as (_ & Hb & _ & _ & Ha & _). cbv zeta.
  unfold LOW_LATENCY_PRIORITY_BOOST, AGING_PRIORITY_BOOST in *.
  destruct (decide _); destruct Ha; destruct (_ =? _); lia.
Qed.

Lemma stats_ok_same st st' :
  context_switches st' = context_switches st ->
  pcore_time_us st' = pcore_time_us st ->
  ecore_time_us st' = ecore_time_us st ->
  total_power_consumption st' = total_power_consumption st ->
  stats_ok st -> stats_ok st'.
Proof. unfold stats_ok. by intros -> -> -> ->. Qed.

Lemma stats_ok_switch st st' :
  context_switches st' = u64 (context_switches st + 1) ->
  (pcore_time_us st' = u64 (pcore_time_us st + 10)
   /\ ecore_time_us st' = ecore_time_us st
   /\ total_power_consumption st' = u64 (total_power_consumption st + 100))
  \/ (pcore_time_us st' = pcore_time_us st
      /\ ecore_time_us st' = u64 (ecore_time_us st + 10)
      /\ total_power_consumption st' = u64 (total_power_consumption st + 40)) ->
  stats_ok st -> stats_ok st'.
Proof.
  unfold stats_ok. intros -> [(-> & -> & ->)|(-> & -> & ->)] [H1 H2];
    unfold u64 in *; change (2 ^ 64) with 18446744073709551616 in *;
    split; Z.div_mod_to_equations; lia.
Qed.

Lemma stats_zero_ok : stats_ok stats_zero.
Proof. split; reflexivity. Qed.

(** ** The states the scheduler reaches *)

Section Reach.
Variable MAX_PROCESSES : nat.
Variable process_find : list process_t -> Z -> option nat.

(** The operations of htas.c on its globals and on the process table.
    [EvProcState] stands for the process code, which is not part of htas.c:
    it changes the state of a process and nothing else. *)
Inductive htas_event :=
  | EvInit
  | EvSetScheduler (ty : scheduler_type_t)
  | EvResetStats
  | EvSetProfile (kmalloc_ok : bool) (pid : Z) (prof : task_profile_t)
  | EvPick (process_current current : option nat)
  | EvRecordSwitch (current next : option nat)
  | EvMemoryAccess (proc : option nat) (addr : Z)
  | EvProcState (i : nat) (st : proc_state_t).

Definition htas_step (e : htas_event) (s : htas_state) : htas_state :=
  match e with
  | EvInit => htas_init s
  | EvSetScheduler ty => htas_set_scheduler ty s
  | EvResetStats => htas_reset_stats s
  | EvSetProfile kmalloc_ok pid prof =>
      set_procs
        (fst (sys_sched_set_profile process_find kmalloc_ok (procs s) pid prof)) s
  | EvPick process_current current =>
      fst (htas_pick_next_process MAX_PROCESSES process_current current s)
  | EvRecordSwitch current next => htas_record_switch current next s
  | EvMemoryAccess proc addr => htas_simulate_memory_access proc addr s
  | EvProcState i st =>
      set_procs (alter (fun p => mk_process (Htas.pid p) st (htas_info p)) i (procs s)) s
  end.

Fixpoint htas_run (evs : list htas_event) (s : htas_state) : htas_state :=
  match evs with
  | [] => s
  | e :: rest => htas_run rest (htas_step e s)
  end.

Definition htas_inv (s : htas_state) : Prop :=
  Forall proc_ok (procs s)
  /\ 0 <= g_current_cpu s < NUM_CPUS
  /\ stats_ok (g_baseline_stats s) /\ stats_ok (g_htas_stats s).

Lemma set_profile_ok kmalloc_ok table pid prof :
  Forall proc_ok table ->
  Forall proc_ok (fst (sys_sched_set_profile process_find kmalloc_ok table pid prof)).
Proof.
  intros Hok. unfold sys_sched_set_profile.
  destruct (process_find table pid) as [i|]; [|done].
  assert (Hnew : forall info,
    info_ok info \/ info = htas_task_info_zero ->
    Forall proc_ok
      (alter (fun p => mk_process (Htas.pid p) (state p)
         (Some (mk_htas_task_info prof (htas_calculate_affinity prof)
            (if decide (intent prof = PROFILE_LOW_LATENCY)
             then LOW_LATENCY_PRIORITY_BOOST else 0)
            (if primary_data_region prof =? 0 then 0
             else htas_get_numa_node_for_address (primary_data_region prof))
            (wait_time info) (priority_boost_aging info)
            (total_runtime_us info) (total_switches info)
            (Htas.numa_penalties info)))) i table)).
  { intros info Hinfo. apply Forall_alter; [done|].
    intros x _ _ info' [= <-]. by apply profiled_info_ok. }
  destruct (htas_info (proc_at table i)) as [info|] eqn:Hi.
  - cbn [fst]. apply Hnew. left. unfold proc_at in Hi.
    destruct (table !! i) as [x|] eqn:Hx; [|done].
    by apply (Forall_lookup_1 _ _ _ _ Hok Hx).
  - destruct kmalloc_ok; cbn [fst]; [|done]. apply Hnew. by right.
Qed.

Lemma record_switch_procs_ok current next s :
  Forall proc_ok (procs s) -> Forall proc_ok (procs (htas_record_switch current next s)).
Proof.
  intros Hok. unfold htas_record_switch.
  destruct next as [n|]; [|done]. destruct (decide (Some n = current)); [done|].
  destruct (htas_info (proc_at (procs s) n)) as [info|] eqn:Hi.
  - unfold set_active_stats. destruct (decide _); cbn [procs set_g_current_cpu
      set_g_baseline_stats set_g_htas_stats set_procs].
    all: apply Forall_alter; [done|]; intros x Hx _ info' [= <-];
      apply switched_info_ok; unfold proc_at in Hi; rewrite Hx in Hi;
      by apply (Forall_lookup_1 _ _ _ _ Hok Hx).
  - unfold set_active_stats. by destruct (decide _).
Qed.

Lemma memory_access_procs_ok proc addr s :
  Forall proc_ok (procs s) ->
  Forall proc_ok (procs (htas_simulate_memory_access proc addr s)).
Proof.
  intros Hok. unfold htas_simulate_memory_access.
  destruct proc as [i|]; [|done].
  destruct (htas_info (proc_at (procs s) i)) as [info|] eqn:Hi; [|done].
  cbv zeta. destruct (negb _); [|done].
  destruct (decide _); cbn [procs set_g_baseline_stats set_g_htas_stats set_procs].
  all: apply Forall_alter; [done|]; intros x Hx _ info' [= <-];
    apply penalised_info_ok; unfold proc_at in Hi; rewrite Hx in Hi;
    by apply (Forall_lookup_1 _ _ _ _ Hok Hx).
Qed.

Lemma pick_procs_ok process_current current s :
  Forall proc_ok (procs s) ->
  Forall proc_ok
    (procs (fst (htas_pick_next_process MAX_PROCESSES process_current current s))).
Proof.
  intros Hok.
  destruct (pick_next_process_outcome MAX_PROCESSES process_current current s)
    as (_ & _ & _ & _ & _ & Hl). cbv zeta in Hl.
  apply Forall_lookup_2. intros j p'. rewrite Hl.
  destruct (if decide (g_current_scheduler s = SCHED_BASELINE) then _ else _)
    as [n|]; [|by apply Forall_lookup_1].
  destruct (decide _); [|by apply Forall_lookup_1].
  destruct (procs s !! j) as [p|] eqn:Hp; [|done].
  intros [= <-]. apply aged_ok. by apply (Forall_lookup_1 _ _ _ _ Hok Hp).
Qed.

Lemma htas_step_procs_ok e s :
  Forall proc_ok (procs s) -> Forall proc_ok (procs (htas_step e s)).
Proof.
  intros Hok. destruct e; cbn [htas_step].
  - by destruct s.
  - by destruct s.
  - by destruct s.
  - cbn [procs set_procs]. by apply set_profile_ok.
  - by apply pick_procs_ok.
  - by apply record_switch_procs_ok.
  - by apply memory_access_procs_ok.
  - cbn [procs set_procs]. apply Forall_alter; [done|].
    intros x _ Hx info Hinfo. by apply Hx.
Qed.

Lemma htas_step_globals_ok e s :
  0 <= g_current_cpu s < NUM_CPUS ->
  stats_ok (g_baseline_stats s) -> stats_ok (g_htas_stats s) ->
  0 <= g_current_cpu (htas_step e s) < NUM_CPUS
  /\ stats_ok (g_baseline_stats (htas_step e s))
  /\ stats_ok (g_htas_stats (htas_step e s)).
Proof.
  intros Hcpu Hb Hh. destruct s as [sch cpu tick bs hs table rr].
  cbn [g_current_cpu g_baseline_stats g_htas_stats] in *.
  destruct e as [|ty| |k pid prof|pc cur|cur next|proc addr|i st]; cbn [htas_step].
  - split; [done|]. split; apply stats_zero_ok.
  - done.
  - split; [done|]. split; apply stats_zero_ok.
  - done.
  - unfold htas_pick_next_process, active_stats, set_active_stats.
    destruct sch; dec_sched.
    + destruct (baseline_select_next MAX_PROCESSES table pc rr) as [[n|] rr'];
        dec_sched; (split; [done|]); (split; [|done]);
        by apply (stats_ok_same bs).
    + destruct (htas_select_next MAX_PROCESSES table cpu) as [n|];
        dec_sched; (split; [done|]); (split; [done|]);
        by apply (stats_ok_same hs).
    + destruct (htas_select_next MAX_PROCESSES table cpu) as [n|];
        dec_sched; (split; [done|]); (split; [done|]);
        by apply (stats_ok_same hs).
  - unfold htas_record_switch. destruct next as [n|]; [|done].
    destruct (decide (Some n = cur)); [done|].
    assert (Hcpu' : 0 <= u8 (Z.rem (cpu + 1) NUM_CPUS) < NUM_CPUS).
    { unfold NUM_CPUS in *. pose proof (Z.rem_bound_pos (cpu + 1) 4 ltac:(lia) ltac:(lia)).
      rewrite u8_small by lia. lia. }
    unfold active_stats, set_active_stats.
    destruct (htas_info (proc_at _ n)) as [info|];
      destruct (decide (htas_get_cpu_type _ = CPU_TYPE_PCORE));
      destruct sch; dec_sched; (split; [exact Hcpu'|]);
      first [ split; [|done]; apply (stats_ok_switch bs); [reflexivity | | done]
            | split; [done|]; apply (stats_ok_switch hs); [reflexivity | | done] ];
      first [ left; repeat split; reflexivity | right; repeat split; reflexivity ].
  - unfold htas_simulate_memory_access. destruct proc as [i|]; [|done].
    destruct (htas_info (proc_at _ i)) as [info|]; [|done].
    cbv zeta. destruct (negb _); [|done].
    destruct sch; dec_sched; (split; [done|]);
      first [ split; [|done]; by apply (stats_ok_same bs)
            | split; [done|]; by apply (stats_ok_same hs) ].
  - done.
Qed.

Lemma htas_step_inv e s : htas_inv s -> htas_inv (htas_step e s).
Proof.
  intros (Hp & Hc & Hb & Hh). split; [by apply htas_step_procs_ok|].
  by apply htas_step_globals_ok.
Qed.

Lemma htas_run_inv evs s : htas_inv s -> htas_inv (htas_run evs s).
Proof.
  revert s. induction evs as [|e evs IH]; intros s Hs; [done|].
  cbn [htas_run]. apply IH. by apply htas_step_inv.
Qed.

Lemma htas_boot_inv table : Forall proc_ok table -> htas_inv (htas_boot table).
Proof.
  intros Hok. split; [done|]. split; [unfold NUM_CPUS; cbn; lia|].
  split; apply stats_zero_ok.
Qed.

End Reach.

(** X15.  Starting from a process table whose records are consistent, every
    sequence of htas.c's operations and of process state changes keeps each
    record consistent: its affinity mask, priority boost and preferred NUMA
    node are those of its stored profile, its aging boost is 0 or 5 and is 5
    whenever [wait_time] exceeds the threshold of 100.  Hence the priority
    [htas_select_next] computes always lies between 0 and 20. *)
Theorem htas_info_invariant MAX_PROCESSES process_find table evs :
  Forall proc_ok table ->
  let s := htas_run MAX_PROCESSES process_find evs (htas_boot table) in
  Forall proc_ok (procs s)
  /\ forall i cpu, 0 <= select_priority (proc_at (procs s) i) cpu <= 20.
Proof.
  intros Hok. cbv zeta.
  destruct (htas_run_inv MAX_PROCESSES process_find evs _ (htas_boot_inv table Hok))
    as (Hp & _). split; [done|].
  intros i cpu. apply select_priority_bounds. unfold proc_at.
  destruct (procs _ !! i) as [p|] eqn:Hi; [|done].
  by apply (Forall_lookup_1 _ _ _ _ Hp Hi).
Qed.

Definition two_procs : list process_t :=
  [mk_process 1 PROC_READY None; mk_process 2 PROC_READY None].

Definition aging_run : list htas_event :=
  [ EvSetProfile true 1 (mk_task_profile PROFILE_LOW_LATENCY 0 0);
    EvSetProfile true 2 (mk_task_profile PROFILE_EFFICIENCY 4096 64);
    EvSetScheduler SCHED_HTAS ]
  ++ replicate 101 (EvPick None None).

Lemma htas_info_invariant_witness :
  (exists info,
     htas_info (proc_at (procs (htas_run 2 find_by_pid aging_run (htas_boot two_procs)))
                        1) = Some info
     /\ wait_time info = 101 /\ priority_boost_aging info = 5)
  /\ 0 <= select_priority
            (proc_at (procs (htas_run 2 find_by_pid aging_run (htas_boot two_procs))) 1)
            2 <= 20.
Proof.
  split; [eexists; split; [vm_compute; reflexivity | split; reflexivity]|].
  apply (htas_info_invariant 2 find_by_pid two_procs aging_run).
  unfold two_procs.
  apply List.Forall_cons; [intros info Hi; discriminate Hi|].
  apply List.Forall_cons; [intros info Hi; discriminate Hi|].
  apply List.Forall_nil.
Defined.

(** X16.  In every state reached from boot, [g_current_cpu] is a CPU of the
    topology, and in both statistics records the P-core and E-core times add
    up to 10 microseconds per context switch and the power consumption is 10
    times the P-core time plus 4 times the E-core time (modulo 2^64, the
    width of the counters). *)
Theorem htas_stats_invariant MAX_PROCESSES process_find table evs :
  let s := htas_run MAX_PROCESSES process_find evs (htas_boot table) in
  0 <= g_current_cpu s < NUM_CPUS
  /\ stats_ok (g_baseline_stats s) /\ stats_ok (g_htas_stats s).
Proof.
  cbv zeta. revert evs.
  assert (H : forall evs s,
    0 <= g_current_cpu s < NUM_CPUS /\ stats_ok (g_baseline_stats s)
    /\ stats_ok (g_htas_stats s) ->
    0 <= g_current_cpu (htas_run MAX_PROCESSES process_find evs s) < NUM_CPUS
    /\ stats_ok (g_baseline_stats (htas_run MAX_PROCESSES process_find evs s))
    /\ stats_ok (g_htas_stats (htas_run MAX_PROCESSES process_find evs s))).
  { induction evs as [|e evs IH]; intros s Hs; [done|].
    cbn [htas_run]. apply IH. destruct Hs as (? & ? & ?).
    by apply htas_step_globals_ok. }
  intros evs. apply H. split; [unfold NUM_CPUS; cbn; lia|].
  split; apply stats_zero_ok.
Qed.

End HtasExtra.

(** * The benchmark simulator: the three policies and the accounting *)

Module SimExtra.
Import HtasH Sim SimSpec.

#[local] Arguments for_range : simpl never.

(** ** Round robin *)

(** The task index the scan looks at in its [k]-th attempt. *)
Definition rr_slot (ctx : sim_context_t) (k : nat) : Z :=
  Z.rem (rr_index ctx + Z.of_nat k) SIM_TASK_COUNT.

Lemma rr_slot_range ctx k : 0 <= rr_index ctx -> 0 <= rr_slot ctx k < 8.
Proof.
  intros H. unfold rr_slot, SIM_TASK_COUNT.
  apply Z.rem_bound_pos; lia.
Qed.

Lemma task_atZ_nat ctx idx : 0 <= idx -> task_atZ ctx idx = task_at ctx (Z.to_nat idx).
Proof. intros H. unfold task_atZ. destruct (Z.ltb_spec idx 0); [lia | done]. Qed.

Lemma rr_scan_spec ctx a n :
  0 <= rr_index ctx ->
  (rr_scan ctx a n = (ctx, -1)
   /\ forall k, (a <= k < a + n)%nat -> ~ candidate ctx (Z.to_nat (rr_slot ctx k)))
  \/ exists k, (a <= k < a + n)%nat
       /\ candidate ctx (Z.to_nat (rr_slot ctx k))
       /\ (forall k', (a <= k' < k)%nat ->
                      ~ candidate ctx (Z.to_nat (rr_slot ctx k')))
       /\ rr_scan ctx a n =
          (set_tasks (alter (set_selected_this_tick true)
                            (Z.to_nat (rr_slot ctx k)) (tasks ctx))
             (set_rr_index (Z.rem (rr_slot ctx k + 1) SIM_TASK_COUNT) ctx),
           rr_slot ctx k).
Proof.
  intros Hrr. revert a. induction n as [|n IH]; intros a.
  - left. split; [done|]. intros k Hk. lia.
  - cbn [rr_scan]. fold (rr_slot ctx a).
    pose proof (rr_slot_range ctx a Hrr) as Hs.
    rewrite task_atZ_nat by lia.
    destruct (ready (task_at ctx (Z.to_nat (rr_slot ctx a)))
              && negb (selected_this_tick (task_at ctx (Z.to_nat (rr_slot ctx a)))))
      eqn:Hc.
    + right. exists a. split; [lia|].
      apply andb_true_iff in Hc as [Hr Hsel]. apply negb_true_iff in Hsel.
      split; [by split|]. split; [intros k' Hk'; lia | done].
    + assert (Hnc : ~ candidate ctx (Z.to_nat (rr_slot ctx a))).
      { intros [Hr Hsel]. rewrite Hr, Hsel in Hc. done. }
      destruct (IH (S a)) as [[-> Hnone]|(k & Hk & Hck & Hmin & ->)].
      * left. split; [done|]. intros k Hk.
        destruct (decide (k = a)) as [->|]; [done | apply Hnone; lia].
      * right. exists k. split; [lia|]. split; [done|]. split; [|done].
        intros k' Hk'. destruct (decide (k' = a)) as [->|]; [done | apply Hmin; lia].
Qed.

Lemma rr_slot_onto ctx (i : nat) :
  0 <= rr_index ctx < 8 -> (i < 8)%nat ->
  exists k, (k < 8)%nat /\ Z.to_nat (rr_slot ctx k) = i.
Proof.
  intros Hrr Hi. unfold rr_slot, SIM_TASK_COUNT.
  exists (Z.to_nat ((Z.of_nat i - rr_index ctx) mod 8)).
  pose proof (Z.mod_pos_bound (Z.of_nat i - rr_index ctx) 8 ltac:(lia)) as Hm.
  split; [lia|]. rewrite Z2Nat.id by lia.
  rewrite Z.rem_mod_nonneg by lia.
  rewrite Zplus_mod_idemp_r.
  replace (rr_index ctx + (Z.of_nat i - rr_index ctx)) with (Z.of_nat i) by lia.
  rewrite Z.mod_small by lia. lia.
Qed.

(** X17.  With [rr_index] in 0..7, [sim_select_task_round_robin] returns the
    first task in cyclic order from [rr_index] that is ready and not yet
    selected this tick, marks it selected and moves [rr_index] just past it;
    it returns -1, changing nothing, exactly when no task is ready and
    unselected. *)
Theorem round_robin_spec ctx :
  0 <= rr_index ctx < 8 ->
  let r := snd (sim_select_task_round_robin ctx) in
  let c' := fst (sim_select_task_round_robin ctx) in
  (r = -1 <-> forall i, (i < 8)%nat -> ~ candidate ctx i)
  /\ (r = -1 -> c' = ctx)
  /\ (r <> -1 ->
      exists k, (k < 8)%nat /\ r = Z.rem (rr_index ctx + Z.of_nat k) 8
        /\ 0 <= r < 8 /\ candidate ctx (Z.to_nat r)
        /\ (forall k', (k' < k)%nat ->
              ~ candidate ctx (Z.to_nat (Z.rem (rr_index ctx + Z.of_nat k') 8)))
        /\ rr_index c' = Z.rem (r + 1) 8
        /\ tasks c' = alter (set_selected_this_tick true) (Z.to_nat r) (tasks ctx)).
Proof.
  intros Hrr. cbv zeta. unfold sim_select_task_round_robin.
  destruct (rr_scan_spec ctx 0 8 ltac:(lia)) as [[-> Hnone]|(k & Hk & Hck & Hmin & ->)];
    cbn [fst snd].
  - split; [|split; [done|done]]. split; [|done]. intros _ i Hi Hci.
    destruct (rr_slot_onto ctx i Hrr Hi) as (k & Hk & <-).
    apply (Hnone k); [lia | done].
  - pose proof (rr_slot_range ctx k ltac:(lia)) as Hs.
    split; [|split; [lia|]].
    + split; [lia|]. intros Hno. exfalso.
      apply (Hno (Z.to_nat (rr_slot ctx k))); [lia | done].
    + intros _. exists k. split; [lia|]. split; [done|]. split; [done|].
      split; [done|]. split; [|done]. intros k' Hk'. apply Hmin. lia.
Qed.

Lemma round_robin_spec_witness :
  snd (sim_select_task_round_robin (sim_prepare_tick (fst sim_start))) = 0
  /\ candidate (sim_prepare_tick (fst sim_start)) 0.
Proof.
  destruct (round_robin_spec (sim_prepare_tick (fst sim_start))) as (_ & _ & H);
    [vm_compute; split; [discriminate | reflexivity]|].
  destruct H as (k & _ & _ & _ & Hc & _); [vm_compute; discriminate|].
  split; [vm_compute; reflexivity|]. exact Hc.
Defined.

(** ** What a policy call returns, whatever the policy *)

Lemma best_select_outcome score_of ctx :
  let r := fst (for_range 0 8 (best_step score_of ctx) (-1, -1000)) in
  r = -1 \/ exists m, (m < 8)%nat /\ r = Z.of_nat m /\ candidate ctx m.
Proof.
  cbv zeta. destruct (best_loop_inv score_of ctx)
    as [(H1 & _)|(m & Hm & H1 & Hc & _)]; [by left|].
  right. by exists m.
Qed.

Lemma mark_selected_outcome ctx r :
  (r = -1 \/ exists m : nat, r = Z.of_nat m) ->
  rr_index (fst (mark_selected ctx r)) = rr_index ctx
  /\ snd (mark_selected ctx r) = r
  /\ tasks (fst (mark_selected ctx r)) =
     (if decide (r = -1) then tasks ctx
      else alter (set_selected_this_tick true) (Z.to_nat r) (tasks ctx)).
Proof.
  intros Hr. unfold mark_selected.
  destruct (Z.leb_spec 0 r); destruct (decide (r = -1)); cbn [fst snd];
    try done; try lia. destruct Hr as [?|[m ->]]; lia.
Qed.

Lemma select_task_outcome ty cpu ctx :
  0 <= rr_index ctx < 8 ->
  let c' := fst (select_task ty cpu ctx) in
  let r := snd (select_task ty cpu ctx) in
  0 <= rr_index c' < 8
  /\ ((r = -1 /\ tasks c' = tasks ctx)
      \/ exists m, (m < 8)%nat /\ r = Z.of_nat m /\ candidate ctx m
           /\ tasks c' = alter (set_selected_this_tick true) m (tasks ctx)).
Proof.
  intros Hrr. cbv zeta.
  assert (Hbest : forall score_of,
    let b := for_range 0 8 (best_step score_of ctx) (-1, -1000) in
    0 <= rr_index (fst (mark_selected ctx (fst b))) < 8
    /\ ((snd (mark_selected ctx (fst b)) = -1
         /\ tasks (fst (mark_selected ctx (fst b))) = tasks ctx)
        \/ exists m, (m < 8)%nat /\ snd (mark_selected ctx (fst b)) = Z.of_nat m
             /\ candidate ctx m
             /\ tasks (fst (mark_selected ctx (fst b)))
                = alter (set_selected_this_tick true) m (tasks ctx))).
  { intros score_of. cbv zeta.
    pose proof (best_select_outcome score_of ctx) as Hb. cbv zeta in Hb.
    destruct (mark_selected_outcome ctx
                (fst (for_range 0 8 (best_step score_of ctx) (-1, -1000))))
      as (-> & -> & ->).
    { destruct Hb as [?|(m & _ & ? & _)]; [by left | right; by exists m]. }
    split; [done|].
    destruct Hb as [->|(m & Hm & -> & Hc)].
    - left. by rewrite decide_True.
    - right. exists m. rewrite decide_False by lia. by rewrite Nat2Z.id. }
  destruct ty; cbn [select_task].
  - unfold sim_select_task_round_robin.
    destruct (rr_scan_spec ctx 0 8 ltac:(lia))
      as [[-> Hnone]|(k & Hk & Hck & Hmin & ->)]; cbn [fst snd].
    + split; [done|]. by left.
    + pose proof (rr_slot_range ctx k ltac:(lia)) as Hs.
      split; [unfold SIM_TASK_COUNT; apply Z.rem_bound_pos; lia|].
      right. exists (Z.to_nat (rr_slot ctx k)).
      split; [lia|]. split; [lia|]. split; done.
  - apply Hbest.
  - apply Hbest.
Qed.

(** ** No task runs on two CPUs in one tick *)

(** After [k] CPUs: the tasks marked selected are those assigned so far. *)
Definition assign_inv (ctx : sim_context_t) (k : nat)
    (s : sim_context_t * list Z) : Prop :=
  0 <= rr_index (fst s) < 8 /\ length (snd s) = 4%nat
  /\ (forall i, tasks (fst s) !! i =
        (fun t => if decide (Z.of_nat i ∈ take k (snd s))
                  then set_selected_this_tick true t else t) <$> tasks ctx !! i)
  /\ (forall cpu x, (cpu < k)%nat -> snd s !! cpu = Some x ->
        x = -1 \/ exists m, (m < 8)%nat /\ x = Z.of_nat m /\ candidate ctx m)
  /\ (forall c1 c2 x, (c1 < k)%nat -> (c2 < k)%nat ->
        snd s !! c1 = Some x -> snd s !! c2 = Some x -> 0 <= x -> c1 = c2).

Lemma take_S_insert (l : list Z) k x :
  (k < length l)%nat -> take (S k) (<[k := x]> l) = take k l ++ [x].
Proof.
  intros Hk. rewrite (take_S_r _ _ x) by (by apply list_lookup_insert_eq).
  by rewrite take_insert_ge by lia.
Qed.

Lemma assign_step_inv ty ctx k s :
  (k < 4)%nat -> assign_inv ctx k s ->
  assign_inv ctx (S k)
    (let '(c, task_index) := select_task ty k (fst s) in
     (c, <[k := task_index]> (snd s))).
Proof.
  intros Hk (Hrr & Hlen & Htasks & Hvalid & Hdist). destruct s as [c asg].
  cbn [fst snd] in *.
  pose proof (select_task_outcome ty k c Hrr) as Hsel. cbv zeta in Hsel.
  destruct (select_task ty k c) as [c' r]. cbn [fst snd] in *.
  destruct Hsel as [Hrr' Hcase]. unfold assign_inv. cbn [fst snd].
  assert (Htake : take (S k) (<[k := r]> asg) = take k asg ++ [r])
    by (apply take_S_insert; lia).
  split; [done|]. split; [by rewrite length_insert|].
  assert (Hold : forall cpu, (cpu < k)%nat -> <[k := r]> asg !! cpu = asg !! cpu)
    by (intros cpu Hc; apply list_lookup_insert_ne; lia).
  assert (Hnew : <[k := r]> asg !! k = Some r)
    by (apply list_lookup_insert_eq; lia).
  assert (Hmem : forall x, x ∈ take k asg ->
            exists cpu, (cpu < k)%nat /\ asg !! cpu = Some x).
  { intros x Hx. apply elem_of_take in Hx as (cpu & Hc1 & Hc2). by exists cpu. }
  destruct Hcase as [[-> Hsame]|(m & Hm & -> & [Hready Hsel] & Halter)].
  - split; [|split].
    + intros i. rewrite Hsame, Htasks, Htake.
      destruct (tasks ctx !! i) as [t|]; [|done]. cbn. f_equal.
      destruct (decide (Z.of_nat i ∈ take k asg)) as [Hin|Hnin].
      * rewrite decide_True; [done|]. apply elem_of_app. by left.
      * rewrite decide_False; [done|]. rewrite elem_of_app, list_elem_of_singleton.
        intros [?|?]; [done | lia].
    + intros cpu x Hc. destruct (decide (cpu = k)) as [->|Hne].
      * rewrite Hnew. intros [= <-]. by left.
      * rewrite Hold by lia. apply Hvalid. lia.
    + intros c1 c2 x Hc1 Hc2.
      destruct (decide (c1 = k)) as [->|Hn1]; [rewrite Hnew; intros [= <-]; lia|].
      destruct (decide (c2 = k)) as [->|Hn2]; [rewrite Hnew; intros _ [= <-]; lia|].
      rewrite !Hold by lia. apply Hdist; lia.
  - assert (Hfresh : (Z.of_nat m ∉ take k asg)
                     /\ ready (task_at ctx m) = true
                     /\ selected_this_tick (task_at ctx m) = false).
    { unfold task_at in Hready, Hsel |- *. rewrite Htasks in Hready, Hsel.
      destruct (tasks ctx !! m) as [t|]; [|done]. cbn in Hready, Hsel |- *.
      destruct (decide (Z.of_nat m ∈ take k asg)); [done|]. done. }
    destruct Hfresh as (Hnin & Hr0 & Hs0).
    split; [|split].
    + intros i. rewrite Halter, Htake.
      destruct (decide (i = m)) as [->|Hne].
      * rewrite list_lookup_alter_eq, Htasks.
        destruct (tasks ctx !! m) as [t|]; [|done]. cbn. f_equal.
        rewrite decide_False by done.
        rewrite decide_True; [done|]. apply elem_of_app. right.
        by apply list_elem_of_singleton.
      * rewrite list_lookup_alter_ne by done. rewrite Htasks.
        destruct (tasks ctx !! i) as [t|]; [|done]. cbn. f_equal.
        destruct (decide (Z.of_nat i ∈ take k asg)) as [Hin|Hni].
        -- rewrite decide_True; [done|]. apply elem_of_app. by left.
        -- rewrite decide_False; [done|].
           rewrite elem_of_app, list_elem_of_singleton. intros [?|?]; [done | lia].
    + intros cpu x Hc. destruct (decide (cpu = k)) as [->|Hne].
      * rewrite Hnew. intros [= <-]. right. exists m. by repeat split.
      * rewrite Hold by lia. apply Hvalid. lia.
    + assert (Hnot : forall cpu, (cpu < k)%nat -> asg !! cpu <> Some (Z.of_nat m)).
      { intros cpu Hc Hl. apply Hnin. apply elem_of_take. exists cpu.
        split; [done | lia]. }
      intros c1 c2 x Hc1 Hc2.
      destruct (decide (c1 = k)) as [->|Hn1];
        destruct (decide (c2 = k)) as [->|Hn2]; try done.
      * rewrite Hnew, Hold by lia. intros [= <-] Hl. exfalso.
        apply (Hnot c2); [lia | done].
      * rewrite Hnew, Hold by lia. intros Hl [= <-]. exfalso.
        apply (Hnot c1); [lia | done].
      * rewrite !Hold by lia. apply Hdist; lia.
Qed.

Lemma assign_cpus_inv ty ctx :
  0 <= rr_index ctx < 8 -> assign_inv ctx 4 (assign_cpus ty ctx).
Proof.
  intros Hrr. unfold assign_cpus. change 4%nat with (0 + 4)%nat at 1.
  apply (for_range_ind (assign_inv ctx)).
  - split; [done|]. split; [done|]. split; [|split].
    + intros i. cbn [fst snd take]. destruct (tasks ctx !! i); [|done]. cbn.
      first [done | f_equal; rewrite decide_False; [done | apply not_elem_of_nil]].
    + intros cpu x Hc. lia.
    + intros c1 c2 x Hc. lia.
  - intros i s Hi. apply assign_step_inv. lia.
Qed.

Lemma reach_rr_index c : sim_reachable c -> 0 <= rr_index c < 8.
Proof.
  induction 1 as [ctx0|c Hc IH|c ty cpu Hc IH|c st cpu idx Hc IH|c Hc IH|c Hc IH Ht].
  - cbn. lia.
  - done.
  - by destruct (select_task_outcome ty cpu c IH) as [H _].
  - unfold sim_update_task_stats. by destruct (idx <? 0).
  - done.
  - done.
Qed.

(** X18.  In one tick no task is given to two CPUs: with [rr_index] in 0..7,
    whatever the policy, every entry of the [assigned] array is -1 or the
    index of a task that was ready and unselected when the tick's selection
    began, and the entries that name a task are pairwise different.  This
    holds at every tick of a run. *)
Theorem assign_cpus_sound ty :
  (forall ctx, 0 <= rr_index ctx < 8 ->
     let a := snd (assign_cpus ty ctx) in
     length a = 4%nat
     /\ (forall cpu x, a !! cpu = Some x ->
           x = -1 \/ exists m, (m < 8)%nat /\ x = Z.of_nat m /\ candidate ctx m)
     /\ (forall c1 c2 x, a !! c1 = Some x -> a !! c2 = Some x -> 0 <= x -> c1 = c2))
  /\ (forall n : nat, Z.of_nat n < 4294967296 ->
        0 <= rr_index (sim_prepare_tick (fst (sim_run ty n))) < 8).
Proof.
  split.
  - intros ctx Hrr. cbv zeta.
    destruct (assign_cpus_inv ty ctx Hrr) as (_ & Hlen & _ & Hvalid & Hdist).
    split; [done|]. split.
    + intros cpu x Hl. apply (Hvalid cpu); [|done].
      apply lookup_lt_Some in Hl. lia.
    + intros c1 c2 x H1 H2. apply Hdist; [| |done|done].
      * apply lookup_lt_Some in H1. lia.
      * apply lookup_lt_Some in H2. lia.
  - intros n Hn. apply reach_rr_index, reach_prepare. by apply sim_run_reachable.
Qed.

Lemma assign_cpus_sound_witness :
  length (snd (assign_cpus SCHED_HTAS (sim_prepare_tick (fst sim_start)))) = 4%nat
  /\ 0 <= rr_index (sim_prepare_tick (fst (sim_run SCHED_HTAS 3))) < 8.
Proof.
  destruct (assign_cpus_sound SCHED_HTAS) as [Hs Hrun]. split.
  - destruct (Hs (sim_prepare_tick (fst sim_start))) as (Hlen & _);
      [vm_compute; split; [discriminate | reflexivity] | exact Hlen].
  - apply Hrun. lia.
Defined.

(** ** The dynamic policy *)

(** The score of the dynamic policy, term by term: the CPU kind that the
    recent load calls for, the inferred NUMA node, the wake-up bonus, the
    age and the aging boost. *)
Definition load_term (t : sim_task_t) (cpu : cpu_type_t) : Z :=
  if DYNAMIC_LOAD_THRESHOLD <? recent_cpu_ticks t
  then match cpu with CPU_TYPE_PCORE => 12 | CPU_TYPE_ECORE => -8 end
  else match cpu with CPU_TYPE_ECORE => 12 | CPU_TYPE_PCORE => -6 end.

Definition dynamic_score_spec (tk : Z) (cpu : cpu_info_t) (t : sim_task_t) : Z :=
  base_priority t
  + load_term t (type cpu)
  + (if inferred_numa_node t =? numa_node cpu then 8 else -6)
  + (if 0 <? waiting_since_ready t then 5 else 0)
  + (tk - last_scheduled_tick t) / 4
  + priority_boost_aging t.

(** Every value the local [int score] takes lies in the range of [int]. *)
Definition dynamic_score_fits (tk : Z) (cpu : cpu_info_t) (t : sim_task_t) : Prop :=
  let s1 := base_priority t + load_term t (type cpu) in
  let s2 := s1 + (if inferred_numa_node t =? numa_node cpu then 8 else -6) in
  let s3 := s2 + (if 0 <? waiting_since_ready t then 5 else 0) in
  let s4 := s3 + (tk - last_scheduled_tick t) / 4 in
  int_ok (base_priority t) /\ int_ok s1 /\ int_ok s2 /\ int_ok s3 /\ int_ok s4
  /\ int_ok (s4 + priority_boost_aging t).

Definition dynamic_scorable (ctx : sim_context_t) (cpu : Z) (t : sim_task_t)
  : Prop :=
  0 <= tick ctx - last_scheduled_tick t < 4294967296
  /\ dynamic_score_fits (tick ctx) (cpu_at cpu) t
  /\ -1000 < dynamic_score_spec (tick ctx) (cpu_at cpu) t.

Lemma dynamic_score_table ctx cpu t :
  0 <= tick ctx - last_scheduled_tick t < 4294967296 ->
  dynamic_score ctx cpu t = dynamic_score_spec (tick ctx) (cpu_at cpu) t.
Proof.
  intros Hage. unfold dynamic_score, dynamic_score_spec, load_term. cbv zeta.
  rewrite u32_small by lia.
  rewrite (Z.eqb_sym (numa_node (cpu_at cpu))).
  destruct (DYNAMIC_LOAD_THRESHOLD <? recent_cpu_ticks t);
    destruct (type (cpu_at cpu));
    destruct (inferred_numa_node t =? numa_node (cpu_at cpu));
    destruct (0 <? waiting_since_ready t);
    repeat case_decide; try congruence; lia.
Qed.

(** X19.  For every CPU 0..3 and every context of eight tasks in which each
    ready, not yet selected task has an age that does not wrap around and a
    score within [int] and above -1000, [sim_select_task_dynamic] scores a
    task by what it has been observed to do (base priority; +12 on a P-core
    and -8 on an E-core when its recent load is above 25 ticks, else +12 on
    an E-core and -6 on a P-core; +8 on its inferred NUMA node and -6
    elsewhere; 5 for a waiting job; age; aging boost), never by its intent
    or its preferred core and node, and returns the ready, not yet selected
    task with the greatest score, the lowest index among equals; it returns
    -1 exactly when there is no such task, and it marks the task it returns
    as selected. *)
Theorem sim_select_task_dynamic_spec (ctx : sim_context_t) (cpu : Z) :
  length (tasks ctx) = 8%nat -> 0 <= cpu <= 3 ->
  (forall i, (i < 8)%nat -> candidate ctx i ->
     dynamic_scorable ctx cpu (task_at ctx i)) ->
  let score i := dynamic_score_spec (tick ctx) (cpu_at cpu) (task_at ctx i) in
  let r := snd (sim_select_task_dynamic ctx cpu) in
  (forall t, 0 <= tick ctx - last_scheduled_tick t < 4294967296 ->
     dynamic_score ctx cpu t = dynamic_score_spec (tick ctx) (cpu_at cpu) t)
  /\ ((exists i, (i < 8)%nat /\ candidate ctx i) ->
      exists k, (k < 8)%nat /\ r = Z.of_nat k /\ candidate ctx k
        /\ forall j, (j < 8)%nat -> candidate ctx j ->
             score j < score k \/ (score j = score k /\ (k <= j)%nat))
  /\ (r = -1 <-> ~ exists i, (i < 8)%nat /\ candidate ctx i)
  /\ tasks (fst (sim_select_task_dynamic ctx cpu)) =
     (if 0 <=? r
      then alter (set_selected_this_tick true) (Z.to_nat r) (tasks ctx)
      else tasks ctx).
Proof.
  intros Hlen Hcpu Hok. cbv zeta.
  assert (Hscore : forall i, (i < 8)%nat -> candidate ctx i ->
            dynamic_score ctx cpu (task_at ctx i)
            = dynamic_score_spec (tick ctx) (cpu_at cpu) (task_at ctx i)
            /\ -1000 < dynamic_score ctx cpu (task_at ctx i)).
  { intros i Hi Hc. destruct (Hok i Hi Hc) as (Hage & _ & Hgt).
    rewrite (dynamic_score_table ctx cpu _ Hage). by split. }
  split; [intros t Ht; by apply dynamic_score_table|].
  pose proof (best_loop_inv (dynamic_score ctx cpu) ctx) as Hinv.
  unfold sim_select_task_dynamic.
  set (b := for_range 0 8 (best_step (dynamic_score ctx cpu) ctx) (-1, -1000)) in *.
  assert (Hr : snd (mark_selected ctx (fst b)) = fst b
               /\ tasks (fst (mark_selected ctx (fst b))) =
                  (if 0 <=? fst b
                   then alter (set_selected_this_tick true) (Z.to_nat (fst b)) (tasks ctx)
                   else tasks ctx)).
  { unfold mark_selected. by destruct (0 <=? fst b). }
  destruct Hr as [-> ->].
  destruct Hinv as [(H1 & H2 & Hnone)|(m & Hm & H1 & Hc & H2 & H3 & Hbest)].
  - assert (Hno : ~ exists i, (i < 8)%nat /\ candidate ctx i).
    { intros (i & Hi & Hci). specialize (Hnone i Hi Hci).
      destruct (Hscore i Hi Hci) as [_ Hgt]. lia. }
    split; [intros Hex; contradiction|]. split; [done | done].
  - split; [|split; [|done]].
    + intros _. exists m. repeat split; try done; try apply Hc.
      intros j Hj Hjc. destruct (Hscore j Hj Hjc) as [<- _].
      destruct (Hscore m Hm Hc) as [<- _]. rewrite <- H2. by apply Hbest.
    + split; [lia|]. intros Hno. exfalso. apply Hno. by exists m.
Qed.

(** On [mixed_hints] the dynamic policy does not look at the hints: the
    first task gets nothing for its P-core preference, and the waiting third
    one 5 where the HTAS policy gives 30. *)
Lemma sim_select_task_dynamic_spec_witness :
  snd (sim_select_task_dynamic mixed_hints 0) = 2
  /\ dynamic_score mixed_hints 0 (task_at mixed_hints 0) = 3 - 6 + 8 + 0 + 10 + 0
  /\ dynamic_score mixed_hints 0 (task_at mixed_hints 2) = 0 - 6 + 8 + 5 + 10 + 0.
Proof.
  assert (Hok : forall i, (i < 8)%nat -> candidate mixed_hints i ->
                  dynamic_scorable mixed_hints 0 (task_at mixed_hints i)).
  { intros i Hi _.
    do 8 (destruct i as [|i];
          [unfold dynamic_scorable, dynamic_score_fits, int_ok; cbv zeta;
           repeat split; vm_compute; first [reflexivity | discriminate]|]).
    lia. }
  destruct (sim_select_task_dynamic_spec mixed_hints 0 eq_refl ltac:(lia) Hok)
    as (Hscore & _ & _ & _).
  split; [vm_compute; reflexivity|].
  rewrite !Hscore by (vm_compute; split; [discriminate | reflexivity]).
  repeat split; vm_compute; reflexivity.
Defined.


(** ** Ticks and power *)

(** What an idle CPU draws in one tick. *)
Definition idle_power (cpu : nat) : Z :=
  if bool_decide (type (cpu_at (Z.of_nat cpu)) = CPU_TYPE_PCORE) then 30 else 20.

Definition power_inv (B C : Z) (st : Stats.scheduler_stats_t) : Prop :=
  0 <= Stats.pcore_time_us st /\ 0 <= Stats.ecore_time_us st
  /\ Stats.pcore_time_us st + Stats.ecore_time_us st <= B
  /\ 1000 * Stats.total_power_consumption st
     = C + 90 * Stats.pcore_time_us st + 50 * Stats.ecore_time_us st.

Lemma update_power B C ctx st (cpu : nat) idx :
  0 <= C <= 1000000000000000000 -> 0 <= B <= 10000000000000000 ->
  power_inv B C st ->
  power_inv (B + 1000) (C + 1000 * idle_power cpu)
    (snd (sim_update_task_stats ctx st (Z.of_nat cpu) idx))
  /\ Stats.total_ticks (snd (sim_update_task_stats ctx st (Z.of_nat cpu) idx))
     = Stats.total_ticks st.
Proof.
  intros HC HB (Hp & He & Hle & Hpw). unfold sim_update_task_stats, idle_power.
  destruct st as [tt cs np ec pc ists pw]. cbn [Stats.pcore_time_us
    Stats.ecore_time_us Stats.total_power_consumption] in *.
  destruct (idx <? 0).
  { cbn [snd]. unfold power_inv.
    destruct (bool_decide (type (cpu_at (Z.of_nat cpu)) = CPU_TYPE_PCORE));
      cbn; rewrite ?u64_small by lia; (split; [|done]); repeat split; lia. }
  cbv zeta. cbn [snd]. unfold power_inv, SIM_TICK_US.
  destruct (negb (last_at ctx (Z.of_nat cpu) =? idx));
    destruct (bool_decide (type (cpu_at (Z.of_nat cpu)) = CPU_TYPE_PCORE));
    destruct ((preferred_numa _ <? NUM_NUMA_NODES) && negb _);
    cbn; rewrite ?u64_small by lia; (split; [|done]); repeat split; lia.
Qed.

Lemma update_cpus_power B C assigned s :
  0 <= C <= 900000000000000000 -> 0 <= B <= 9000000000000000 ->
  power_inv B C (snd s) ->
  power_inv (B + 4000) (C + 100000) (snd (update_cpus assigned s))
  /\ Stats.total_ticks (snd (update_cpus assigned s)) = Stats.total_ticks (snd s).
Proof.
  intros HC HB Hinv. unfold update_cpus.
  assert (H :
    (fun k (x : sim_context_t * Stats.scheduler_stats_t) =>
       power_inv (B + 1000 * Z.of_nat k) (C + 1000 * sum_below idle_power k) (snd x)
       /\ Stats.total_ticks (snd x) = Stats.total_ticks (snd s)
       /\ 0 <= sum_below idle_power k <= 30 * Z.of_nat k)
    (0 + 4)%nat
    (for_range 0 4
       (fun cpu s0 => sim_update_task_stats (fst s0) (snd s0) (Z.of_nat cpu)
                        (default 0 (assigned !! cpu))) s)).
  { apply for_range_ind.
    - cbn [sum_below]. rewrite Z.mul_0_r, !Z.add_0_r. split; [done|]. split; [done|lia].
    - intros k x Hk (Hpi & Htt & Hsb).
      destruct (update_power (B + 1000 * Z.of_nat k)
                  (C + 1000 * sum_below idle_power k) (fst x) (snd x) k
                  (default 0 (assigned !! k)) ltac:(lia) ltac:(lia) Hpi)
        as [Hpi' Htt'].
      assert (Hip : 0 <= idle_power k <= 30)
        by (unfold idle_power; destruct (bool_decide _); lia).
      cbn [sum_below]. split; [|split; [congruence | lia]].
      replace (B + 1000 * Z.of_nat (S k)) with (B + 1000 * Z.of_nat k + 1000) by lia.
      replace (C + 1000 * (sum_below idle_power k + idle_power k))
        with (C + 1000 * sum_below idle_power k + 1000 * idle_power k) by lia.
      exact Hpi'. }
  cbv beta in H. destruct H as (Hpi & Htt & _).
  split; [|exact Htt].
  change (1000 * Z.of_nat (0 + 4)) with 4000 in Hpi.
  change (1000 * sum_below idle_power (0 + 4)) with 100000 in Hpi. exact Hpi.
Qed.

Lemma power_inv_set_total_ticks B C v st :
  power_inv B C st -> power_inv B C (Stats.set_total_ticks v st).
Proof. destruct st. exact id. Qed.

Lemma sim_run_power ty n :
  Z.of_nat n < 4294967296 ->
  power_inv (4000 * Z.of_nat n) (100000 * Z.of_nat n) (snd (sim_run ty n))
  /\ Stats.total_ticks (snd (sim_run ty n)) = Z.of_nat n.
Proof.
  induction n as [|n IH]; intros Hn.
  - split; [|done]. unfold power_inv. cbn. lia.
  - destruct (IH ltac:(lia)) as [Hpi Htt].
    rewrite sim_run_S, snd_next_tick, snd_sim_tick_body.
    destruct (update_cpus_power (4000 * Z.of_nat n) (100000 * Z.of_nat n)
                (snd (assign_cpus ty (sim_prepare_tick (fst (sim_run ty n)))))
                (fst (assign_cpus ty (sim_prepare_tick (fst (sim_run ty n)))),
                 Stats.set_total_ticks
                   (u64 (Stats.total_ticks (snd (sim_run ty n)) + 1))
                   (snd (sim_run ty n))))
      as [Hpi' Htt']; [lia | lia | by apply power_inv_set_total_ticks|].
    split.
    + replace (4000 * Z.of_nat (S n)) with (4000 * Z.of_nat n + 4000) by lia.
      replace (100000 * Z.of_nat (S n)) with (100000 * Z.of_nat n + 100000) by lia.
      exact Hpi'.
    + rewrite Htt'. cbn [snd]. destruct (snd (sim_run ty n)) as [tt cs np ec pc ists pw].
      cbn in Htt |- *. rewrite Htt, u64_small by lia. lia.
Qed.

Lemma write_latency_power s :
  Stats.total_ticks (write_latency s) = Stats.total_ticks (snd s)
  /\ Stats.total_power_consumption (write_latency s)
     = Stats.total_power_consumption (snd s)
  /\ Stats.pcore_time_us (write_latency s) = Stats.pcore_time_us (snd s)
  /\ Stats.ecore_time_us (write_latency s) = Stats.ecore_time_us (snd s)
  /\ Stats.numa_penalties (write_latency s) = Stats.numa_penalties (snd s).
Proof. destruct s as [c st]. by destruct st. Qed.

(** X20.  After [n] ticks under any policy [total_ticks] is [n], and the power
    consumption is an idle draw of 100 units per tick (30 for each P-core,
    20 for each E-core) plus 90 units for every millisecond a P-core was busy
    and 50 for every millisecond an E-core was busy; the record
    [simulate_workload] returns satisfies the same for its duration. *)
Theorem power_accounting (ty : scheduler_type_t) :
  (forall n : nat, Z.of_nat n < 4294967296 ->
     let st := snd (sim_run ty n) in
     Stats.total_ticks st = Z.of_nat n
     /\ 1000 * Stats.total_power_consumption st
        = 100000 * Z.of_nat n + 90 * Stats.pcore_time_us st
          + 50 * Stats.ecore_time_us st)
  /\ (forall d ctx0 stats0 fuel out,
        simulate_workload d ty ctx0 stats0 fuel = Some out ->
        Stats.total_ticks out = u32 d
        /\ 1000 * Stats.total_power_consumption out
           = 100000 * u32 d + 90 * Stats.pcore_time_us out
             + 50 * Stats.ecore_time_us out).
Proof.
  split.
  - intros n Hn. cbv zeta.
    destruct (sim_run_power ty n Hn) as [(_ & _ & _ & Hpw) Htt]. by split.
  - intros d ctx0 stats0 fuel out Hrun.
    apply simulate_workload_Some in Hrun as ->.
    pose proof (u32_range d) as Hd.
    destruct (write_latency_power (sim_run ty (Z.to_nat (u32 d))))
      as (-> & -> & -> & -> & _).
    destruct (sim_run_power ty (Z.to_nat (u32 d)) ltac:(lia))
      as [(_ & _ & _ & Hpw) Htt].
    rewrite Z2Nat.id in Hpw, Htt by lia. by split.
Qed.

Lemma power_accounting_witness :
  exists out,
    simulate_workload 30 SCHED_HTAS sim_context_zero Stats.stats_zero 30 = Some out
    /\ Stats.total_ticks out = 30
    /\ 1000 * Stats.total_power_consumption out
       = 100000 * 30 + 90 * Stats.pcore_time_us out + 50 * Stats.ecore_time_us out.
Proof.
  destruct (simulate_workload 30 SCHED_HTAS sim_context_zero Stats.stats_zero 30)
    as [out|] eqn:Hrun; [|vm_compute in Hrun; discriminate].
  exists out. split; [reflexivity|].
  destruct (power_accounting SCHED_HTAS) as [_ H].
  destruct (H 30 sim_context_zero Stats.stats_zero 30%nat out Hrun) as [Htt Hpw].
  split; [exact Htt | exact Hpw].
Defined.

(** ** Context switches by intent *)

Definition intent_switches (st : Stats.scheduler_stats_t) (i : task_intent_t) : Z :=
  Stats.switches (default (Stats.mk_intent_stat 0 0 0 0)
                          (Stats.intent_stats st !! intent_index i)).

Definition total_intent_switches (st : Stats.scheduler_stats_t) : Z :=
  intent_switches st PROFILE_PERFORMANCE + intent_switches st PROFILE_EFFICIENCY
  + intent_switches st PROFILE_LOW_LATENCY + intent_switches st PROFILE_DEFAULT.

Definition switches_balanced (B : Z) (st : Stats.scheduler_stats_t) : Prop :=
  length (Stats.intent_stats st) = 4%nat
  /\ total_intent_switches st = Stats.context_switches st
  /\ (forall i, 0 <= intent_switches st i)
  /\ Stats.context_switches st <= B.

Lemma update_switches_balanced B ctx st cpu idx :
  B + 1 < 18446744073709551616 ->
  switches_balanced B st ->
  switches_balanced (B + 1) (snd (sim_update_task_stats ctx st cpu idx)).
Proof.
  intros HB (Hlen & Hsum & Hnn & Hle). unfold sim_update_task_stats.
  destruct (idx <? 0).
  { cbn [snd]. destruct st. split; [done|]. split; [done|]. split; [done|].
    cbn in *. lia. }
  cbv zeta.
  set (task := if negb (inferred_numa_locked _) && _ then _ else _).
  destruct st as [tt cs np ec pc ists pw]. simpl in *.
  destruct ists as [|a [|b [|c [|d [|x ists]]]]]; try discriminate.
  unfold total_intent_switches, intent_switches in *. simpl in *.
  pose proof (Hnn PROFILE_PERFORMANCE) as H0.
  pose proof (Hnn PROFILE_EFFICIENCY) as H1.
  pose proof (Hnn PROFILE_LOW_LATENCY) as H2.
  pose proof (Hnn PROFILE_DEFAULT) as H3. simpl in *.
  destruct (negb (last_at ctx cpu =? idx));
    destruct (bool_decide (type (cpu_at cpu) = CPU_TYPE_PCORE));
    destruct ((preferred_numa _ <? NUM_NUMA_NODES) && negb _);
    destruct (intent _); unfold switches_balanced, total_intent_switches,
      intent_switches;
    simpl; rewrite ?u64_small by lia;
    (repeat split; [lia | intros []; simpl; lia | lia]).
Qed.

Lemma update_cpus_switches_balanced B assigned s :
  B + 4 < 18446744073709551616 ->
  switches_balanced B (snd s) ->
  switches_balanced (B + 4) (snd (update_cpus assigned s)).
Proof.
  intros HB Hbal. unfold update_cpus.
  change 4 with (Z.of_nat (0 + 4)).
  apply (for_range_ind
    (fun i (x : sim_context_t * Stats.scheduler_stats_t) =>
       switches_balanced (B + Z.of_nat i) (snd x)) 0 4).
  - cbn. by rewrite Z.add_0_r.
  - intros i x Hi Hx.
    replace (B + Z.of_nat (S i)) with (B + Z.of_nat i + 1) by lia.
    apply update_switches_balanced; [lia | done].
Qed.

Lemma sim_run_switches_balanced ty n :
  Z.of_nat n < 4294967296 ->
  switches_balanced (4 * Z.of_nat n) (snd (sim_run ty n)).
Proof.
  induction n as [|n IH]; intros Hn.
  - unfold switches_balanced, total_intent_switches, intent_switches. cbn.
    repeat split; try done. intros []; done.
  - rewrite sim_run_S, snd_next_tick, snd_sim_tick_body.
    replace (4 * Z.of_nat (S n)) with (4 * Z.of_nat n + 4) by lia.
    apply update_cpus_switches_balanced; [lia|].
    specialize (IH ltac:(lia)). destruct (snd (sim_run ty n)). exact IH.
Qed.

Lemma write_latency_intent_switches s :
  length (Stats.intent_stats (snd s)) = 4%nat ->
  total_intent_switches (write_latency s) = total_intent_switches (snd s)
  /\ Stats.context_switches (write_latency s) = Stats.context_switches (snd s).
Proof.
  destruct s as [c st]. simpl. intros Hlen.
  destruct st as [tt cs np ec pc ists pw]. simpl in *.
  destruct ists as [|a [|b [|x [|d [|y ists]]]]]; try discriminate.
  done.
Qed.

(** X21.  After any number of ticks under any policy, and in the record that
    [simulate_workload] returns, the per-intent switch counts add up to
    [context_switches]. *)
Theorem switch_accounting (ty : scheduler_type_t) :
  (forall n : nat, Z.of_nat n < 4294967296 ->
     total_intent_switches (snd (sim_run ty n))
     = Stats.context_switches (snd (sim_run ty n)))
  /\ (forall d ctx0 stats0 fuel out,
        simulate_workload d ty ctx0 stats0 fuel = Some out ->
        total_intent_switches out = Stats.context_switches out).
Proof.
  split.
  - intros n Hn. by destruct (sim_run_switches_balanced ty n Hn) as (_ & H & _).
  - intros d ctx0 stats0 fuel out Hrun.
    apply simulate_workload_Some in Hrun as ->.
    pose proof (u32_range d) as Hd.
    destruct (sim_run_switches_balanced ty (Z.to_nat (u32 d)) ltac:(lia))
      as (Hlen & H & _).
    destruct (write_latency_intent_switches _ Hlen) as (-> & ->). exact H.
Qed.

Lemma switch_accounting_witness :
  exists out,
    simulate_workload 30 SCHED_BASELINE sim_context_zero Stats.stats_zero 30 = Some out
    /\ total_intent_switches out = Stats.context_switches out.
Proof.
  destruct (simulate_workload 30 SCHED_BASELINE sim_context_zero Stats.stats_zero 30)
    as [out|] eqn:Hrun; [|vm_compute in Hrun; discriminate].
  exists out. split; [reflexivity|].
  destruct (switch_accounting SCHED_BASELINE) as [_ H].
  exact (H 30 sim_context_zero Stats.stats_zero 30%nat out Hrun).
Defined.

End SimExtra.
